(** * Scene builders, selection and angle overlay of the 3D viewer

    A shallow embedding of [src/index.tsx]: the two model builders
    ([buildGeometryModel], [buildChemistryModel] with [createAtom] and
    [createBond]), the selection handlers ([onCanvasClick],
    [handleHighlight], [reHighlightSelection]), the angle overlay
    ([drawAngleVisualization]), the part of [handleGenerateClick] that
    replaces the active model, the saving and loading of sessions
    ([handleSaveSession], [loadSessionState]), the question history
    ([handleAskQuestion], [renderQaHistory]) and the framing of the camera
    ([frameObject]).

    Conventions of the embedding.
    - JavaScript numbers are read as real numbers: arithmetic is exact and
      rounding is not modelled.  The values a parsed JSON document may carry
      in place of a finite number are kept apart in [Coord].
    - Strings are ASCII strings; [toLowerCase] and [toUpperCase] act on the
      letters A-Z and a-z.
    - The parsed JSON document follows the response schemas of the source
      ([geometrySchema], [chemistrySchema]); every field the code guards
      before use is optional here.
    - The rendering engine (three.js) is used through the operations the
      source calls.  Vector algebra is written out; the text metrics of the
      2D canvas and the bounding box of an object are taken from the
      engine. *)

From Stdlib Require Import Reals Lra ZArith List String Ascii Lia.
From stdpp Require Import base option list gmap strings.

Set Warnings "-register-all".

Open Scope R_scope.

(** ** Numbers and vectors *)

Definition Rltb (a b : R) : bool := if Rlt_dec a b then true else false.

(** [Math.max(-1, Math.min(1, value))] and friends. *)
Definition clamp (value lo hi : R) : R := Rmax lo (Rmin hi value).

(** THREE.Vector3 with the methods the source calls. *)
Module Vector3.

Record t : Type := mk { x : R; y : R; z : R }.

Definition zero : t := mk 0 0 0.

Definition add (a b : t) : t := mk (x a + x b) (y a + y b) (z a + z b).
Definition sub (a b : t) : t := mk (x a - x b) (y a - y b) (z a - z b).
Definition subVectors := sub.

Definition multiplyScalar (a : t) (s : R) : t :=
  mk (x a * s) (y a * s) (z a * s).

Definition divideScalar (a : t) (s : R) : t := multiplyScalar a (1 / s).

Definition dot (a b : t) : R := x a * x b + y a * y b + z a * z b.

Definition crossVectors (a b : t) : t :=
  mk (y a * z b - z a * y b) (z a * x b - x a * z b) (x a * y b - y a * x b).
Definition cross := crossVectors.

Definition lengthSq (a : t) : R := x a * x a + y a * y a + z a * z a.
Definition length (a : t) : R := sqrt (lengthSq a).

(** [divideScalar(this.length() || 1)]: the zero vector stays zero. *)
Definition normalize (a : t) : t :=
  divideScalar a (if Req_dec_T (length a) 0 then 1 else length a).

(** [angleTo]: a zero denominator yields a right angle. *)
Definition angleTo (a b : t) : R :=
  let denominator := sqrt (lengthSq a * lengthSq b) in
  if Req_dec_T denominator 0 then PI / 2
  else acos (clamp (dot a b / denominator) (-1) 1).

End Vector3.

Abbreviation vec3 := Vector3.mk.

(** A value found where a number is expected in the parsed document:
    a finite number, a number that is not finite ([1e999] parses to
    [Infinity]), or a value that is not of type number (including
    [undefined] for a missing array slot). *)
Inductive Coord : Type :=
  | Finite (v : R)
  | NonFinite
  | NotNumber.

(** [typeof coord !== 'number' || !isFinite(coord)] *)
Definition badCoord (c : Coord) : bool :=
  match c with
  | Finite _ => false
  | NonFinite => true
  | NotNumber => true
  end.

Definition Coord3 : Type := Coord * Coord * Coord.

(** [Vector3.fromArray(array)]: reads slots 0, 1 and 2 as they are. *)
Definition fromArray (a : list Coord) : Coord3 :=
  (nth 0 a NotNumber, nth 1 a NotNumber, nth 2 a NotNumber).

Definition ofVector3 (v : Vector3.t) : Coord3 :=
  (Finite (Vector3.x v), Finite (Vector3.y v), Finite (Vector3.z v)).

(** ** Strings *)

Definition lowerChar (c : ascii) : ascii :=
  let n := nat_of_ascii c in
  if (65 <=? n)%nat && (n <=? 90)%nat then ascii_of_nat (n + 32) else c.

Definition upperChar (c : ascii) : ascii :=
  let n := nat_of_ascii c in
  if (97 <=? n)%nat && (n <=? 122)%nat then ascii_of_nat (n - 32) else c.

Fixpoint mapString (f : ascii -> ascii) (s : string) : string :=
  match s with
  | EmptyString => EmptyString
  | String c s' => String (f c) (mapString f s')
  end.

Definition toLowerCase : string -> string := mapString lowerChar.
Definition toUpperCase : string -> string := mapString upperChar.

(** Truthiness of a string value. *)
Definition truthy (s : string) : bool := negb (String.eqb s "").

(** ** The parsed description *)

(** An entry of [data.vertices]: [Some] for an array, [None] for any other
    value. *)
Definition Vertex : Type := option (list Coord).

Record FaceDetails : Type := {
  surfaceArea : string;
  perimeter : string
}.

(** [indices] is [None] when the field is missing or not an array. *)
Record TriangleData : Type := {
  indices : option (list Z)
}.

Record FaceGroup : Type := {
  face_details : option FaceDetails;
  triangles : option (list TriangleData)
}.

(** [label_text] is the empty string when the field is missing;
    [label_position] is [None] when it is not an array. *)
Record LabelData : Type := {
  label_text : string;
  label_position : option (list Coord)
}.

Record BondAngle : Type := {
  angle : string;
  atomsInvolved : list string;
  atomsInvolvedIndices : option (list Z)
}.

(** [atom_position] is [None] when the field is missing. *)
Record AtomData : Type := {
  element : string;
  atom_position : option Vector3.t;
  vseprShape : string;
  bondAngles : option (list BondAngle)
}.

Record BondData : Type := {
  start : Z;
  end_ : Z;
  type : string;
  energy : string
}.

(** The document handed to either builder.  A key is [None] when it is
    missing or does not hold an array. *)
Record ModelData : Type := {
  vertices : option (list Vertex);
  faces : option (list FaceGroup);
  labels : option (list LabelData);
  atoms : option (list AtomData);
  bonds : option (list BondData)
}.

(** ** The scene graph *)

Record AtomDetails : Type := {
  ad_element : string;
  ad_bondAngles : option (list BondAngle);
  ad_vseprShape : string;
  atomIndex : nat
}.

Record BondDetails : Type := {
  bd_name : string;
  bd_type : string;
  bd_energy : string;
  startAtomIndex : Z;
  endAtomIndex : Z
}.

(** The payload stored in [userData.details]. *)
Inductive Details : Type :=
  | OfFace (d : FaceDetails)
  | OfAtom (d : AtomDetails)
  | OfBond (d : BondDetails).

Record UserData : Type := {
  details : option Details;
  faceId : option nat;
  atomPositions : option (list Vector3.t)
}.

Definition noUserData : UserData :=
  {| details := None; faceId := None; atomPositions := None |}.

Inductive Geometry : Type :=
  | BufferGeometry (positions : list Coord)
  | SphereGeometry (radius : R)
  | CylinderGeometry (radiusTop radiusBottom height : R).

Inductive Quaternion : Type :=
  | Identity
  | SetFromUnitVectors (vFrom vTo : Vector3.t).

(** [Mesh] carries the colour its material is created with; [Sprite] is a
    text label; [Group] owns its children. *)
Inductive Object3D : Type :=
  | Mesh (userData : UserData) (geometry : Geometry) (color : Z)
         (position : Vector3.t)
  | Sprite (text : string) (position : Coord3) (scale : Vector3.t)
  | Group (userData : UserData) (position : Vector3.t)
          (quaternion : Quaternion) (children : list Object3D).

Definition isMesh (o : Object3D) : bool :=
  match o with Mesh _ _ _ _ => true | _ => false end.

Definition isSprite (o : Object3D) : bool :=
  match o with Sprite _ _ _ => true | _ => false end.

Definition isGroup (o : Object3D) : bool :=
  match o with Group _ _ _ _ => true | _ => false end.

Definition userDataOf (o : Object3D) : UserData :=
  match o with
  | Mesh ud _ _ _ => ud
  | Sprite _ _ _ => noUserData
  | Group ud _ _ _ => ud
  end.

Definition childrenOf (o : Object3D) : list Object3D :=
  match o with
  | Group _ _ _ ch => ch
  | _ => []
  end.

Definition faceIdOf (o : Object3D) : option nat := faceId (userDataOf o).

(** [scale.multiplyScalar(s)] on a sprite, nothing on other objects. *)
Definition scaleSprite (s : R) (o : Object3D) : Object3D :=
  match o with
  | Sprite t p sc => Sprite t p (Vector3.multiplyScalar sc s)
  | _ => o
  end.

(** [object.traverse(child => if (child instanceof Sprite) ...)] *)
Fixpoint scaleSpritesDeep (s : R) (o : Object3D) : Object3D :=
  match o with
  | Group ud p q ch => Group ud p q (map (scaleSpritesDeep s) ch)
  | _ => scaleSprite s o
  end.

(** THREE.Box3 *)
Record Box3 : Type := {
  box_min : Vector3.t;
  box_max : Vector3.t
}.

Definition isEmpty (b : Box3) : bool :=
  Rltb (Vector3.x (box_max b)) (Vector3.x (box_min b))
  || Rltb (Vector3.y (box_max b)) (Vector3.y (box_min b))
  || Rltb (Vector3.z (box_max b)) (Vector3.z (box_min b)).

Definition getSize (b : Box3) : Vector3.t :=
  if isEmpty b then Vector3.zero else Vector3.sub (box_max b) (box_min b).

Definition getCenter (b : Box3) : Vector3.t :=
  if isEmpty b then Vector3.zero
  else Vector3.multiplyScalar (Vector3.add (box_min b) (box_max b)) 0.5.

(** ** Errors raised by the builders *)

Inductive BuildError : Type :=
  | VerticesMissing
  | FacesMissing
  | NoValidShapes
  | AtomsNotFound
  | AtomsEmpty.

Definition message (e : BuildError) : string :=
  match e with
  | VerticesMissing =>
      "Invalid JSON structure: 'vertices' array not found or is empty."
  | FacesMissing =>
      "Invalid JSON structure: 'faces' array not found or is empty."
  | NoValidShapes =>
      "Could not create any valid geometric shapes from the provided JSON."
  | AtomsNotFound => "Invalid JSON: 'atoms' array not found."
  | AtomsEmpty => "Invalid JSON: 'atoms' array cannot be empty."
  end.

(** The two fatal kinds of the design: a required top-level key is missing
    or empty, or no usable primitive was produced. *)
Inductive ErrorKind : Type := SchemaError | EmptyModelError.

Definition kind (e : BuildError) : ErrorKind :=
  match e with
  | NoValidShapes => EmptyModelError
  | _ => SchemaError
  end.

Inductive result (A : Type) : Type :=
  | Ok (a : A)
  | Throw (e : BuildError).
Arguments Ok {A} a.
Arguments Throw {A} e.

(** ** The builders *)

(** [array[index]] for an integer index: [undefined] out of range. *)
Definition lookupZ {A : Type} (l : list A) (i : Z) : option A :=
  if (0 <=? i)%Z then l !! Z.to_nat i else None.

(** What [console.warn] receives when a triangle is skipped. *)
Inductive Warning : Type :=
  | InvalidIndices (triangleData : TriangleData)
  | InvalidVertexData (faceVerticesArrays : list (option Vertex)).

(** [!v || !Array.isArray(v) || v.length !== 3 || v.some(badCoord)] for
    the value found at an index: [None] is [undefined]. *)
Definition invalidVertex (v : option Vertex) : bool :=
  match v with
  | None => true
  | Some None => true
  | Some (Some cs) => negb (List.length cs =? 3)%nat || existsb badCoord cs
  end.

(** [faceVerticesArrays.flat()] *)
Definition flat (vs : list (option Vertex)) : list Coord :=
  concat (map (fun v => match v with Some (Some cs) => cs | _ => [] end) vs).

Definition baseFaceColor : Z := 0x03dac6.

(** The body of the inner [forEach] of [buildGeometryModel]. *)
Definition buildTriangle (allVertices : list Vertex) (faceGroup : FaceGroup)
    (faceIndex : nat) (triangleData : TriangleData) : Warning + Object3D :=
  match indices triangleData with
  | None => inl (InvalidIndices triangleData)
  | Some triangleIndices =>
      if negb (List.length triangleIndices =? 3)%nat
      then inl (InvalidIndices triangleData)
      else
        let faceVerticesArrays := map (lookupZ allVertices) triangleIndices in
        if existsb invalidVertex faceVerticesArrays
        then inl (InvalidVertexData faceVerticesArrays)
        else
          inr (Mesh {| details := OfFace <$> face_details faceGroup;
                       faceId := Some faceIndex;
                       atomPositions := None |}
                    (BufferGeometry (flat faceVerticesArrays))
                    baseFaceColor Vector3.zero)
  end.

(** The body of the outer [forEach]: a face group without a [triangles]
    array contributes nothing. *)
Definition buildFace (allVertices : list Vertex) (faceIndex : nat)
    (faceGroup : FaceGroup) : list (Warning + Object3D) :=
  match triangles faceGroup with
  | None => []
  | Some ts => map (buildTriangle allVertices faceGroup faceIndex) ts
  end.

Definition built (r : Warning + Object3D) : option Object3D :=
  match r with inr m => Some m | inl _ => None end.

Definition warned (r : Warning + Object3D) : option Warning :=
  match r with inl w => Some w | inr _ => None end.

Definition setSpritePosition (p : Coord3) (o : Object3D) : Object3D :=
  match o with
  | Sprite t _ sc => Sprite t p sc
  | _ => o
  end.

Definition fontSize : R := 90.
Definition CHEM_MODEL_SCALE : R := 3.0.


(** *** Bonds and lookup tables *)

(** [table[key]] on an object literal. *)
Fixpoint assoc {A : Type} (key : string) (table : list (string * A))
    : option A :=
  match table with
  | [] => None
  | (k, v) :: rest => if String.eqb k key then Some v else assoc key rest
  end.

Definition CPK_COLORS : list (string * Z) :=
  [("H", 0xffffff); ("C", 0x808080); ("N", 0x0000ff); ("O", 0xff0000);
   ("F", 0x00ff00); ("CL", 0x00ff00); ("BR", 0xa52a2a); ("I", 0x800080);
   ("P", 0xffa500); ("S", 0xffff00); ("B", 0xfa8072);
   ("DEFAULT", 0xffc0cb)]%Z.

Definition CPK_DEFAULT : Z := 0xffc0cb.

Definition ATOM_RADII : list (string * R) :=
  [("H", 0.2 * CHEM_MODEL_SCALE); ("C", 0.35 * CHEM_MODEL_SCALE);
   ("N", 0.3 * CHEM_MODEL_SCALE); ("O", 0.3 * CHEM_MODEL_SCALE);
   ("F", 0.25 * CHEM_MODEL_SCALE); ("CL", 0.5 * CHEM_MODEL_SCALE);
   ("BR", 0.55 * CHEM_MODEL_SCALE); ("I", 0.65 * CHEM_MODEL_SCALE);
   ("P", 0.5 * CHEM_MODEL_SCALE); ("S", 0.5 * CHEM_MODEL_SCALE);
   ("B", 0.4 * CHEM_MODEL_SCALE); ("DEFAULT", 0.25 * CHEM_MODEL_SCALE)].

Definition ATOM_RADII_DEFAULT : R := 0.25 * CHEM_MODEL_SCALE.

Definition bondRadius : R := 0.05 * CHEM_MODEL_SCALE.
Definition bondColor : Z := 0xcccccc.

(** [createCylinder] of [createBond]: a mesh with a material of its own. *)
Definition createCylinder (length : R) : Object3D :=
  Mesh noUserData (CylinderGeometry bondRadius bondRadius length)
       bondColor Vector3.zero.

(** [position.add(v)] and [position.sub(v)] on a mesh. *)
Definition positionAdd (v : Vector3.t) (o : Object3D) : Object3D :=
  match o with
  | Mesh ud g c p => Mesh ud g c (Vector3.add p v)
  | _ => o
  end.

Definition positionSub (v : Vector3.t) (o : Object3D) : Object3D :=
  match o with
  | Mesh ud g c p => Mesh ud g c (Vector3.sub p v)
  | _ => o
  end.

(** The cylinders pushed for a bond type. *)
Definition bondCylinders (bondData : BondData) (length : R)
    : list Object3D :=
  let bondType := toLowerCase (type bondData) in
  if String.eqb bondType "double" then
    [createCylinder length; createCylinder length]
  else if String.eqb bondType "triple" then
    [createCylinder length; createCylinder length; createCylinder length]
  else [createCylinder length].

(** The direction in which the cylinders of a multiple bond are moved
    apart, already scaled to the lateral spacing. *)
Definition bondOffset (path : Vector3.t) : Vector3.t :=
  let offsetDirection := Vector3.crossVectors path (vec3 0 1 0) in
  let offsetDirection :=
    if Rltb (Vector3.length offsetDirection) 0.01
    then Vector3.crossVectors path (vec3 1 0 0)
    else offsetDirection in
  Vector3.multiplyScalar (Vector3.normalize offsetDirection)
                         (bondRadius * 1.5).

(** The [if (cylinders.length > 1)] block of [createBond]. *)
Definition offsetCylinders (path : Vector3.t) (cylinders : list Object3D)
    : list Object3D :=
  if (1 <? List.length cylinders)%nat then
    let offsetDirection := bondOffset path in
    match cylinders with
    | [c0; c1] =>
        [positionAdd offsetDirection c0; positionSub offsetDirection c1]
    | [c0; c1; c2] =>
        [c0; positionAdd offsetDirection c1; positionSub offsetDirection c2]
    | _ => cylinders
    end
  else cylinders.

Definition createBond (bondData : BondData) (startPos endPos : Vector3.t)
    (bondName : string) : Object3D :=
  let path := Vector3.subVectors endPos startPos in
  let length := Vector3.length path in
  let cylinders := offsetCylinders path (bondCylinders bondData length) in
  Group {| details := Some (OfBond {| bd_name := bondName;
                                      bd_type := type bondData;
                                      bd_energy := energy bondData;
                                      startAtomIndex := start bondData;
                                      endAtomIndex := end_ bondData |});
           faceId := None;
           atomPositions := None |}
        Vector3.zero Identity
        (map (fun cylinder =>
                Group noUserData
                      (Vector3.add startPos (Vector3.multiplyScalar path 0.5))
                      (SetFromUnitVectors (vec3 0 1 0) (Vector3.normalize path))
                      [cylinder])
             cylinders).

(** The body of the [data.bonds.forEach] of [buildChemistryModel]: a bond
    whose ends are not both atom indices is passed over. *)
Definition buildBond (atomList : list AtomData)
    (atomPositions : list Vector3.t) (bond : BondData) : option Object3D :=
  if ((0 <=? start bond)%Z
      && (start bond <? Z.of_nat (List.length atomPositions))%Z
      && (0 <=? end_ bond)%Z
      && (end_ bond <? Z.of_nat (List.length atomPositions))%Z)%bool
  then
    startPos ← lookupZ atomPositions (start bond);
    endPos ← lookupZ atomPositions (end_ bond);
    startAtom ← lookupZ atomList (start bond);
    endAtom ← lookupZ atomList (end_ bond);
    let bondName := (element startAtom ++ "-" ++ element endAtom)%string in
    Some (createBond bond startPos endPos bondName)
  else None.


(** *** Paths and traversal *)

(** A primitive of a model is named by the child indices that lead to it
    from the model's root. *)
Fixpoint nodeAt (o : Object3D) (p : list nat) : option Object3D :=
  match p with
  | [] => Some o
  | i :: p' =>
      match childrenOf o !! i with
      | Some c => nodeAt c p'
      | None => None
      end
  end.

(** [object.traverse(callback)]: the object first, then its children in
    order, each with its own descendants. *)
Fixpoint traverse (o : Object3D) : list (list nat * Object3D) :=
  ([], o) ::
  match o with
  | Group _ _ _ ch =>
      (fix go (i : nat) (l : list Object3D) : list (list nat * Object3D) :=
         match l with
         | [] => []
         | c :: l' => map (fun q => (i :: q.1, q.2)) (traverse c) ++ go (S i) l'
         end) 0%nat ch
  | _ => []
  end.

(** The meshes met by a traversal, by path. *)
Definition meshPaths (o : Object3D) : list (list nat) :=
  omap (fun q => if isMesh q.2 then Some q.1 else None) (traverse o).

(** The object, its parent, ..., up to the model root. *)
Definition selfAndAncestors (p : list nat) : list (list nat) :=
  map (fun n => take n p) (reverse (seq 0 (S (List.length p)))).

(** [userData.details?.type] is truthy. *)
Definition hasTypedDetails (o : Object3D) : bool :=
  match details (userDataOf o) with
  | Some (OfBond d) => truthy (bd_type d)
  | _ => false
  end.

(** The [while (currentObject.parent && !details?.type)] loop of
    [handleHighlight] followed by its test: the nearest object at or above
    the clicked one whose details carry a type.  Above the model root lies
    the scene, which has no details. *)
Definition findBondGroup (obj : Object3D) (p : list nat)
    : option (list nat) :=
  List.find (fun q => from_option hasTypedDetails false (nodeAt obj q))
            (selfAndAncestors p).

Definition positionOf (o : Object3D) : Vector3.t :=
  match o with
  | Mesh _ _ _ p => p
  | Sprite _ _ _ => Vector3.zero
  | Group _ p _ _ => p
  end.

(** [position.sub(center)] on the model root. *)
Definition recentre (center : Vector3.t) (o : Object3D) : Object3D :=
  match o with
  | Group ud p q ch => Group ud (Vector3.sub p center) q ch
  | Mesh ud g c p => Mesh ud g c (Vector3.sub p center)
  | Sprite _ _ _ => o
  end.

(** [p.clone().applyMatrix4(generatedObject.matrixWorld)]: the model root
    is neither rotated nor scaled, so its world matrix is the translation
    by its position. *)
Definition applyMatrixWorld (root : Object3D) (p : Vector3.t) : Vector3.t :=
  Vector3.add p (positionOf root).

(** ** Angle overlay *)

Record ArcCurve : Type := {
  aX : R;
  aY : R;
  aRadius : R;
  aStartAngle : R;
  aEndAngle : R;
  aClockwise : bool
}.

(** What [drawAngleVisualization] adds to [angleVisualizationGroup]: a
    pivot at [pCenter] oriented by the basis and holding the arc sampled
    at [divisions + 1] points, and a text label. *)
Inductive Overlay : Type :=
  | ArcPivot (position xAxis yAxis zAxis : Vector3.t) (curve : ArcCurve)
             (divisions : nat)
  | AngleLabel (text : string) (position scale : Vector3.t).

Definition isArcPivot (o : Overlay) : bool :=
  match o with ArcPivot _ _ _ _ _ _ => true | _ => false end.

(** ** Application state *)

Inductive Mode : Type := geometry | chemistry.

(** A selection as [handleHighlight] records it: the tag ['geometry_face'],
    ['chemistry_atom'] or ['chemistry_bond'], the id (a face index, an atom
    index, or a pair of atom indices) and the details. *)
Inductive SelectionData : Type :=
  | geometry_face (id : nat) (sel_details : Details)
  | chemistry_atom (id : nat) (sel_details : Details)
  | chemistry_bond (id_start id_end : Z) (sel_details : Details).

Definition detailsOf (s : SelectionData) : Details :=
  match s with
  | geometry_face _ d => d
  | chemistry_atom _ d => d
  | chemistry_bond _ _ d => d
  end.

(** A mesh of some model: the identity of the model object and the path of
    the mesh in it. *)
Definition MeshRef : Type := nat * list nat.

(** The module-level variables of the source that selection and model
    replacement read or write.  [generatedObject] pairs the model graph
    with the identity of the object; [sceneModels] lists the model objects
    that are children of [scene]; [materialColor] holds the colour of the
    material of every mesh; [nextObjectId] numbers the objects created. *)
Record State : Type := {
  currentMode : option Mode;
  selectedImage : bool;
  generatedObject : option (nat * Object3D);
  sceneModels : list nat;
  nextObjectId : nat;
  materialColor : gmap (nat * list nat) Z;
  highlightedObjects : list (nat * list nat * Z);
  currentSelectionDetails : option SelectionData;
  angleVisualizationGroup : list Overlay;
  selectionDetailsHidden : bool;
  selectionDetailsContent : option Details;
  errorMessage : option string
}.

Definition set_currentMode (v : option Mode) (st : State) : State :=
  {| currentMode := v; selectedImage := selectedImage st;
     generatedObject := generatedObject st; sceneModels := sceneModels st;
     nextObjectId := nextObjectId st; materialColor := materialColor st;
     highlightedObjects := highlightedObjects st;
     currentSelectionDetails := currentSelectionDetails st;
     angleVisualizationGroup := angleVisualizationGroup st;
     selectionDetailsHidden := selectionDetailsHidden st;
     selectionDetailsContent := selectionDetailsContent st;
     errorMessage := errorMessage st |}.

Definition set_selectedImage (v : bool) (st : State) : State :=
  {| currentMode := currentMode st; selectedImage := v;
     generatedObject := generatedObject st; sceneModels := sceneModels st;
     nextObjectId := nextObjectId st; materialColor := materialColor st;
     highlightedObjects := highlightedObjects st;
     currentSelectionDetails := currentSelectionDetails st;
     angleVisualizationGroup := angleVisualizationGroup st;
     selectionDetailsHidden := selectionDetailsHidden st;
     selectionDetailsContent := selectionDetailsContent st;
     errorMessage := errorMessage st |}.

Definition set_model (obj : option (nat * Object3D)) (models : list nat)
    (next : nat) (st : State) : State :=
  {| currentMode := currentMode st; selectedImage := selectedImage st;
     generatedObject := obj; sceneModels := models;
     nextObjectId := next; materialColor := materialColor st;
     highlightedObjects := highlightedObjects st;
     currentSelectionDetails := currentSelectionDetails st;
     angleVisualizationGroup := angleVisualizationGroup st;
     selectionDetailsHidden := selectionDetailsHidden st;
     selectionDetailsContent := selectionDetailsContent st;
     errorMessage := errorMessage st |}.

Definition set_materialColor (v : gmap (nat * list nat) Z) (st : State)
    : State :=
  {| currentMode := currentMode st; selectedImage := selectedImage st;
     generatedObject := generatedObject st; sceneModels := sceneModels st;
     nextObjectId := nextObjectId st; materialColor := v;
     highlightedObjects := highlightedObjects st;
     currentSelectionDetails := currentSelectionDetails st;
     angleVisualizationGroup := angleVisualizationGroup st;
     selectionDetailsHidden := selectionDetailsHidden st;
     selectionDetailsContent := selectionDetailsContent st;
     errorMessage := errorMessage st |}.

Definition set_highlightedObjects (v : list (nat * list nat * Z))
    (st : State) : State :=
  {| currentMode := currentMode st; selectedImage := selectedImage st;
     generatedObject := generatedObject st; sceneModels := sceneModels st;
     nextObjectId := nextObjectId st; materialColor := materialColor st;
     highlightedObjects := v;
     currentSelectionDetails := currentSelectionDetails st;
     angleVisualizationGroup := angleVisualizationGroup st;
     selectionDetailsHidden := selectionDetailsHidden st;
     selectionDetailsContent := selectionDetailsContent st;
     errorMessage := errorMessage st |}.

Definition set_currentSelectionDetails (v : option SelectionData)
    (st : State) : State :=
  {| currentMode := currentMode st; selectedImage := selectedImage st;
     generatedObject := generatedObject st; sceneModels := sceneModels st;
     nextObjectId := nextObjectId st; materialColor := materialColor st;
     highlightedObjects := highlightedObjects st;
     currentSelectionDetails := v;
     angleVisualizationGroup := angleVisualizationGroup st;
     selectionDetailsHidden := selectionDetailsHidden st;
     selectionDetailsContent := selectionDetailsContent st;
     errorMessage := errorMessage st |}.

Definition set_angleVisualizationGroup (v : list Overlay) (st : State)
    : State :=
  {| currentMode := currentMode st; selectedImage := selectedImage st;
     generatedObject := generatedObject st; sceneModels := sceneModels st;
     nextObjectId := nextObjectId st; materialColor := materialColor st;
     highlightedObjects := highlightedObjects st;
     currentSelectionDetails := currentSelectionDetails st;
     angleVisualizationGroup := v;
     selectionDetailsHidden := selectionDetailsHidden st;
     selectionDetailsContent := selectionDetailsContent st;
     errorMessage := errorMessage st |}.

Definition set_selectionDetails (hidden : bool) (content : option Details)
    (st : State) : State :=
  {| currentMode := currentMode st; selectedImage := selectedImage st;
     generatedObject := generatedObject st; sceneModels := sceneModels st;
     nextObjectId := nextObjectId st; materialColor := materialColor st;
     highlightedObjects := highlightedObjects st;
     currentSelectionDetails := currentSelectionDetails st;
     angleVisualizationGroup := angleVisualizationGroup st;
     selectionDetailsHidden := hidden;
     selectionDetailsContent := content;
     errorMessage := errorMessage st |}.

Definition set_errorMessage (v : option string) (st : State) : State :=
  {| currentMode := currentMode st; selectedImage := selectedImage st;
     generatedObject := generatedObject st; sceneModels := sceneModels st;
     nextObjectId := nextObjectId st; materialColor := materialColor st;
     highlightedObjects := highlightedObjects st;
     currentSelectionDetails := currentSelectionDetails st;
     angleVisualizationGroup := angleVisualizationGroup st;
     selectionDetailsHidden := selectionDetailsHidden st;
     selectionDetailsContent := selectionDetailsContent st;
     errorMessage := v |}.

Definition showError (message : string) : State -> State :=
  set_errorMessage (Some message).

Definition clearError : State -> State := set_errorMessage None.

(** The state when the page has loaded. *)
Definition initialState : State :=
  {| currentMode := None; selectedImage := false;
     generatedObject := None; sceneModels := [];
     nextObjectId := 0%nat; materialColor := ∅;
     highlightedObjects := [];
     currentSelectionDetails := None;
     angleVisualizationGroup := [];
     selectionDetailsHidden := true;
     selectionDetailsContent := None;
     errorMessage := None |}.

Definition HIGHLIGHT : Z := 0xffff99.

(** The restore loop shared by [onCanvasClick], [reHighlightSelection] and
    [resetApp]: every recorded colour is copied back, then the list is
    emptied. *)
Definition clearHighlights (st : State) : State :=
  set_highlightedObjects []
    (set_materialColor
       (foldl (fun m h => <[h.1 := h.2]> m) (materialColor st)
              (highlightedObjects st))
       st).

(** The three statements that highlight one mesh: clone its colour, set
    the highlight colour, push the pair. *)
Definition highlight (r : nat * list nat) (st : State) : State :=
  match materialColor st !! r with
  | Some originalColor =>
      set_highlightedObjects (highlightedObjects st ++ [(r, originalColor)])
        (set_materialColor (<[r := HIGHLIGHT]> (materialColor st)) st)
  | None => st
  end.

(** Which branch of [displaySelectionDetails] writes list items. *)
Definition renders (d : Details) : bool :=
  match d with
  | OfFace f => truthy (surfaceArea f)
  | OfAtom a => truthy (ad_element a)
  | OfBond b => truthy (bd_type b)
  end.

Definition displaySelectionDetails (d : option Details) (st : State)
    : State :=
  match d with
  | None => set_selectionDetails true None st
  | Some d' =>
      if renders d' then set_selectionDetails false (Some d') st
      else set_selectionDetails (selectionDetailsHidden st) None st
  end.

(** The statements that open both [onCanvasClick] and the body of
    [reHighlightSelection]. *)
Definition clearSelection (st : State) : State :=
  set_currentSelectionDetails None
    (set_selectionDetails true None
       (set_angleVisualizationGroup [] (clearHighlights st))).

Section Engine.

(** [canvas.getContext('2d')]: [None] when the canvas gives no context,
    otherwise the function [text => context.measureText(text).width]. *)
Variable context2d : option (string -> R).

(** [new THREE.Box3().setFromObject(object)] *)
Variable setFromObject : Object3D -> Box3.

Definition createLabelSprite (text : string) : option Object3D :=
  match context2d with
  | None => None
  | Some measureText =>
      let textWidth := measureText text in
      Some (Sprite text (ofVector3 Vector3.zero)
                   (vec3 (1.0 * (textWidth / fontSize)) 1.0 1.0))
  end.

(** The body of the [data.labels.forEach] of [buildGeometryModel]. *)
Definition buildLabel (labelData : LabelData) : option Object3D :=
  if truthy (label_text labelData) then
    match label_position labelData with
    | Some pos =>
        setSpritePosition (fromArray pos)
          <$> createLabelSprite (label_text labelData)
    | None => None
    end
  else None.

Definition maxDimOf (group : Object3D) : R :=
  let modelSize := getSize (setFromObject group) in
  Rmax (Rmax (Vector3.x modelSize) (Vector3.y modelSize))
       (Vector3.z modelSize).

Definition buildGeometryModel (data : ModelData) : result Object3D :=
  match vertices data with
  | None | Some [] => Throw VerticesMissing
  | Some allVertices =>
      match faces data with
      | None | Some [] => Throw FacesMissing
      | Some faceGroups =>
          let meshes :=
            omap built (concat (imap (buildFace allVertices) faceGroups)) in
          if (List.length (List.filter isMesh meshes) =? 0)%nat
          then Throw NoValidShapes
          else
            let sprites :=
              match labels data with
              | Some ls => omap buildLabel ls
              | None => []
              end in
            let children := meshes ++ sprites in
            let group :=
              Group noUserData Vector3.zero Identity children in
            let maxDim := maxDimOf group in
            if Rltb 0.001 maxDim then
              let labelScale := maxDim / 15 in
              Ok (Group noUserData Vector3.zero Identity
                        (map (scaleSprite labelScale) children))
            else Ok group
      end
  end.


(** *** Molecules *)

Definition createAtom (atomData : AtomData) (position : Vector3.t)
    (index : nat) : Object3D :=
  let el := toUpperCase (element atomData) in
  let color := default CPK_DEFAULT (assoc el CPK_COLORS) in
  let radius := default ATOM_RADII_DEFAULT (assoc el ATOM_RADII) in
  let atomMesh :=
    Mesh {| details := Some (OfAtom {| ad_element := element atomData;
                                       ad_bondAngles := bondAngles atomData;
                                       ad_vseprShape := vseprShape atomData;
                                       atomIndex := index |});
            faceId := None;
            atomPositions := None |}
         (SphereGeometry radius) color Vector3.zero in
  let label :=
    (fun l =>
       scaleSprite (radius * 2.5)
         (setSpritePosition
            (ofVector3 (vec3 0 (0 + (radius + 0.15 * CHEM_MODEL_SCALE)) 0))
            l))
      <$> createLabelSprite (element atomData) in
  Group noUserData position Identity (atomMesh :: option_list label).

(** The body of the [data.atoms.forEach] of [buildChemistryModel]: a
    missing position stands for the origin. *)
Definition scaledPosition (atom : AtomData) : Vector3.t :=
  Vector3.multiplyScalar (default Vector3.zero (atom_position atom))
                         CHEM_MODEL_SCALE.

Definition buildAtom (index : nat) (atom : AtomData) : Object3D :=
  createAtom atom (scaledPosition atom) index.

Definition buildChemistryModel (data : ModelData) : result Object3D :=
  match atoms data with
  | None => Throw AtomsNotFound
  | Some [] => Throw AtomsEmpty
  | Some atomList =>
      let atomPositions := map scaledPosition atomList in
      let atomGroups := imap buildAtom atomList in
      let bondGroups :=
        match bonds data with
        | Some bs => omap (buildBond atomList atomPositions) bs
        | None => []
        end in
      let group :=
        Group {| details := None; faceId := None;
                 atomPositions := Some atomPositions |}
              Vector3.zero Identity (atomGroups ++ bondGroups) in
      let maxDim := maxDimOf group in
      if Rltb 0.001 maxDim then
        let labelScale := maxDim / 30 in
        Ok (scaleSpritesDeep labelScale group)
      else Ok group
  end.

(** The diagnostics logged while [buildGeometryModel] runs. *)
Definition geometryWarnings (data : ModelData) : list Warning :=
  match vertices data, faces data with
  | Some (v :: vs), Some (f :: fs) =>
      omap warned (concat (imap (buildFace (v :: vs)) (f :: fs)))
  | _, _ => []
  end.


(** *** Angle overlay *)

Definition drawAngleVisualization (p1 pCenter p2 : Vector3.t)
    (angleText : string) (group : list Overlay) : list Overlay :=
  let v1 := Vector3.subVectors p1 pCenter in
  let v2 := Vector3.subVectors p2 pCenter in
  let angle := Vector3.angleTo v1 v2 in
  let normal := Vector3.crossVectors v1 v2 in
  let normal :=
    if Rltb (Vector3.lengthSq normal) 0.0001 then
      let nonParallel :=
        if Rltb 0.999
             (Rabs (Vector3.dot (Vector3.normalize v1) (vec3 1 0 0)))
        then vec3 0 1 0
        else vec3 1 0 0 in
      Vector3.normalize (Vector3.crossVectors v1 nonParallel)
    else Vector3.normalize normal in
  if Rltb angle 0.01 then group
  else
    let arcRadius := 0.4 * CHEM_MODEL_SCALE in
    let curve :=
      {| aX := 0; aY := 0; aRadius := arcRadius;
         aStartAngle := 0; aEndAngle := angle; aClockwise := false |} in
    let xAxis := Vector3.normalize v1 in
    let yAxis := Vector3.normalize (Vector3.cross normal xAxis) in
    let zAxis := normal in
    let group := group ++ [ArcPivot pCenter xAxis yAxis zAxis curve 32] in
    match createLabelSprite angleText with
    | Some _ =>
        let bisector :=
          Vector3.add (Vector3.normalize v1) (Vector3.normalize v2) in
        let bisector :=
          if Rltb (Vector3.lengthSq bisector) 0.0001 then yAxis
          else bisector in
        let bisector := Vector3.normalize bisector in
        let labelOffset := (arcRadius + 0.15) * 1.5 in
        group ++
          [AngleLabel angleText
             (Vector3.add pCenter
                (Vector3.multiplyScalar bisector labelOffset))
             (vec3 0.5 0.5 0.5)]
    | None => group
    end.

(** The block that draws the bond angles of an atom, found in
    [handleHighlight] and again in [reHighlightSelection]. *)
Definition drawAngles (root : Object3D) (d : Details)
    (group : list Overlay) : list Overlay :=
  match atomPositions (userDataOf root) with
  | Some originalAtomPositions =>
      let finalAtomPositions :=
        map (applyMatrixWorld root) originalAtomPositions in
      match d with
      | OfAtom a =>
          match ad_bondAngles a with
          | Some angles =>
              foldl
                (fun g angleInfo =>
                   match atomsInvolvedIndices angleInfo with
                   | Some [i0; i1; i2] =>
                       match lookupZ finalAtomPositions i0,
                             lookupZ finalAtomPositions i1,
                             lookupZ finalAtomPositions i2 with
                       | Some p1, Some pCenter, Some p2 =>
                           drawAngleVisualization p1 pCenter p2
                             (angle angleInfo) g
                       | _, _, _ => g
                       end
                   | _ => g
                   end)
                group angles
          | None => group
          end
      | _ => group
      end
  | None => group
  end.

(** *** Selection *)

(** Highlighting the direct children that are meshes of face [f]. *)
Definition highlightFace (id : nat) (root : Object3D) (f : nat)
    (st : State) : State :=
  foldl (fun st kc =>
           if isMesh kc.2 && bool_decide (faceIdOf kc.2 = Some f)
           then highlight (id, [kc.1]) st
           else st)
        st (imap pair (childrenOf root)).

(** [group.traverse(child => if (child instanceof Mesh) ...)] for the
    group found at path [q] of the model. *)
Definition highlightMeshesUnder (id : nat) (q : list nat)
    (group : Object3D) (st : State) : State :=
  foldl (fun st pc =>
           if isMesh pc.2 then highlight (id, q ++ pc.1) st else st)
        st (traverse group).

Definition handleHighlight (p : list nat) (st : State) : State :=
  let st := set_angleVisualizationGroup [] st in
  match generatedObject st with
  | None => st
  | Some (id, root) =>
      match nodeAt root p with
      | Some (Mesh ud _ _ _) =>
          match currentMode st with
          | Some geometry =>
              match faceId ud with
              | None => st
              | Some f =>
                  let st :=
                    match details ud with
                    | Some d =>
                        set_currentSelectionDetails
                          (Some (geometry_face f d))
                          (displaySelectionDetails (Some d) st)
                    | None => st
                    end in
                  highlightFace id root f st
              end
          | Some chemistry =>
              match findBondGroup root p with
              | Some q =>
                  match nodeAt root q with
                  | Some bondGroup =>
                      let st :=
                        match details (userDataOf bondGroup) with
                        | Some (OfBond b) =>
                            set_currentSelectionDetails
                              (Some (chemistry_bond (startAtomIndex b)
                                       (endAtomIndex b) (OfBond b)))
                              (displaySelectionDetails
                                 (Some (OfBond b)) st)
                        | _ => st
                        end in
                      highlightMeshesUnder id q bondGroup st
                  | None => st
                  end
              | None =>
                  match details ud with
                  | Some (OfAtom a) =>
                      if truthy (ad_element a) then
                        let st :=
                          set_currentSelectionDetails
                            (Some (chemistry_atom (atomIndex a) (OfAtom a)))
                            (displaySelectionDetails
                               (Some (OfAtom a)) st) in
                        let st := highlight (id, p) st in
                        set_angleVisualizationGroup
                          (drawAngles root (OfAtom a)
                             (angleVisualizationGroup st))
                          st
                      else st
                  | _ => st
                  end
              end
          | None => st
          end
      | _ => st
      end
  end.

(** [hit] is the path of [intersects[0].object] in the model, [None]
    when the ray meets nothing. *)
Definition onCanvasClick (hit : option (list nat)) (st : State) : State :=
  let st := clearSelection st in
  match generatedObject st with
  | None => st
  | Some _ =>
      match hit with
      | Some p => handleHighlight p st
      | None => st
      end
  end.

Definition reHighlightSelection (selectionContext : SelectionData)
    (st : State) : State :=
  match generatedObject st with
  | None => st
  | Some (id, root) =>
      let st := clearSelection st in
      let st := set_currentSelectionDetails (Some selectionContext) st in
      let st :=
        displaySelectionDetails (Some (detailsOf selectionContext)) st in
      match selectionContext with
      | geometry_face f _ => highlightFace id root f st
      | chemistry_atom i d =>
          foldl
            (fun st pc =>
               match pc.2 with
               | Mesh ud _ _ _ =>
                   match details ud with
                   | Some (OfAtom a) =>
                       if bool_decide (atomIndex a = i) then
                         let st := highlight (id, pc.1) st in
                         set_angleVisualizationGroup
                           (drawAngles root d (angleVisualizationGroup st))
                           st
                       else st
                   | _ => st
                   end
               | _ => st
               end)
            st (traverse root)
      | chemistry_bond s e _ =>
          foldl
            (fun st pc =>
               match pc.2 with
               | Group ud _ _ _ =>
                   match details ud with
                   | Some (OfBond b) =>
                       if bool_decide (startAtomIndex b = s)
                          && bool_decide (endAtomIndex b = e)
                       then highlightMeshesUnder id pc.1 pc.2 st
                       else st
                   | _ => st
                   end
               | _ => st
               end)
            st (traverse root)
      end
  end.

(** *** Replacing the active model *)

(** The colours of the materials created while a model is built. *)
Definition meshColors (id : nat) (root : Object3D)
    : list (nat * list nat * Z) :=
  omap (fun pc =>
          match pc.2 with
          | Mesh _ _ c _ => Some ((id, pc.1), c)
          | _ => None
          end)
       (traverse root).

(** The statements that centre a built model, add it to the scene and
    make it the active one, as they stand in [handleGenerateClick] and
    in [loadSessionState]. *)
Definition addToScene (resultObject : Object3D) (st : State) : State :=
  let box := setFromObject resultObject in
  let center := getCenter box in
  let resultObject := recentre center resultObject in
  let id := nextObjectId st in
  set_materialColor
    (list_to_map (meshColors id resultObject) ∪ materialColor st)
    (set_model (Some (id, resultObject)) (sceneModels st ++ [id]) (S id) st).

(** [if (generatedObject) { scene.remove(generatedObject);
    generatedObject = null; }] *)
Definition removeGeneratedObject (st : State) : State :=
  match generatedObject st with
  | Some (id, _) =>
      set_model None (List.filter (fun i => negb (i =? id)%nat)
                                  (sceneModels st))
                (nextObjectId st) st
  | None => st
  end.

Definition isModelValid (o : Object3D) : bool :=
  match o with
  | Mesh _ _ _ _ => true
  | Group _ _ _ ch => (0 <? List.length ch)%nat
  | Sprite _ _ _ => false
  end.

(** What the request to the inference service comes back with: an error
    raised before any model is built (rejected request, empty text, text
    that does not parse), or a parsed document. *)
Inductive Response : Type :=
  | Failed (message : string)
  | Document (data : ModelData).

Definition buildFor (mode : option Mode) (data : ModelData)
    : result Object3D :=
  match mode with
  | Some geometry => buildGeometryModel data
  | _ => buildChemistryModel data
  end.

Definition handleGenerateClick (response : Response) (st : State)
    : State :=
  if negb (selectedImage st) || negb (bool_decide (is_Some (currentMode st)))
  then
    showError
      "An error occurred. Please select a mode and upload an image." st
  else
    let st := set_selectionDetails true (selectionDetailsContent st) st in
    let st := clearError st in
    let st := removeGeneratedObject st in
    let st := set_currentSelectionDetails None st in
    let st := set_angleVisualizationGroup [] st in
    let st := set_selectionDetails true None st in
    match response with
    | Failed message => showError message st
    | Document data =>
        match buildFor (currentMode st) data with
        | Throw e => showError (message e) st
        | Ok resultObject =>
            if isModelValid resultObject then addToScene resultObject st
            else
              showError "Generated JSON did not produce a valid 3D model."
                        st
        end
    end.

Definition resetApp (st : State) : State :=
  let st := set_currentMode None st in
  let st := set_selectedImage false st in
  let st := set_currentSelectionDetails None st in
  let st := set_selectionDetails true None st in
  let st := clearError st in
  let st := removeGeneratedObject st in
  let st := clearHighlights st in
  set_angleVisualizationGroup [] st.

(** A saved session: the mode and the stored document, [None] when the
    stored text does not parse. *)
Record Session : Type := {
  session_mode : Mode;
  session_modelData : option ModelData
}.

Definition loadSessionState (session : Session) (st : State) : State :=
  let st := resetApp st in
  let st := set_currentMode (Some (session_mode session)) st in
  let st := set_selectedImage true st in
  match session_modelData session with
  | None =>
      resetApp
        (showError "Failed to load the 3D model from saved data." st)
  | Some data =>
      match buildFor (Some (session_mode session)) data with
      | Throw _ =>
          resetApp
            (showError "Failed to load the 3D model from saved data." st)
      | Ok resultObject => addToScene resultObject st
      end
  end.

End Engine.

(** ** Valid triangles, as the description of the data model words them *)

(** A vertex the renderer can use: an array of exactly three finite
    numbers. *)
Definition finiteVertex (v : Vertex) : Prop :=
  exists a b c : R, v = Some [Finite a; Finite b; Finite c].

(** An index resolves when it names an existing entry of the vertex list
    and that entry is a usable vertex. *)
Definition resolves (allVertices : list Vertex) (i : Z) : Prop :=
  exists v, (0 <= i)%Z /\ allVertices !! Z.to_nat i = Some v /\ finiteVertex v.

(** A valid triangle has exactly three indices, each of which resolves. *)
Definition validTriangle (allVertices : list Vertex) (t : TriangleData) : Prop :=
  exists i j k, indices t = Some [i; j; k]
    /\ resolves allVertices i /\ resolves allVertices j
    /\ resolves allVertices k.

(** A defective triangle: its indices are not an array of length three, or
    one of them references a missing or non-finite vertex. *)
Definition defectiveTriangle (allVertices : list Vertex) (t : TriangleData)
    : Prop :=
  (forall l, indices t = Some l -> List.length l <> 3%nat)
  \/ (exists l i, indices t = Some l /\ i ∈ l /\ ~ resolves allVertices i).

Definition finiteVertexb (v : Vertex) : bool :=
  match v with
  | Some [Finite _; Finite _; Finite _] => true
  | _ => false
  end.

Definition resolvesb (allVertices : list Vertex) (i : Z) : bool :=
  match lookupZ allVertices i with
  | Some v => finiteVertexb v
  | None => false
  end.

Definition validTriangleb (allVertices : list Vertex) (t : TriangleData)
    : bool :=
  match indices t with
  | Some [i; j; k] =>
      resolvesb allVertices i && resolvesb allVertices j
      && resolvesb allVertices k
  | _ => false
  end.

(** Number of valid triangles of one face group, and of all of them. *)
Definition validIn (allVertices : list Vertex) (faceGroup : FaceGroup) : nat :=
  List.length
    (List.filter (validTriangleb allVertices) (default [] (triangles faceGroup))).

Definition validTriangleCount (allVertices : list Vertex)
    (faceGroups : list FaceGroup) : nat :=
  sum_list (map (validIn allVertices) faceGroups).

Definition totalTriangles (faceGroups : list FaceGroup) : nat :=
  sum_list (map (fun fg => List.length (default [] (triangles fg))) faceGroups).

(** The pickable triangle primitives of a built solid, and those of a build
    attempt (none when it throws). *)
Definition trianglePrimitives (g : Object3D) : list Object3D :=
  List.filter isMesh (childrenOf g).

Definition primitivesOf (r : result Object3D) : list Object3D :=
  match r with
  | Ok g => trianglePrimitives g
  | Throw _ => []
  end.



(** The mesh [buildTriangle] makes for a triangle it keeps. *)
Definition faceMesh (vs : list Vertex) (fg : FaceGroup) (faceIndex : nat)
    (t : TriangleData) : Object3D :=
  Mesh {| details := OfFace <$> face_details fg;
          faceId := Some faceIndex;
          atomPositions := None |}
       (BufferGeometry
          (flat (map (lookupZ vs) (default [] (indices t)))))
       baseFaceColor Vector3.zero.

(** The meshes kept for a list of face groups numbered from [k] on. *)
Definition keptMeshes (vs : list Vertex) (k : nat) (fs : list FaceGroup)
    : list Object3D :=
  concat
    (imap (fun i fg =>
             map (faceMesh vs fg (k + i))
                 (List.filter (validTriangleb vs) (default [] (triangles fg))))
          fs).

(** ** Bonds: cylinders and their offsets *)

(** The cylinder meshes of a bond group: the child of each of its cylinder
    groups. *)
Definition bondCylinderMeshes (bondGroup : Object3D) : list Object3D :=
  concat (map childrenOf (childrenOf bondGroup)).

(** Distance of the centre of a cylinder from the axis of its cylinder
    group.  The group is rotated so that its Y axis lies along the bond,
    and the cylinder geometry runs along that axis, so this is the
    distance of the cylinder from the bond axis. *)
Definition lateralDistance (o : Object3D) : R :=
  let p := positionOf o in
  sqrt (Vector3.x p * Vector3.x p + Vector3.z p * Vector3.z p).

(** The number of cylinders a bond type asks for. *)
Definition cylinderCount (bondType : string) : nat :=
  if String.eqb (toLowerCase bondType) "double" then 2
  else if String.eqb (toLowerCase bondType) "triple" then 3
  else 1.

(** ** Sample inputs *)

(** A canvas whose text is 45 units wide per character. *)
Definition sampleContext : option (string -> R) :=
  Some (fun text => 45 * INR (String.length text)).

Definition carbonAt (p : Vector3.t) : AtomData :=
  {| element := "C"; atom_position := Some p;
     vseprShape := "Linear"; bondAngles := None |}.

Definition doubleBond01 : BondData :=
  {| start := 0; end_ := 1; type := "double"; energy := "614 kJ/mol" |}.

(** Two atoms given the same coordinates. *)
Definition coincidentAtoms : list AtomData :=
  [carbonAt (vec3 1 1 1); carbonAt (vec3 1 1 1)].

(** Two atoms one unit apart along the X axis. *)
Definition apartAtoms : list AtomData :=
  [carbonAt (vec3 0 0 0); carbonAt (vec3 1 0 0)].

(** ** Labels: the group that is measured and the scales of its sprites *)

(** The scales of the label sprites of an object, in traversal order. *)
Definition spriteScales (o : Object3D) : list Vector3.t :=
  omap (fun pc => match pc.2 with Sprite _ _ sc => Some sc | _ => None end)
       (traverse o).

(** The group as [buildGeometryModel] has assembled it when it measures
    the model: the kept meshes, then the label sprites as created. *)
Definition geometryGroup (ctx : option (string -> R)) (data : ModelData)
    : Object3D :=
  Group noUserData Vector3.zero Identity
        (omap built
              (concat (imap (buildFace (default [] (vertices data)))
                            (default [] (faces data))))
         ++ match labels data with
            | Some ls => omap (buildLabel ctx) ls
            | None => []
            end).

(** The group as [buildChemistryModel] has assembled it when it measures
    the model: the atom groups, then the bond groups. *)
Definition chemistryGroup (ctx : option (string -> R)) (data : ModelData)
    : Object3D :=
  let atomList := default [] (atoms data) in
  Group {| details := None; faceId := None;
           atomPositions := Some (map scaledPosition atomList) |}
        Vector3.zero Identity
        (imap (buildAtom ctx) atomList
         ++ match bonds data with
            | Some bs =>
                omap (buildBond atomList (map scaledPosition atomList)) bs
            | None => []
            end).

Definition assembled (ctx : option (string -> R)) (mode : Mode)
    (data : ModelData) : Object3D :=
  match mode with
  | geometry => geometryGroup ctx data
  | chemistry => chemistryGroup ctx data
  end.

(** The constant by which the largest side is divided. *)
Definition labelDivisor (mode : Mode) : R :=
  match mode with
  | geometry => 15
  | chemistry => 30
  end.

(** The diagonal of a box. *)
Definition diagonal (b : Box3) : R := Vector3.length (getSize b).

(** *** A bounding box for flat samples *)

Fixpoint triples (cs : list Coord) : list Vector3.t :=
  match cs with
  | Finite a :: Finite b :: Finite c :: rest => vec3 a b c :: triples rest
  | _ => []
  end.

(** The points that span the box of an object made of untransformed
    triangle meshes and of sprites at finite positions: the corners of the
    triangles, and two opposite corners of the unit quad of each sprite,
    scaled and moved to the sprite's position. *)
Fixpoint cornerPoints (o : Object3D) : list Vector3.t :=
  match o with
  | Mesh _ (BufferGeometry cs) _ _ => triples cs
  | Mesh _ _ _ _ => []
  | Sprite _ (Finite a, Finite b, Finite c) sc =>
      [vec3 (a - 0.5 * Vector3.x sc) (b - 0.5 * Vector3.y sc) c;
       vec3 (a + 0.5 * Vector3.x sc) (b + 0.5 * Vector3.y sc) c]
  | Sprite _ _ _ => []
  | Group _ _ _ ch => concat (map cornerPoints ch)
  end.

Definition expandByPoint (b : Box3) (p : Vector3.t) : Box3 :=
  {| box_min := vec3 (Rmin (Vector3.x (box_min b)) (Vector3.x p))
                     (Rmin (Vector3.y (box_min b)) (Vector3.y p))
                     (Rmin (Vector3.z (box_min b)) (Vector3.z p));
     box_max := vec3 (Rmax (Vector3.x (box_max b)) (Vector3.x p))
                     (Rmax (Vector3.y (box_max b)) (Vector3.y p))
                     (Rmax (Vector3.z (box_max b)) (Vector3.z p)) |}.

(** The box of the corner points; without any point, an empty box. *)
Definition cornerBox (o : Object3D) : Box3 :=
  match cornerPoints o with
  | [] => {| box_min := vec3 1 1 1; box_max := vec3 0 0 0 |}
  | p :: ps => foldl expandByPoint {| box_min := p; box_max := p |} ps
  end.

Definition triangle012 : TriangleData := {| indices := Some [0; 1; 2]%Z |}.

Definition faceOf (ts : list TriangleData) : FaceGroup :=
  {| face_details := Some {| surfaceArea := "6"; perimeter := "12" |};
     triangles := Some ts |}.

(** A triangle with corners (0,0,0), (3,0,0), (0,4,0) and a label inside
    its box: the box is 3 by 4 by 0. *)
Definition solidA : ModelData :=
  {| vertices := Some [Some [Finite 0; Finite 0; Finite 0];
                       Some [Finite 3; Finite 0; Finite 0];
                       Some [Finite 0; Finite 4; Finite 0]];
     faces := Some [faceOf [triangle012]];
     labels := Some [{| label_text := "ab";
                        label_position :=
                          Some [Finite 1.5; Finite 2; Finite 0] |}];
     atoms := None; bonds := None |}.

(** A triangle with corners (0,0,0), (4,3,0), (0,0,12) and a label inside
    its box: the box is 4 by 3 by 12. *)
Definition solidB : ModelData :=
  {| vertices := Some [Some [Finite 0; Finite 0; Finite 0];
                       Some [Finite 4; Finite 3; Finite 0];
                       Some [Finite 0; Finite 0; Finite 12]];
     faces := Some [faceOf [triangle012]];
     labels := Some [{| label_text := "ab";
                        label_position :=
                          Some [Finite 2; Finite 1.5; Finite 6] |}];
     atoms := None; bonds := None |}.

(** Four corners of a tetrahedron. *)
Definition tetraVertices : list Vertex :=
  [Some [Finite 0; Finite 0; Finite 0];
   Some [Finite 1; Finite 0; Finite 0];
   Some [Finite 0; Finite 1; Finite 0];
   Some [Finite 0; Finite 0; Finite 1]].

Definition triangle013 : TriangleData := {| indices := Some [0; 1; 3]%Z |}.
Definition triangle023 : TriangleData := {| indices := Some [0; 2; 3]%Z |}.

(** A triangle that references vertex 99. *)
Definition triangle0_1_99 : TriangleData :=
  {| indices := Some [0; 1; 99]%Z |}.

(** Three face groups with 9 valid triangles and 1 defective one. *)
Definition nineAndOne : ModelData :=
  {| vertices := Some tetraVertices;
     faces := Some [faceOf [triangle012; triangle013; triangle0_1_99;
                            triangle023];
                    faceOf [triangle012; triangle013; triangle023];
                    faceOf [triangle012; triangle013; triangle023]];
     labels := None; atoms := None; bonds := None |}.

(** A solid whose only triangle is defective. *)
Definition allDefective : ModelData :=
  {| vertices := Some tetraVertices;
     faces := Some [faceOf [triangle0_1_99]];
     labels := None; atoms := None; bonds := None |}.

(** A user who has chosen the geometry mode and an image. *)
Definition readyForGeometry : State :=
  set_selectedImage true (set_currentMode (Some geometry) initialState).

(** ** Selection: operations, resolved primitives, entities *)

(** A select operation: a click whose ray hits the object at a path (or
    nothing), or the restoring of a stored selection. *)
Inductive SelectOp : Type :=
  | Pick (hit : option (list nat))
  | Restore (selectionContext : SelectionData).

Definition select (ctx : option (string -> R)) (op : SelectOp) (st : State)
    : State :=
  match op with
  | Pick hit => onCanvasClick ctx hit st
  | Restore c => reHighlightSelection ctx c st
  end.

(** The primitives an operation resolves to, by path and in the order in
    which they are met. *)

(** The meshes among the children of the root that carry face [f]. *)
Definition faceTargets (root : Object3D) (f : nat) : list (list nat) :=
  omap (fun kc =>
          if isMesh kc.2 && bool_decide (faceIdOf kc.2 = Some f)
          then Some [kc.1] else None)
       (imap pair (childrenOf root)).

(** The meshes at or below the object found at [q]. *)
Definition subtreeTargets (q : list nat) (group : Object3D)
    : list (list nat) :=
  map (app q) (meshPaths group).

Definition isAtomMesh (i : nat) (o : Object3D) : bool :=
  match o with
  | Mesh ud _ _ _ =>
      match details ud with
      | Some (OfAtom a) => bool_decide (atomIndex a = i)
      | _ => false
      end
  | _ => false
  end.

(** The meshes tagged with atom index [i]. *)
Definition atomTargets (root : Object3D) (i : nat) : list (list nat) :=
  omap (fun pc => if isAtomMesh i pc.2 then Some pc.1 else None)
       (traverse root).

Definition isBondGroup (s e : Z) (o : Object3D) : bool :=
  match o with
  | Group ud _ _ _ =>
      match details ud with
      | Some (OfBond b) =>
          bool_decide (startAtomIndex b = s)
          && bool_decide (endAtomIndex b = e)
      | _ => false
      end
  | _ => false
  end.

(** The meshes below the groups tagged with the atom pair [(s, e)]. *)
Definition bondTargets (root : Object3D) (s e : Z) : list (list nat) :=
  concat
    (omap (fun pc =>
             if isBondGroup s e pc.2
             then Some (subtreeTargets pc.1 pc.2) else None)
          (traverse root)).

(** What a click on the object at path [p] resolves to. *)
Definition pickTargets (mode : option Mode) (root : Object3D)
    (p : list nat) : list (list nat) :=
  match nodeAt root p with
  | Some (Mesh ud _ _ _) =>
      match mode with
      | Some geometry =>
          match faceId ud with
          | Some f => faceTargets root f
          | None => []
          end
      | Some chemistry =>
          match findBondGroup root p with
          | Some q =>
              match nodeAt root q with
              | Some bondGroup => subtreeTargets q bondGroup
              | None => []
              end
          | None =>
              match details ud with
              | Some (OfAtom a) => if truthy (ad_element a) then [p] else []
              | _ => []
              end
          end
      | None => []
      end
  | _ => []
  end.

Definition resolved (mode : option Mode) (root : Object3D) (op : SelectOp)
    : list (list nat) :=
  match op with
  | Pick (Some p) => pickTargets mode root p
  | Pick None => []
  | Restore (geometry_face f _) => faceTargets root f
  | Restore (chemistry_atom i _) => atomTargets root i
  | Restore (chemistry_bond s e _) => bondTargets root s e
  end.

(** A logical entity, named by its kind and its stable id: a face group by
    its index, an atom by its index, a bond by its pair of atom
    indices. *)
Inductive Entity : Type :=
  | FaceEntity (face : nat)
  | AtomEntity (atom : nat)
  | BondEntity (first second : Z).

Definition bondTag (o : Object3D) : option Entity :=
  match details (userDataOf o) with
  | Some (OfBond b) => Some (BondEntity (startAtomIndex b) (endAtomIndex b))
  | _ => None
  end.

(** The entity a mesh belongs to: the face named by its own [faceId], the
    atom named by its own details, or the bond named by the details of
    its nearest tagged ancestor. *)
Definition entityOf (root : Object3D) (p : list nat) : option Entity :=
  match nodeAt root p with
  | Some (Mesh ud _ _ _) =>
      match faceId ud with
      | Some f => Some (FaceEntity f)
      | None =>
          match details ud with
          | Some (OfAtom a) => Some (AtomEntity (atomIndex a))
          | _ =>
              q ← List.find
                    (fun q => bool_decide (is_Some (nodeAt root q ≫= bondTag)))
                    (selfAndAncestors p);
              nodeAt root q ≫= bondTag
          end
      end
  | _ => None
  end.

(** The colour the material of the mesh at [p] was created with. *)
Definition builtColor (root : Object3D) (p : list nat) : option Z :=
  match nodeAt root p with
  | Some (Mesh _ _ c _) => Some c
  | _ => None
  end.

(** *** The shape of a built scene *)

Definition tagged (d : option Details) : UserData :=
  {| details := d; faceId := None; atomPositions := None |}.

(** A triangle mesh of a solid, or a label. *)
Inductive solidChild : Object3D -> Prop :=
  | SolidMesh d f g c p :
      solidChild (Mesh {| details := OfFace <$> d; faceId := Some f;
                          atomPositions := None |} g c p)
  | SolidLabel t p sc : solidChild (Sprite t p sc).

(** The group of atom [k]: its sphere first, then its labels. *)
Inductive atomGroup (k : nat) : Object3D -> Prop :=
  | AtomGroup pos q a g c p labels :
      atomIndex a = k ->
      Forall (fun o => isSprite o = true) labels ->
      atomGroup k (Group noUserData pos q
                         (Mesh (tagged (Some (OfAtom a))) g c p :: labels)).

Inductive cylinderGroup : Object3D -> Prop :=
  | CylinderGroup pos q g c p :
      cylinderGroup (Group noUserData pos q [Mesh noUserData g c p]).

Inductive bondGroup : Object3D -> Prop :=
  | BondGroup b pos q cylinders :
      Forall cylinderGroup cylinders ->
      bondGroup (Group (tagged (Some (OfBond b))) pos q cylinders).

Inductive sceneShape : Mode -> Object3D -> Prop :=
  | SolidShape ud pos q children :
      details ud = None -> faceId ud = None ->
      Forall solidChild children ->
      sceneShape geometry (Group ud pos q children)
  | MoleculeShape ud pos q atomGroups bondGroups :
      details ud = None -> faceId ud = None ->
      (forall k c, atomGroups !! k = Some c -> atomGroup k c) ->
      Forall bondGroup bondGroups ->
      sceneShape chemistry (Group ud pos q (atomGroups ++ bondGroups)).

(** The highlight bookkeeping is consistent with the active model [root]
    of identity [id]: the model has the shape its mode builds; every
    recorded colour of one of its meshes is the colour that mesh was built
    with; every mesh shows the highlight colour when it is recorded and
    its built colour otherwise; and all recorded meshes belong to one
    entity. *)
Record consistent (st : State) (id : nat) (root : Object3D) : Prop := {
  active : generatedObject st = Some (id, root);
  shaped : exists mode, currentMode st = Some mode /\ sceneShape mode root;
  recorded :
    forall p c, ((id, p), c) ∈ highlightedObjects st ->
                builtColor root p = Some c;
  coloured :
    forall p c, builtColor root p = Some c ->
      materialColor st !! (id, p)
      = Some (if decide ((id, p) ∈ (highlightedObjects st).*1)
              then HIGHLIGHT else c);
  oneEntity :
    exists e, forall p, (id, p) ∈ (highlightedObjects st).*1 ->
                        entityOf root p = Some e
}.

(** Highlighting a list of meshes of the model [id], one after the
    other. *)
Definition highlightAll (id : nat) (ps : list (list nat)) (st : State)
    : State :=
  foldl (fun st p => highlight (id, p) st) st ps.

(** The children loop of [traverse], child numbers starting at [i]. *)
Definition traverseFrom (i : nat) (l : list Object3D)
    : list (list nat * Object3D) :=
  concat (imap (fun k c => map (fun q => ((i + k)%nat :: q.1, q.2))
                               (traverse c)) l).

(** Two states that agree on the active model, the mode, the colours and
    the highlight list. *)
Definition sameCore (s s' : State) : Prop :=
  generatedObject s = generatedObject s'
  /\ currentMode s = currentMode s'
  /\ materialColor s = materialColor s'
  /\ highlightedObjects s = highlightedObjects s'.

(** The objects of a molecule: the root; for every atom a group, its
    sphere and its labels; for every bond a tagged group, its cylinder
    groups and their cylinders. *)
Inductive moleculeNode (root : Object3D) : list nat -> Object3D -> Prop :=
  | MoleculeRoot :
      details (userDataOf root) = None -> faceId (userDataOf root) = None ->
      moleculeNode root [] root
  | AtomGroupNode k grp :
      atomGroup k grp -> moleculeNode root [k] grp
  | AtomMeshNode k a g c p :
      atomIndex a = k ->
      nodeAt root [k] <> None ->
      (forall grp, nodeAt root [k] = Some grp -> userDataOf grp = noUserData) ->
      moleculeNode root [k; 0%nat] (Mesh (tagged (Some (OfAtom a))) g c p)
  | AtomLabelNode k j t p sc :
      moleculeNode root [k; S j] (Sprite t p sc)
  | BondGroupNode k grp :
      bondGroup grp -> moleculeNode root [k] grp
  | CylinderGroupNode k j grp :
      cylinderGroup grp -> moleculeNode root [k; j] grp
  | CylinderNode k j b grp g c p :
      nodeAt root [k] = Some grp -> bondGroup grp ->
      userDataOf grp = tagged (Some (OfBond b)) ->
      (forall cg, nodeAt root [k; j] = Some cg -> userDataOf cg = noUserData) ->
      nodeAt root [k; j] <> None ->
      moleculeNode root [k; j; 0%nat] (Mesh noUserData g c p).

(** The state a generation attempt hands to the builder. *)
Definition afterReset (st : State) : State :=
  set_selectionDetails true None
    (set_angleVisualizationGroup []
       (set_currentSelectionDetails None
          (removeGeneratedObject
             (clearError
                (set_selectionDetails true
                   (selectionDetailsContent st) st))))).

(** A duplicate-free list of meshes of one entity. *)
Definition oneEntityList (root : Object3D) (ts : list (list nat)) : Prop :=
  NoDup ts
  /\ (forall p, p ∈ ts -> is_Some (builtColor root p))
  /\ exists e, forall p, p ∈ ts -> entityOf root p = Some e.

(** Two states that show the same selection: the stored selection and the
    details panel. *)
Definition sameSelection (s s' : State) : Prop :=
  currentSelectionDetails s = currentSelectionDetails s'
  /\ selectionDetailsHidden s = selectionDetailsHidden s'
  /\ selectionDetailsContent s = selectionDetailsContent s'.

(** The details [createAtom] attaches to the sphere of atom [index]. *)
Definition atomDetails (atomData : AtomData) (index : nat) : AtomDetails :=
  {| ad_element := element atomData;
     ad_bondAngles := bondAngles atomData;
     ad_vseprShape := vseprShape atomData;
     atomIndex := index |}.

(** No recorded highlight refers to the object that is created next. *)
Definition freshHighlights (st : State) : Prop :=
  forall p, (nextObjectId st, p) ∉ (highlightedObjects st).*1.

(** Two carbon atoms joined by a double bond. *)
Definition ethene : ModelData :=
  {| vertices := None; faces := None; labels := None;
     atoms := Some apartAtoms; bonds := Some [doubleBond01] |}.

(** A saved session that holds the document [data]. *)
Definition sessionOf (mode : Mode) (data : ModelData) : Session :=
  {| session_mode := mode; session_modelData := Some data |}.

(** Two states with the same scene: the active model, the models in the
    scene, the numbering of objects, the mode, the image and the error
    line. *)
Definition sameModel (s s' : State) : Prop :=
  generatedObject s = generatedObject s'
  /\ sceneModels s = sceneModels s'
  /\ nextObjectId s = nextObjectId s'
  /\ currentMode s = currentMode s'
  /\ selectedImage s = selectedImage s'
  /\ errorMessage s = errorMessage s'.

(** ** Molecules: which bonds are drawn, and how atoms look *)

(** The test [buildChemistryModel] makes before it draws a bond of a
    molecule with [n] atoms. *)
Definition inRange (n : nat) (bond : BondData) : bool :=
  ((0 <=? start bond)%Z && (start bond <? Z.of_nat n)%Z
   && (0 <=? end_ bond)%Z && (end_ bond <? Z.of_nat n)%Z)%bool.

(** The group drawn for a bond between two atoms of [atomList]: made by
    [createBond] from the scaled positions of its ends and named after
    their elements. *)
Definition bondGroupOf (atomList : list AtomData) (bond : BondData)
    : Object3D :=
  let positions := map scaledPosition atomList in
  createBond bond
    (default Vector3.zero (lookupZ positions (start bond)))
    (default Vector3.zero (lookupZ positions (end_ bond)))
    (default "" (element <$> lookupZ atomList (start bond)) ++ "-"
     ++ default "" (element <$> lookupZ atomList (end_ bond))).

(** The geometry and the colour of the sphere of an atom group. *)
Definition sphereOf (atomGroup : Object3D) : option (Geometry * Z) :=
  match childrenOf atomGroup with
  | Mesh _ g c _ :: _ => Some (g, c)
  | _ => None
  end.

(** ** Solids: which labels are drawn *)

(** The test [buildGeometryModel] makes before it draws a label. *)
Definition usableLabel (ld : LabelData) : bool :=
  truthy (label_text ld) && bool_decide (is_Some (label_position ld)).

(** The text and the position of a label sprite. *)
Definition labelOf (o : Object3D) : option (string * Coord3) :=
  match o with
  | Sprite t p _ => Some (t, p)
  | _ => None
  end.

(** An atom of the description with its element symbol replaced. *)
Definition withElement (symbol : string) (atom : AtomData) : AtomData :=
  {| element := symbol; atom_position := atom_position atom;
     vseprShape := vseprShape atom; bondAngles := bondAngles atom |}.

(** ** Angle entries that cannot be drawn *)

(** An entry of [bondAngles] that the overlay passes over in a molecule
    with [n] atom positions: its indices are not a list of three, or one
    of them is not the index of an atom. *)
Definition undrawable (n : nat) (angleInfo : BondAngle) : Prop :=
  match atomsInvolvedIndices angleInfo with
  | Some [i0; i1; i2] =>
      Exists (fun i => (i < 0)%Z \/ (Z.of_nat n <= i)%Z) [i0; i1; i2]
  | _ => True
  end.

(** ** Events *)



(** Every highlight record, and the active model, belong to an object
    that has already been numbered. *)
Definition numbered (st : State) : Prop :=
  (forall r, r ∈ (highlightedObjects st).*1 -> (r.1 < nextObjectId st)%nat)
  /\ (forall id root, generatedObject st = Some (id, root) ->
                      (id < nextObjectId st)%nat).

(** The bookkeeping is in order: objects are numbered, and it is
    consistent with the active model if there is one. *)
Definition wellFormed (st : State) : Prop :=
  numbered st
  /\ (forall id root, generatedObject st = Some (id, root) ->
                      consistent st id root).

(** * Saved sessions and the question history

    The variables of the source that saving, loading and asking read or
    write are kept in a record of their own, [Documents.t]; the functions
    of the source are read here for what they do to these variables.
    What they do to the scene is in [State] above.

    Local storage is read as holding the list last written to it: the
    text [JSON.stringify] writes is taken to parse back to the same list,
    which holds for the strings, whole numbers and finite numbers a
    session is made of.  The two handlers that wait for a response
    ([handleGenerateClick], [handleAskQuestion]) are read without another
    handler running during the wait. *)

Module Image.
Record t : Type := mk { data : string; mimeType : string }.
End Image.

(** interface [QAPair] *)
Module QAPair.
Record t : Type := mk {
  question : string;
  answer : string;
  answerHtml : string;
  selectionContext : option SelectionData
}.
End QAPair.

(** interface [Session]: an entry of the list kept in local storage. *)
Module StoredSession.
Record t : Type := mk {
  id : Z;
  timestamp : Z;
  modelData : string;
  qaHistory : list QAPair.t;
  mode : Mode;
  previewImage : string;
  mimeType : string
}.
End StoredSession.

(** A turn of the history a chat is created with. *)
Inductive Role : Type := user | model.

Definition Turn : Type := Role * string.

(** [array.findIndex(test)], [None] standing for -1. *)
Fixpoint findIndex {A : Type} (test : A -> bool) (l : list A) : option nat :=
  match l with
  | [] => None
  | x :: l' => if test x then Some 0%nat else S <$> findIndex test l'
  end.

(** [sessions.sort((a, b) => b.timestamp - a.timestamp)]: the sort of the
    engine is stable, so the result is the one list that is ordered by
    decreasing timestamp and keeps entries of equal timestamp in the
    order they had; it is computed here by insertion. *)
Fixpoint insertByTimestamp (s : StoredSession.t) (l : list StoredSession.t)
    : list StoredSession.t :=
  match l with
  | [] => [s]
  | s' :: l' =>
      if (StoredSession.timestamp s' <=? StoredSession.timestamp s)%Z
      then s :: s' :: l'
      else s' :: insertByTimestamp s l'
  end.

Definition sortNewestFirst (l : list StoredSession.t) : list StoredSession.t :=
  foldr insertByTimestamp [] l.

Module Documents.

Record t : Type := mk {
  currentMode : option Mode;
  selectedImage : option Image.t;
  generatedModelData : option string;
  qaHistory : list QAPair.t;
  (** [chat]: the history the chat was created with, [None] for [null] *)
  chat : option (list Turn);
  currentSessionId : option Z;
  (** what [JSON.parse] makes of the text stored under [SESSIONS_KEY];
      [None] when nothing is stored or the text does not parse *)
  storage : option (list StoredSession.t);
  (** the text of the notification last shown *)
  notification : option string
}.

Section Functions.

(** [getChatPrompt]: the text of the prompt is of no concern here. *)
Variable getChatPrompt : string -> string.

(** [formatResponseTextToHtml] *)
Variable formatResponseTextToHtml : string -> string.

Definition getSavedSessions (w : t) : list StoredSession.t :=
  default [] (storage w).

Definition showNotification (message : string) (w : t) : t :=
  mk (currentMode w) (selectedImage w) (generatedModelData w) (qaHistory w)
     (chat w) (currentSessionId w) (storage w) (Some message).

(** Truthiness of [generatedModelData] and of [currentSessionId]. *)
Definition truthyText (s : option string) : bool :=
  match s with
  | Some text => truthy text
  | None => false
  end.

Definition truthyId (i : option Z) : bool :=
  match i with
  | Some n => negb (n =? 0)%Z
  | None => false
  end.

(** The two turns every chat starts with. *)
Definition openingTurns (modelData : string) : list Turn :=
  [(user, getChatPrompt modelData);
   (model, "Understood. I am ready to answer questions about the provided 3D model data.")].

(** [now1] and [now2] are what the two calls of [Date.now()] return. *)
Definition handleSaveSession (now1 now2 : Z) (w : t) : t :=
  match generatedModelData w, selectedImage w, currentMode w with
  | Some modelData, Some image, Some mode =>
      if negb (truthy modelData) then
        showNotification "Error: Cannot save session, model data is missing." w
      else
        let sessions := getSavedSessions w in
        let sessionToSave (id timestamp : Z) :=
          StoredSession.mk id timestamp modelData (qaHistory w) mode
                           (Image.data image) (Image.mimeType image) in
        let updated :=
          if truthyId (currentSessionId w) then
            let current := default 0%Z (currentSessionId w) in
            match findIndex (fun s => (StoredSession.id s =? current)%Z)
                            sessions with
            | Some sessionIndex =>
                Some (sortNewestFirst
                        (<[sessionIndex := sessionToSave current now1]>
                           sessions))
            | None => None
            end
          else None in
        match updated with
        | Some sessions' =>
            mk (currentMode w) (selectedImage w) (generatedModelData w)
               (qaHistory w) (chat w) (currentSessionId w) (Some sessions')
               (Some "Session updated successfully!")
        | None =>
            let newId := now2 in
            mk (currentMode w) (selectedImage w) (generatedModelData w)
               (qaHistory w) (chat w) (Some newId)
               (Some (sessionToSave newId newId :: sessions))
               (Some "Session saved successfully!")
        end
  | _, _, _ =>
      showNotification "Error: Cannot save session, model data is missing." w
  end.

Definition resetApp (w : t) : t :=
  mk None None None [] None None (storage w) (notification w).

(** The turns that replay a stored history: the pairs are stored newest
    first and replayed oldest first, each as a question and its answer. *)
Definition replayedTurns (history : list QAPair.t) : list Turn :=
  concat (map (fun entry => [(user, QAPair.question entry);
                            (model, QAPair.answer entry)])
              (reverse history)).

(** [builds] tells whether the stored document parses and its model
    builds. *)
Definition loadSessionState (builds : bool) (session : StoredSession.t)
    (w : t) : t :=
  let w := resetApp w in
  let w :=
    mk (Some (StoredSession.mode session))
       (Some (Image.mk (StoredSession.previewImage session)
                       (StoredSession.mimeType session)))
       (Some (StoredSession.modelData session))
       (StoredSession.qaHistory session)
       (Some (openingTurns (StoredSession.modelData session)
              ++ replayedTurns (StoredSession.qaHistory session)))
       (Some (StoredSession.id session))
       (storage w) (notification w) in
  if builds then w else resetApp w.

(** [rawResponseText] is the text of the response, [None] when the
    request fails; [blank] tells whether its [trim()] is empty. *)
Definition handleGenerateClick (rawResponseText : option string)
    (blank : bool) (w : t) : t :=
  match selectedImage w, currentMode w with
  | Some _, Some _ =>
      let w := mk (currentMode w) (selectedImage w) None [] None None
                  (storage w) (notification w) in
      match rawResponseText with
      | Some jsonString =>
          if negb (truthy jsonString) || blank then w
          else
            mk (currentMode w) (selectedImage w) (Some jsonString)
               (qaHistory w) (Some (openingTurns jsonString))
               (currentSessionId w) (storage w) (notification w)
      | None => w
      end
  | _, _ => w
  end.

(** [question] is [qaInput.value.trim()]; [reply] is the text of the
    answer, [None] when the request fails; [selection] is
    [currentSelectionDetails] when the answer arrives. *)
Definition handleAskQuestion (question : string) (reply : option string)
    (selection : option SelectionData) (w : t) : t :=
  if negb (truthy question) || negb (bool_decide (is_Some (chat w))) then w
  else
    let entry :=
      match reply with
      | Some answerText =>
          QAPair.mk question answerText (formatResponseTextToHtml answerText)
                    selection
      | None =>
          QAPair.mk question "Sorry, I was unable to answer that question."
                    "Sorry, I was unable to answer that question." None
      end in
    mk (currentMode w) (selectedImage w) (generatedModelData w)
       (entry :: qaHistory w) (chat w) (currentSessionId w) (storage w)
       (notification w).

End Functions.

End Documents.

(** The click handler [renderQaHistory] attaches to the question of the
    [i]-th pair of the history: pairs without a selection get none. *)
Definition questionClicked (ctx : option (string -> R)) (i : nat)
    (w : Documents.t) (st : State) : State :=
  match Documents.qaHistory w !! i with
  | Some entry =>
      match QAPair.selectionContext entry with
      | Some selectionContext => reHighlightSelection ctx selectionContext st
      | None => st
      end
  | None => st
  end.


(** The entry [handleSaveSession] writes for the documents [w]. *)
Definition sessionOfDocuments (id timestamp : Z) (w : Documents.t)
    : option StoredSession.t :=
  match Documents.generatedModelData w, Documents.selectedImage w,
        Documents.currentMode w with
  | Some modelData, Some image, Some mode =>
      Some (StoredSession.mk id timestamp modelData (Documents.qaHistory w)
                             mode (Image.data image) (Image.mimeType image))
  | _, _, _ => None
  end.

(** What [handleSaveSession] requires: a document, an image and a mode. *)
Definition canSave (w : Documents.t) : bool :=
  Documents.truthyText (Documents.generatedModelData w)
  && bool_decide (is_Some (Documents.selectedImage w))
  && bool_decide (is_Some (Documents.currentMode w)).

(** A question with its answer and the selection current when the answer
    arrived. *)
Definition Asked : Type := string * string * option SelectionData.

Definition ask (formatResponseTextToHtml : string -> string)
    (w : Documents.t) (a : Asked) : Documents.t :=
  Documents.handleAskQuestion formatResponseTextToHtml a.1.1 (Some a.1.2) a.2 w.

(** ** Sample documents *)

Definition sampleDocuments : Documents.t :=
  Documents.mk (Some chemistry) (Some (Image.mk "aGVsbG8=" "image/png"))
               (Some "{}") [] (Some []) None None None.

(** * The camera

    [camera.position], [controls.target] and [camera.fov] (in degrees).
    The controls move the camera they were created for, so
    [controls.object.position] is [camera.position]. *)

Module Camera.
Record t : Type := mk { position : Vector3.t; target : Vector3.t; fov : R }.
End Camera.


(** [Math.max(size.x, size.y, size.z)] *)
Definition maxDim (boundingBox : Box3) : R :=
  let size := getSize boundingBox in
  Rmax (Rmax (Vector3.x size) (Vector3.y size)) (Vector3.z size).




(** * Superscripts and subscripts

    The two tables of [formatMathString] and the functions [toSuper] and
    [toSub] that read them.  A string is here the list of its UTF-16 code
    units, which is what [split('')] cuts it into; every key and every
    value of the tables is one unit long.  The rows are in the order of
    the source: digits, small letters, capital letters (superscripts
    only), signs. *)

Definition superscripts : list (N * N) :=
  [(48, 8304); (49, 185); (50, 178); (51, 179); (52, 8308); (53, 8309);
    (54, 8310); (55, 8311); (56, 8312); (57, 8313);
   (97, 7491); (98, 7495); (99, 7580); (100, 7496); (101, 7497);
    (102, 7584); (103, 7501); (104, 688); (105, 8305); (106, 690);
   (107, 7503); (108, 737); (109, 7504); (110, 8319); (111, 7506);
    (112, 7510); (114, 691); (115, 738); (116, 7511); (117, 7512);
   (118, 7515); (119, 695); (120, 739); (121, 696); (122, 7611);
   (65, 7468); (66, 7470); (67, 7580); (68, 7472); (69, 7473); (70, 7584);
    (71, 7475); (72, 7476); (73, 7477); (74, 7478);
   (75, 7479); (76, 7480); (77, 7481); (78, 7482); (79, 7484); (80, 7486);
    (82, 7487); (84, 7488); (85, 7489); (86, 11389); (87, 7490);
   (88, 7521); (89, 696); (90, 7611);
   (43, 8314); (45, 8315); (61, 8316); (40, 8317); (41, 8318)]%N.

Definition subscripts : list (N * N) :=
  [(48, 8320); (49, 8321); (50, 8322); (51, 8323); (52, 8324); (53, 8325);
    (54, 8326); (55, 8327); (56, 8328); (57, 8329);
   (97, 8336); (101, 8337); (104, 8341); (105, 7522); (106, 11388);
    (107, 8342); (108, 8343); (109, 8344); (110, 8345); (111, 8338);
   (112, 8346); (114, 7523); (115, 8347); (116, 8348); (117, 7524);
    (118, 7525); (120, 8339);
   (43, 8330); (45, 8331); (61, 8332); (40, 8333); (41, 8334)]%N.

(** [table[key]], the key being a string: only a key of one unit can be
    found. *)
Definition lookupKey (table : list (N * N)) (key : list N) : option N :=
  match key with
  | [u] => snd <$> List.find (fun row => (row.1 =? u)%N) table
  | _ => None
  end.

Section Scripts.

(** [c.toLowerCase()] for a string [c] of one unit; the result may be
    longer than one unit. *)
Variable toLowerCase : N -> list N.

(** [chars.split('').map(c => superscripts[c.toLowerCase()] || c).join('')] *)
Definition toSuper (chars : list N) : list N :=
  map (fun c => default c (lookupKey superscripts (toLowerCase c))) chars.

(** [chars.split('').map(c => subscripts[c.toLowerCase()] || c).join('')] *)
Definition toSub (chars : list N) : list N :=
  map (fun c => default c (lookupKey subscripts (toLowerCase c))) chars.

End Scripts.

(** The capital letters A to Z. *)
Definition isCapital (u : N) : bool := (65 <=? u)%N && (u <=? 90)%N.

(** A table without the rows whose key is a capital letter. *)
Definition withoutCapitals (table : list (N * N)) : list (N * N) :=
  List.filter (fun row => negb (isCapital row.1)) table.

(** [toLowerCase] on the units below 128. *)
Definition asciiToLowerCase (c : N) : list N :=
  if isCapital c then [(c + 32)%N] else [c].

(** * Properties *)

Lemma Rltb_true a b : Rltb a b = true <-> a < b.
Proof. unfold Rltb; destruct (Rlt_dec a b); split; intros; try done. Qed.

Lemma Rltb_false a b : Rltb a b = false <-> b <= a.
Proof.
  unfold Rltb; destruct (Rlt_dec a b); split; intros; try done; lra.
Qed.

(** ** Solids: which triangles become primitives *)

Lemma finiteVertexb_spec v : finiteVertexb v = true <-> finiteVertex v.
Proof.
  split.
  - destruct v as [[|[a| |] [|[b| |] [|[c| |] [|? ?]]]]|]; simpl; try done.
    intros _. by exists a, b, c.
  - intros (a & b & c & ->). done.
Qed.

Lemma resolvesb_spec vs i : resolvesb vs i = true <-> resolves vs i.
Proof.
  unfold resolvesb, resolves, lookupZ. split.
  - destruct (0 <=? i)%Z eqn:Hi; [|done].
    destruct (vs !! Z.to_nat i) as [v|] eqn:Hv; [|done].
    intros Hf. apply Z.leb_le in Hi. exists v.
    split; [exact Hi|]. split; [reflexivity|]. apply finiteVertexb_spec, Hf.
  - intros (v & Hi & Hv & Hf).
    apply Z.leb_le in Hi. rewrite Hi, Hv. by apply finiteVertexb_spec.
Qed.

Lemma validTriangleb_spec vs t :
  validTriangleb vs t = true <-> validTriangle vs t.
Proof.
  unfold validTriangleb, validTriangle. split.
  - destruct (indices t) as [[|i [|j [|k [|? ?]]]]|]; try done.
    rewrite !andb_true_iff, !resolvesb_spec. intros [[? ?] ?].
    by exists i, j, k.
  - intros (i & j & k & -> & ? & ? & ?).
    rewrite !andb_true_iff, !resolvesb_spec. done.
Qed.

(** The two descriptions of a bad triangle agree: defective is the
    complement of valid. *)
Lemma defective_iff_not_valid vs t :
  defectiveTriangle vs t <-> ~ validTriangle vs t.
Proof.
  unfold defectiveTriangle, validTriangle. split.
  - intros [Hlen | (l & i & Hl & Hin & Hres)] (a & b & c & Hi & Ha & Hb & Hc).
    + by apply (Hlen _ Hi).
    + rewrite Hi in Hl. injection Hl as <-.
      set_unfold in Hin. destruct Hin as [-> | [-> | [-> | []]]]; done.
  - intros Hnv.
    destruct (indices t) as [l|] eqn:Hl; [|left; intros; done].
    destruct (decide (List.length l = 3%nat)) as [Hlen|Hlen];
      [|left; intros l' [= <-]; done].
    destruct l as [|i [|j [|k [|? ?]]]]; try done. right.
    destruct (resolvesb vs i) eqn:Hi;
      [|exists [i; j; k], i; split; [done|split; [set_solver|]];
        rewrite <- resolvesb_spec, Hi; done].
    destruct (resolvesb vs j) eqn:Hj;
      [|exists [i; j; k], j; split; [done|split; [set_solver|]];
        rewrite <- resolvesb_spec, Hj; done].
    destruct (resolvesb vs k) eqn:Hk;
      [|exists [i; j; k], k; split; [done|split; [set_solver|]];
        rewrite <- resolvesb_spec, Hk; done].
    exfalso. apply Hnv. exists i, j, k.
    rewrite <- !resolvesb_spec. done.
Qed.

Lemma invalidVertex_resolves vs i :
  invalidVertex (lookupZ vs i) = negb (resolvesb vs i).
Proof.
  unfold resolvesb. destruct (lookupZ vs i) as [v|]; [|done].
  destruct v as [[|[a| |] [|[b| |] [|[c| |] [|? ?]]]]|]; simpl; try done;
    rewrite ?orb_true_r; done.
Qed.

Lemma buildTriangle_built vs fg faceIndex t :
  built (buildTriangle vs fg faceIndex t)
  = if validTriangleb vs t then Some (faceMesh vs fg faceIndex t) else None.
Proof.
  unfold buildTriangle, validTriangleb, faceMesh.
  destruct (indices t) as [[|i [|j [|k [|? ?]]]]|]; try done.
  simpl. rewrite !invalidVertex_resolves.
  destruct (resolvesb vs i), (resolvesb vs j), (resolvesb vs k); done.
Qed.

Lemma buildTriangle_warned vs fg faceIndex t :
  is_Some (warned (buildTriangle vs fg faceIndex t))
  <-> validTriangleb vs t = false.
Proof.
  pose proof (buildTriangle_built vs fg faceIndex t) as H.
  destruct (buildTriangle vs fg faceIndex t) as [w|m]; simpl in *.
  - destruct (validTriangleb vs t); [done|]. split; eauto.
  - destruct (validTriangleb vs t); [|done]. split; [intros [? ?]|]; done.
Qed.

Lemma omap_concat {A B : Type} (f : A -> option B) (ls : list (list A)) :
  omap f (concat ls) = concat (map (omap f) ls).
Proof.
  induction ls as [|l ls IH]; [done|]. simpl. by rewrite omap_app, IH.
Qed.

Lemma omap_built_face vs faceIndex fg :
  omap built (buildFace vs faceIndex fg)
  = map (faceMesh vs fg faceIndex)
        (List.filter (validTriangleb vs) (default [] (triangles fg))).
Proof.
  unfold buildFace. destruct (triangles fg) as [ts|]; [|done]. simpl.
  induction ts as [|t ts IH]; [done|].
  simpl in *. rewrite buildTriangle_built.
  destruct (validTriangleb vs t); simpl; [f_equal|]; apply IH.
Qed.

Lemma keptMeshes_cons vs k fg fs :
  keptMeshes vs k (fg :: fs)
  = map (faceMesh vs fg k)
        (List.filter (validTriangleb vs) (default [] (triangles fg)))
    ++ keptMeshes vs (S k) fs.
Proof.
  unfold keptMeshes. cbn [imap concat]. rewrite Nat.add_0_r. f_equal. f_equal.
  apply imap_ext. intros i x _. simpl. by rewrite Nat.add_succ_r.
Qed.

Lemma omap_built_faces vs k fs :
  omap built (concat (imap (fun i => buildFace vs (k + i)) fs))
  = keptMeshes vs k fs.
Proof.
  revert k. induction fs as [|fg fs IH]; intros k; [done|].
  rewrite keptMeshes_cons. cbn [imap concat].
  rewrite omap_app, Nat.add_0_r, omap_built_face. f_equal.
  rewrite <- IH. f_equal. f_equal.
  apply imap_ext. intros i x _. simpl. by rewrite Nat.add_succ_r.
Qed.

Lemma keptMeshes_length vs k fs :
  List.length (keptMeshes vs k fs) = validTriangleCount vs fs.
Proof.
  revert k. induction fs as [|fg fs IH]; intros k; [done|].
  rewrite keptMeshes_cons, length_app, length_map, IH. done.
Qed.

Lemma keptMeshes_all_mesh vs k fs : Forall (fun o => isMesh o = true) (keptMeshes vs k fs).
Proof.
  revert k. induction fs as [|fg fs IH]; intros k; [constructor|].
  rewrite keptMeshes_cons. apply Forall_app. split; [|apply IH].
  apply Forall_map. by apply Forall_true.
Qed.

(** Where each kept mesh comes from. *)
Lemma keptMeshes_origin vs k fs m :
  m ∈ keptMeshes vs k fs ->
  exists i fg ts t,
    fs !! i = Some fg /\ triangles fg = Some ts /\ t ∈ ts
    /\ validTriangle vs t /\ m = faceMesh vs fg (k + i) t.
Proof.
  revert k. induction fs as [|fg fs IH]; intros k.
  - intros H. by apply elem_of_nil in H.
  - rewrite keptMeshes_cons, elem_of_app. intros [H|H].
    + apply list_elem_of_fmap in H as (t & -> & Ht).
      apply list_elem_of_In, filter_In in Ht as [Ht Hv].
      destruct (triangles fg) as [ts|] eqn:Hts; [|done]. simpl in Ht.
      exists 0%nat, fg, ts, t. rewrite Nat.add_0_r.
      repeat split; try done.
      * by apply list_elem_of_In.
      * by apply validTriangleb_spec.
    + apply IH in H as (i & fg' & ts & t & ? & ? & ? & ? & ->).
      exists (S i), fg', ts, t. rewrite Nat.add_succ_r. done.
Qed.

Lemma buildLabel_sprite ctx ld o :
  buildLabel ctx ld = Some o -> isMesh o = false.
Proof.
  unfold buildLabel, createLabelSprite.
  destruct (truthy _); [|done]. destruct (label_position ld); [|done].
  destruct ctx; [|done]. simpl. by intros [= <-].
Qed.

Lemma filter_isMesh_labels ctx ls :
  List.filter isMesh (omap (buildLabel ctx) ls) = [].
Proof.
  induction ls as [|ld ls IH]; [done|]. simpl in *.
  destruct (buildLabel ctx ld) as [o|] eqn:Ho; [|done].
  simpl. by rewrite (buildLabel_sprite _ _ _ Ho).
Qed.

Lemma filter_isMesh_all l :
  Forall (fun o => isMesh o = true) l -> List.filter isMesh l = l.
Proof.
  induction 1 as [|o l Ho _ IH]; [done|]. simpl. by rewrite Ho, IH.
Qed.

Lemma filter_isMesh_scaled s l :
  List.filter isMesh (map (scaleSprite s) l) = List.filter isMesh l.
Proof.
  induction l as [|o l IH]; [done|]. destruct o; simpl; by rewrite ?IH.
Qed.

Lemma keptMeshes_faceIds vs k fs :
  map faceIdOf (keptMeshes vs k fs)
  = concat (imap (fun i fg => replicate (validIn vs fg) (Some (k + i)%nat)) fs).
Proof.
  revert k. induction fs as [|fg fs IH]; intros k; [done|].
  rewrite keptMeshes_cons, map_app, IH. cbn [imap concat].
  rewrite Nat.add_0_r. f_equal.
  - unfold validIn. induction (List.filter _ _) as [|t l IHl]; [done|].
    simpl. by rewrite IHl.
  - f_equal. apply imap_ext. intros i x _. simpl.
    by rewrite Nat.add_succ_r.
Qed.

(** The result of [buildGeometryModel] once the two structural checks have
    passed: an error when no triangle is valid, else a group whose meshes
    are the kept ones. *)
Lemma buildGeometryModel_primitives ctx box data vs fs :
  vertices data = Some vs -> vs <> [] ->
  faces data = Some fs -> fs <> [] ->
  (validTriangleCount vs fs = 0%nat
   /\ buildGeometryModel ctx box data = Throw NoValidShapes)
  \/ (validTriangleCount vs fs <> 0%nat
      /\ exists g, buildGeometryModel ctx box data = Ok g
                   /\ trianglePrimitives g = keptMeshes vs 0 fs).
Proof.
  intros Hvs Hne Hfs Hnf. unfold buildGeometryModel. rewrite Hvs, Hfs.
  destruct vs as [|v vs']; [done|]. destruct fs as [|f fs']; [done|].
  set (vs := v :: vs'). set (fs := f :: fs').
  assert (Hkept : omap built (concat (imap (buildFace vs) fs))
                  = keptMeshes vs 0 fs) by exact (omap_built_faces vs 0 fs).
  rewrite Hkept.
  rewrite (filter_isMesh_all _ (keptMeshes_all_mesh vs 0 fs)).
  rewrite keptMeshes_length.
  destruct (validTriangleCount vs fs =? 0)%nat eqn:Hc.
  - left. apply Nat.eqb_eq in Hc. done.
  - right. apply Nat.eqb_neq in Hc. split; [done|].
    assert (Hf : forall sprites,
               (exists ls, sprites = omap (buildLabel ctx) ls) ->
               List.filter isMesh (keptMeshes vs 0 fs ++ sprites)
               = keptMeshes vs 0 fs).
    { intros sprites [ls ->]. rewrite List.filter_app, filter_isMesh_labels.
      rewrite app_nil_r. apply filter_isMesh_all, keptMeshes_all_mesh. }
    assert (Hs : exists ls,
               match labels data with
               | Some ls => omap (buildLabel ctx) ls
               | None => []
               end = omap (buildLabel ctx) ls).
    { destruct (labels data) as [ls|]; [by exists ls|by exists []]. }
    destruct (Rltb 0.001 _); eexists; (split; [reflexivity|]);
      unfold trianglePrimitives; simpl;
      rewrite ?filter_isMesh_scaled; by apply Hf.
Qed.

(** C4.  For every solid description that passes the two structural
    checks (non-empty [vertices] and [faces]), the pickable triangle
    primitives of the build are as many as the valid triangles of all
    face groups, and each of them is the mesh of a valid triangle of some
    face group and carries that group's position in [faces] as its
    [faceId]. *)
Theorem C4_primitives_match_valid_triangles ctx box data vs fs :
  vertices data = Some vs -> vs <> [] ->
  faces data = Some fs -> fs <> [] ->
  let prims := primitivesOf (buildGeometryModel ctx box data) in
  List.length prims = validTriangleCount vs fs
  /\ (forall m, m ∈ prims ->
        exists i fg ts t,
          fs !! i = Some fg /\ triangles fg = Some ts /\ t ∈ ts
          /\ validTriangle vs t /\ m = faceMesh vs fg i t
          /\ faceIdOf m = Some i)
  /\ map faceIdOf prims
     = concat (imap (fun i fg => replicate (validIn vs fg) (Some i)) fs).
Proof.
  intros Hvs Hne Hfs Hnf prims.
  assert (Hp : prims = keptMeshes vs 0 fs).
  { unfold prims.
    destruct (buildGeometryModel_primitives ctx box data vs fs Hvs Hne Hfs Hnf)
      as [[Hz ->] | [_ (g & -> & Hg)]]; [|done].
    simpl. pose proof (keptMeshes_length vs 0 fs) as Hl.
    rewrite Hz in Hl. by destruct (keptMeshes vs 0 fs). }
  rewrite Hp. split; [apply keptMeshes_length|]. split.
  - intros m Hm. apply keptMeshes_origin in Hm
      as (i & fg & ts & t & ? & ? & ? & ? & ->).
    exists i, fg, ts, t. done.
  - exact (keptMeshes_faceIds vs 0 fs).
Qed.

Lemma buildTriangle_dropped_iff vs fg faceIndex t :
  defectiveTriangle vs t <-> exists w, buildTriangle vs fg faceIndex t = inl w.
Proof.
  rewrite defective_iff_not_valid, <- validTriangleb_spec.
  pose proof (buildTriangle_built vs fg faceIndex t) as H.
  destruct (buildTriangle vs fg faceIndex t) as [w|m]; simpl in H.
  - destruct (validTriangleb vs t); [done|]. split; [eauto|done].
  - destruct (validTriangleb vs t); [|done].
    split; [done|intros [? ?]; done].
Qed.

Lemma warned_face_length vs faceIndex fg :
  (List.length (omap warned (buildFace vs faceIndex fg)) + validIn vs fg
   = List.length (default [] (triangles fg)))%nat.
Proof.
  unfold buildFace, validIn. destruct (triangles fg) as [ts|]; [|done].
  simpl. induction ts as [|t ts IH]; [done|]. simpl in *.
  pose proof (buildTriangle_built vs fg faceIndex t) as H.
  destruct (buildTriangle vs fg faceIndex t) as [w|m]; simpl in *;
    destruct (validTriangleb vs t); try done; simpl;
    rewrite ?Nat.add_succ_r; f_equal; exact IH.
Qed.

Lemma warned_faces_length vs k fs :
  (List.length (omap warned (concat (imap (fun i => buildFace vs (k + i)) fs)))
   + validTriangleCount vs fs = totalTriangles fs)%nat.
Proof.
  revert k. induction fs as [|fg fs IH]; intros k; [done|].
  cbn [imap concat]. rewrite omap_app, length_app.
  pose proof (warned_face_length vs (k + 0) fg) as Hf.
  specialize (IH (S k)).
  rewrite (imap_ext _ (fun i => buildFace vs (S k + i)) fs).
  2:{ intros i x _. simpl. by rewrite Nat.add_succ_r. }
  set (a := List.length (omap warned (buildFace vs (k + 0) fg))) in *.
  set (b := List.length (omap warned (concat _))) in *.
  unfold validTriangleCount, totalTriangles in *. cbn [map sum_list].
  clearbody a b. unfold Datatypes.id in *. cbv beta in *. lia.
Qed.

(** C5.  For every solid description with non-empty [vertices] and
    [faces]: a triangle is skipped (a warning, no mesh) exactly when it is
    defective, whatever its face group; the build raises the
    empty-model error exactly when no triangle is valid and otherwise
    returns a model with one primitive per valid triangle; every triangle
    is either kept or reported, so a description with 9 valid triangles
    and 1 defective one builds with exactly 9 primitives and one
    warning. *)
Theorem C5_defective_triangles_dropped ctx box data vs fs :
  vertices data = Some vs -> vs <> [] ->
  faces data = Some fs -> fs <> [] ->
  (forall fg faceIndex t,
      defectiveTriangle vs t
      <-> exists w, buildTriangle vs fg faceIndex t = inl w)
  /\ ((exists e, buildGeometryModel ctx box data = Throw e
                 /\ kind e = EmptyModelError)
      <-> validTriangleCount vs fs = 0%nat)
  /\ (validTriangleCount vs fs <> 0%nat ->
      exists g, buildGeometryModel ctx box data = Ok g
                /\ List.length (trianglePrimitives g)
                   = validTriangleCount vs fs)
  /\ (List.length (geometryWarnings data) + validTriangleCount vs fs
      = totalTriangles fs)%nat.
Proof.
  intros Hvs Hne Hfs Hnf.
  pose proof (buildGeometryModel_primitives ctx box data vs fs Hvs Hne Hfs Hnf)
    as Hb.
  split; [intros; apply buildTriangle_dropped_iff|]. split; [|split].
  - split.
    + intros (e & He & Hk).
      destruct Hb as [[Hz _] | [_ (g & Hg & _)]]; [done|congruence].
    + intros Hz. destruct Hb as [[_ Hthrow] | [Hnz _]]; [|done].
      by exists NoValidShapes.
  - intros Hnz. destruct Hb as [[Hz _] | [_ (g & Hg & Hp)]]; [done|].
    exists g. split; [done|]. rewrite Hp. apply keptMeshes_length.
  - unfold geometryWarnings. rewrite Hvs, Hfs.
    destruct vs as [|v vs']; [done|]. destruct fs as [|f fs']; [done|].
    exact (warned_faces_length (v :: vs') 0 (f :: fs')).
Qed.

(** ** Bonds *)

Lemma bondCylinders_length bondData len :
  List.length (bondCylinders bondData len) = cylinderCount (type bondData).
Proof.
  unfold bondCylinders, cylinderCount.
  destruct (String.eqb _ "double"); [done|].
  by destruct (String.eqb _ "triple").
Qed.

Lemma offsetCylinders_length path cs :
  List.length (offsetCylinders path cs) = List.length cs.
Proof.
  unfold offsetCylinders. destruct (1 <? _)%nat; [|done].
  by destruct cs as [|? [|? [|? [|? ?]]]].
Qed.

Lemma bondCylinderMeshes_createBond bondData startPos endPos bondName :
  bondCylinderMeshes (createBond bondData startPos endPos bondName)
  = offsetCylinders (Vector3.subVectors endPos startPos)
      (bondCylinders bondData
         (Vector3.length (Vector3.subVectors endPos startPos))).
Proof.
  unfold bondCylinderMeshes, createBond. simpl.
  induction (offsetCylinders _ _) as [|c cs IH]; [done|].
  simpl. by rewrite IH.
Qed.

(** C10.  The number of cylinders of a bond is decided by the lower-cased
    type string alone: 2 when it equals "double", 3 when it equals
    "triple", and 1 for every other string, so a type that is not
    recognised is drawn as a single bond. *)
Theorem C10_cylinder_count_by_lowercased_type
    (bondData : BondData) (startPos endPos : Vector3.t) (bondName : string) :
  let cylinders :=
    bondCylinderMeshes (createBond bondData startPos endPos bondName) in
  List.length cylinders
  = (if decide (toLowerCase (type bondData) = "double"%string) then 2%nat
     else if decide (toLowerCase (type bondData) = "triple"%string) then 3%nat
     else 1%nat)
  /\ Forall (fun c => isMesh c = true) cylinders.
Proof.
  intros cylinders. unfold cylinders.
  rewrite bondCylinderMeshes_createBond, offsetCylinders_length,
    bondCylinders_length.
  unfold cylinderCount. split.
  - destruct (decide (_ = "double"%string)) as [->|Hd]; [done|].
    apply String.eqb_neq in Hd. rewrite Hd.
    destruct (decide (_ = "triple"%string)) as [->|Ht]; [done|].
    apply String.eqb_neq in Ht. by rewrite Ht.
  - unfold offsetCylinders, bondCylinders.
    destruct (String.eqb _ "double"); [|destruct (String.eqb _ "triple")];
      simpl; repeat constructor.
Qed.

(** Spellings that differ from the lower-case words in case only are
    recognised; anything else counts as a single bond. *)
Example cylinderCount_examples :
  cylinderCount "Double" = 2%nat /\ cylinderCount "TRIPLE" = 3%nat
  /\ cylinderCount "double" = 2%nat /\ cylinderCount "single" = 1%nat
  /\ cylinderCount "dubble" = 1%nat /\ cylinderCount "" = 1%nat.
Proof. repeat split. Qed.

Lemma sqrt_sum_squares_eq_0 a b : sqrt (a * a + b * b) = 0 <-> a = 0 /\ b = 0.
Proof.
  split.
  - intros H. apply sqrt_eq_0 in H; [|nra]. split; nra.
  - intros [-> ->]. replace (0 * 0 + 0 * 0) with 0 by ring. apply sqrt_0.
Qed.

Lemma sqrt_scaled_squares a b k :
  0 < k ->
  sqrt ((0 + a * k) * (0 + a * k) + (0 + b * k) * (0 + b * k))
  = sqrt (a * a + b * b) * k.
Proof.
  intros Hk.
  replace ((0 + a * k) * (0 + a * k) + (0 + b * k) * (0 + b * k))
    with ((a * a + b * b) * (k * k)) by ring.
  rewrite sqrt_mult; [|nra|nra]. rewrite sqrt_square; [done|lra].
Qed.

(** The divisor used by [normalize] is positive. *)
Lemma normalize_divisor_pos (w : Vector3.t) :
  0 < (if Req_dec_T (Vector3.length w) 0 then 1 else Vector3.length w).
Proof.
  destruct (Req_dec_T _ 0) as [_|Hne]; [lra|].
  pose proof (sqrt_pos (Vector3.lengthSq w)). unfold Vector3.length in *. lra.
Qed.

Lemma bondRadius_spacing : bondRadius * 1.5 = 0.225.
Proof. unfold bondRadius, CHEM_MODEL_SCALE. lra. Qed.

(** The lateral distance of a cylinder moved by [bondOffset path], in
    either direction. *)
Lemma lateralDistance_offset (path : Vector3.t) (len : R) :
  let d := bondOffset path in
  let px := Vector3.x path in
  let py := Vector3.y path in
  let pz := Vector3.z path in
  lateralDistance (positionAdd d (createCylinder len))
  = lateralDistance (positionSub d (createCylinder len))
  /\ (0.01 <= sqrt (px * px + pz * pz) ->
      lateralDistance (positionAdd d (createCylinder len)) = bondRadius * 1.5)
  /\ (lateralDistance (positionAdd d (createCylinder len)) = 0
      <-> py = 0 /\ sqrt (px * px + pz * pz) < 0.01).
Proof.
  intros d px py pz.
  assert (Hsym : lateralDistance (positionAdd d (createCylinder len))
                 = lateralDistance (positionSub d (createCylinder len))).
  { unfold lateralDistance. simpl. f_equal. ring. }
  split; [exact Hsym|].
  assert (Hlen : Vector3.length (Vector3.crossVectors path (vec3 0 1 0))
                 = sqrt (px * px + pz * pz)).
  { unfold Vector3.length, Vector3.lengthSq. simpl. f_equal.
    unfold px, pz. ring. }
  unfold lateralDistance, d, bondOffset. rewrite Hlen.
  pose proof bondRadius_spacing as Hs.
  destruct (Rltb (sqrt (px * px + pz * pz)) 0.01) eqn:Hlt.
  - (* the bond is within 0.01 of the Y direction: second reference axis *)
    apply Rltb_true in Hlt.
    set (w := Vector3.crossVectors path (vec3 1 0 0)).
    pose proof (normalize_divisor_pos w) as Hpos.
    unfold Vector3.normalize, Vector3.divideScalar.
    set (L := if Req_dec_T (Vector3.length w) 0 then 1 else Vector3.length w)
      in *.
    assert (Hk : 0 < 1 / L * (bondRadius * 1.5)).
    { rewrite Hs. apply Rmult_lt_0_compat; [|lra].
      apply Rdiv_lt_0_compat; lra. }
    simpl.
    replace (Vector3.y path * 0 - Vector3.z path * 0) with 0 by ring.
    replace (0 * (1 / L) * (bondRadius * 1.5))
      with (0 * (1 / L * (bondRadius * 1.5))) by ring.
    replace ((Vector3.x path * 0 - Vector3.y path * 1) * (1 / L)
             * (bondRadius * 1.5))
      with ((- py) * (1 / L * (bondRadius * 1.5))) by (unfold py; ring).
    rewrite (sqrt_scaled_squares _ _ _ Hk). split; [lra|].
    split.
    + intros H0. apply Rmult_integral in H0 as [H0|H0]; [|lra].
      apply sqrt_sum_squares_eq_0 in H0 as [_ H0]. split; [lra|done].
    + intros [Hy _]. rewrite Hy.
      replace (0 * 0 + - 0 * - 0) with 0 by ring. rewrite sqrt_0. ring.
  - (* the usual case: perpendicular taken with the Y axis *)
    apply Rltb_false in Hlt.
    set (w := Vector3.crossVectors path (vec3 0 1 0)) in *.
    unfold Vector3.normalize, Vector3.divideScalar.
    rewrite Hlen.
    destruct (Req_dec_T (sqrt (px * px + pz * pz)) 0) as [H0|Hne]; [lra|].
    set (L := sqrt (px * px + pz * pz)) in *.
    assert (HL : 0 < L) by lra.
    assert (Hk : 0 < 1 / L * (bondRadius * 1.5)).
    { rewrite Hs. apply Rmult_lt_0_compat; [|lra].
      apply Rdiv_lt_0_compat; lra. }
    simpl.
    replace ((Vector3.y path * 0 - Vector3.z path * 1) * (1 / L)
             * (bondRadius * 1.5))
      with ((- pz) * (1 / L * (bondRadius * 1.5))) by (unfold pz; ring).
    replace ((Vector3.x path * 1 - Vector3.y path * 0) * (1 / L)
             * (bondRadius * 1.5))
      with (px * (1 / L * (bondRadius * 1.5))) by (unfold px; ring).
    rewrite (sqrt_scaled_squares _ _ _ Hk).
    replace (- pz * - pz + px * px) with (px * px + pz * pz) by ring.
    fold L.
    assert (Hval : L * (1 / L * (bondRadius * 1.5)) = bondRadius * 1.5)
      by (field; lra).
    rewrite Hval. split; [done|]. split; [lra|intros [_ ?]; lra].
Qed.

(** C6, as stated, fails: a double bond between two atoms that were given
    the same coordinates is built, and both of its cylinders sit on the
    axis (lateral distance zero). *)
Lemma C6_counterexample_coincident_atoms :
  exists g c0 c1,
    buildBond coincidentAtoms (map scaledPosition coincidentAtoms)
              doubleBond01 = Some g
    /\ bondCylinderMeshes g = [c0; c1]
    /\ lateralDistance c0 = 0 /\ lateralDistance c1 = 0.
Proof.
  set (p := scaledPosition (carbonAt (vec3 1 1 1))).
  set (path := Vector3.subVectors p p).
  exists (createBond doubleBond01 p p "C-C"),
    (positionAdd (bondOffset path) (createCylinder (Vector3.length path))),
    (positionSub (bondOffset path) (createCylinder (Vector3.length path))).
  split; [reflexivity|]. split.
  - rewrite bondCylinderMeshes_createBond. reflexivity.
  - destruct (lateralDistance_offset path (Vector3.length path))
      as (Hsym & _ & Hzero).
    rewrite <- Hsym.
    assert (lateralDistance
              (positionAdd (bondOffset path)
                           (createCylinder (Vector3.length path))) = 0)
      as H0.
    { apply Hzero. unfold path, p. simpl. split; [ring|].
      replace ((1 * CHEM_MODEL_SCALE - 1 * CHEM_MODEL_SCALE)
               * (1 * CHEM_MODEL_SCALE - 1 * CHEM_MODEL_SCALE)
               + (1 * CHEM_MODEL_SCALE - 1 * CHEM_MODEL_SCALE)
                 * (1 * CHEM_MODEL_SCALE - 1 * CHEM_MODEL_SCALE))
        with 0 by ring.
      rewrite sqrt_0. lra. }
    by rewrite H0.
Qed.

(** C6, amended.  A bond whose lower-cased type is "double" is built from
    exactly 2 cylinders, moved by [+d] and [-d] from the axis of their
    group; one whose lower-cased type is "triple" from exactly 3: one
    left on the axis and two moved by [+d] and [-d].  The two moved
    cylinders are at the same lateral distance from the axis.  That
    distance is 1.5 times the bond radius whenever the projection of the
    bond on the XZ plane is at least 0.01 long, and it is zero exactly
    when the bond has no Y component and that projection is shorter than
    0.01 (as for coincident end points). *)
Theorem C6_multiple_bond_offsets
    (bondData : BondData) (startPos endPos : Vector3.t) (bondName : string) :
  toLowerCase (type bondData) = "double"%string
  \/ toLowerCase (type bondData) = "triple"%string ->
  let path := Vector3.subVectors endPos startPos in
  let d := bondOffset path in
  let c := createCylinder (Vector3.length path) in
  let plus := positionAdd d c in
  let minus := positionSub d c in
  bondCylinderMeshes (createBond bondData startPos endPos bondName)
  = (if decide (toLowerCase (type bondData) = "double"%string)
     then [plus; minus] else [c; plus; minus])
  /\ positionOf c = Vector3.zero
  /\ positionOf plus = Vector3.add Vector3.zero d
  /\ positionOf minus = Vector3.sub Vector3.zero d
  /\ lateralDistance plus = lateralDistance minus
  /\ (0.01 <= sqrt (Vector3.x path * Vector3.x path
                    + Vector3.z path * Vector3.z path) ->
      lateralDistance plus = bondRadius * 1.5 /\ bondRadius * 1.5 <> 0)
  /\ (lateralDistance plus = 0
      <-> Vector3.y path = 0
          /\ sqrt (Vector3.x path * Vector3.x path
                   + Vector3.z path * Vector3.z path) < 0.01).
Proof.
  intros Htype path d c plus minus.
  destruct (lateralDistance_offset path (Vector3.length path))
    as (Hsym & Hval & Hzero).
  split.
  - rewrite bondCylinderMeshes_createBond.
    unfold bondCylinders, offsetCylinders.
    destruct (decide (_ = "double"%string)) as [Hd|Hd].
    + rewrite Hd. reflexivity.
    + destruct Htype as [Ht|Ht]; [done|]. rewrite Ht. reflexivity.
  - split; [done|]. split; [done|]. split; [done|].
    split; [exact Hsym|]. split; [|exact Hzero].
    intros H. split; [by apply Hval|rewrite bondRadius_spacing; lra].
Qed.

Lemma C6_witness_double_bond :
  (toLowerCase (type doubleBond01) = "double"%string
   \/ toLowerCase (type doubleBond01) = "triple"%string)
  /\ List.length
       (bondCylinderMeshes
          (createBond doubleBond01 (vec3 0 0 0) (vec3 3 0 0) "C-C")) = 2%nat.
Proof.
  split; [left; reflexivity|].
  pose proof (C6_multiple_bond_offsets doubleBond01 (vec3 0 0 0) (vec3 3 0 0)
                "C-C" (or_introl eq_refl)) as H.
  cbv zeta in H. destruct H as [-> _]. reflexivity.
Defined.

(** ** Angle overlay *)

Lemma vec3_eq a b c a' b' c' :
  a = a' -> b = b' -> c = c' -> vec3 a b c = vec3 a' b' c'.
Proof. by intros -> -> ->. Qed.

Lemma normalize_unit a b c :
  a * a + b * b + c * c = 1 ->
  Vector3.normalize (vec3 a b c) = vec3 a b c.
Proof.
  intros H. unfold Vector3.normalize, Vector3.length, Vector3.lengthSq.
  simpl. rewrite H, sqrt_1.
  destruct (Req_dec_T 1 0) as [?|_]; [lra|].
  unfold Vector3.divideScalar, Vector3.multiplyScalar. simpl.
  apply vec3_eq; field.
Qed.


Lemma lengthSq_self_sub (p : Vector3.t) :
  Vector3.lengthSq (Vector3.subVectors p p) = 0.
Proof. unfold Vector3.lengthSq. simpl. ring. Qed.

(** The engine reports a right angle as soon as one of the two vectors
    has length zero. *)
Lemma angleTo_zero_length (v1 v2 : Vector3.t) :
  Vector3.lengthSq v1 = 0 \/ Vector3.lengthSq v2 = 0 ->
  Vector3.angleTo v1 v2 = PI / 2.
Proof.
  intros H. unfold Vector3.angleTo.
  assert (Vector3.lengthSq v1 * Vector3.lengthSq v2 = 0) as ->
    by (destruct H as [-> | ->]; ring).
  rewrite sqrt_0. by destruct (Req_dec_T 0 0).
Qed.

Lemma right_angle_not_small : Rltb (PI / 2) 0.01 = false.
Proof. apply Rltb_false. pose proof PI2_1. lra. Qed.

(** What [drawAngleVisualization] adds when the angle is not below the
    threshold: one pivot with the arc, then the label if a sprite can be
    made. *)
Lemma drawAngleVisualization_draws ctx p1 pCenter p2 text group :
  Rltb (Vector3.angleTo (Vector3.subVectors p1 pCenter)
                        (Vector3.subVectors p2 pCenter)) 0.01 = false ->
  exists xAxis yAxis zAxis labelPosition,
    drawAngleVisualization ctx p1 pCenter p2 text group
    = group
      ++ [ArcPivot pCenter xAxis yAxis zAxis
            {| aX := 0; aY := 0; aRadius := 0.4 * CHEM_MODEL_SCALE;
               aStartAngle := 0;
               aEndAngle := Vector3.angleTo (Vector3.subVectors p1 pCenter)
                                            (Vector3.subVectors p2 pCenter);
               aClockwise := false |} 32]
      ++ match ctx with
         | Some _ => [AngleLabel text labelPosition (vec3 0.5 0.5 0.5)]
         | None => []
         end.
Proof.
  intros Hbig. unfold drawAngleVisualization. rewrite Hbig.
  unfold createLabelSprite. destruct ctx as [measureText|].
  - do 4 eexists. rewrite <- app_assoc. reflexivity.
  - eexists _, _, _, (vec3 0 0 0). rewrite app_nil_r. reflexivity.
Qed.

(** C7, as stated, fails: with [p1 = pCenter] an arc is added to the
    overlay group. *)
Lemma C7_counterexample_zero_length_ray :
  exists o,
    o ∈ drawAngleVisualization sampleContext
          (vec3 0 0 0) (vec3 0 0 0) (vec3 1 0 0) "90" []
    /\ isArcPivot o = true.
Proof.
  destruct (drawAngleVisualization_draws sampleContext
              (vec3 0 0 0) (vec3 0 0 0) (vec3 1 0 0) "90" [])
    as (xA & yA & zA & lp & ->).
  - rewrite angleTo_zero_length; [apply right_angle_not_small|].
    left. apply lengthSq_self_sub.
  - eexists. split; [simpl; constructor|reflexivity].
Qed.

(** C7, amended.  When [p1 = pCenter] or [p2 = pCenter], the call runs to
    its end without an error and the overlay is not withheld: the engine
    reports the angle between a zero-length vector and any vector as a
    right angle, which is not below the 0.01 threshold, so one pivot with
    an arc from 0 to pi/2 is added at [pCenter], followed by the label
    whenever a label sprite can be made. *)
Theorem C7_zero_length_ray_draws_right_angle
    (ctx : option (string -> R)) (p1 pCenter p2 : Vector3.t)
    (text : string) (group : list Overlay) :
  p1 = pCenter \/ p2 = pCenter ->
  exists xAxis yAxis zAxis labelPosition,
    drawAngleVisualization ctx p1 pCenter p2 text group
    = group
      ++ [ArcPivot pCenter xAxis yAxis zAxis
            {| aX := 0; aY := 0; aRadius := 0.4 * CHEM_MODEL_SCALE;
               aStartAngle := 0; aEndAngle := PI / 2;
               aClockwise := false |} 32]
      ++ match ctx with
         | Some _ => [AngleLabel text labelPosition (vec3 0.5 0.5 0.5)]
         | None => []
         end.
Proof.
  intros H.
  assert (Hangle : Vector3.angleTo (Vector3.subVectors p1 pCenter)
                                   (Vector3.subVectors p2 pCenter) = PI / 2).
  { apply angleTo_zero_length.
    destruct H as [-> | ->]; [left|right]; apply lengthSq_self_sub. }
  destruct (drawAngleVisualization_draws ctx p1 pCenter p2 text group)
    as (xA & yA & zA & lp & Hd).
  - rewrite Hangle. apply right_angle_not_small.
  - rewrite Hangle in Hd. by exists xA, yA, zA, lp.
Qed.

Lemma C7_witness_first_ray_zero :
  (vec3 0 0 0 = vec3 0 0 0 \/ vec3 1 0 0 = vec3 0 0 0)
  /\ exists xAxis yAxis zAxis labelPosition,
       drawAngleVisualization sampleContext
         (vec3 0 0 0) (vec3 0 0 0) (vec3 1 0 0) "90" []
       = [] ++ [ArcPivot (vec3 0 0 0) xAxis yAxis zAxis
                  {| aX := 0; aY := 0; aRadius := 0.4 * CHEM_MODEL_SCALE;
                     aStartAngle := 0; aEndAngle := PI / 2;
                     aClockwise := false |} 32]
            ++ match sampleContext with
               | Some _ =>
                   [AngleLabel "90" labelPosition (vec3 0.5 0.5 0.5)]
               | None => []
               end.
Proof.
  split; [left; reflexivity|].
  exact (C7_zero_length_ray_draws_right_angle sampleContext
           (vec3 0 0 0) (vec3 0 0 0) (vec3 1 0 0) "90" []
           (or_introl eq_refl)).
Defined.

Lemma Rltb_lt a b : a < b -> Rltb a b = true.
Proof. apply Rltb_true. Qed.

Lemma Rltb_ge a b : b <= a -> Rltb a b = false.
Proof. apply Rltb_false. Qed.

(** C8.  For [p1 = (1,0,0)], [pCenter = (0,0,0)], [p2 = (-1,0,0)] the
    overlay consists of one pivot at the centre whose basis is the X, Y
    and Z axes and whose arc, of radius 1.2 and sampled at 33 points, runs
    from 0 to pi, and, when a label sprite can be made, of a label placed
    at distance 2.025 from the centre along the Y axis of that basis (the
    sum of the two unit rays being zero). *)
Theorem C8_straight_angle_overlay
    (ctx : option (string -> R)) (text : string) (group : list Overlay) :
  drawAngleVisualization ctx (vec3 1 0 0) (vec3 0 0 0) (vec3 (-1) 0 0)
                         text group
  = group
    ++ [ArcPivot (vec3 0 0 0) (vec3 1 0 0) (vec3 0 1 0) (vec3 0 0 1)
          {| aX := 0; aY := 0; aRadius := 1.2;
             aStartAngle := 0; aEndAngle := PI; aClockwise := false |} 32]
    ++ match ctx with
       | Some _ => [AngleLabel text (vec3 0 2.025 0) (vec3 0.5 0.5 0.5)]
       | None => []
       end.
Proof.
  unfold drawAngleVisualization.
  assert (Hv1 : Vector3.subVectors (vec3 1 0 0) (vec3 0 0 0) = vec3 1 0 0)
    by (apply vec3_eq; simpl; ring).
  assert (Hv2 : Vector3.subVectors (vec3 (-1) 0 0) (vec3 0 0 0)
                = vec3 (-1) 0 0)
    by (apply vec3_eq; simpl; ring).
  rewrite Hv1, Hv2.
  assert (Hangle : Vector3.angleTo (vec3 1 0 0) (vec3 (-1) 0 0) = PI).
  { unfold Vector3.angleTo, Vector3.lengthSq, Vector3.dot, clamp. simpl.
    replace ((1 * 1 + 0 * 0 + 0 * 0) * (-1 * -1 + 0 * 0 + 0 * 0)) with 1
      by ring.
    rewrite sqrt_1. destruct (Req_dec_T 1 0) as [?|_]; [lra|].
    replace ((1 * -1 + 0 * 0 + 0 * 0) / 1) with (-1) by field.
    rewrite Rmin_right by lra. rewrite Rmax_left by lra.
    replace (acos (-1)) with (acos (Ropp 1)) by (f_equal; lra).
    rewrite acos_opp, acos_1. ring. }
  rewrite Hangle.
  assert (Hcross : Vector3.crossVectors (vec3 1 0 0) (vec3 (-1) 0 0)
                   = vec3 0 0 0)
    by (apply vec3_eq; simpl; ring).
  rewrite Hcross.
  assert (Hsmall : Rltb (Vector3.lengthSq (vec3 0 0 0)) 0.0001 = true).
  { apply Rltb_lt. unfold Vector3.lengthSq. simpl. lra. }
  rewrite Hsmall.
  assert (Hn1 : Vector3.normalize (vec3 1 0 0) = vec3 1 0 0)
    by (apply normalize_unit; ring).
  assert (Hn2 : Vector3.normalize (vec3 (-1) 0 0) = vec3 (-1) 0 0)
    by (apply normalize_unit; ring).
  rewrite Hn1, Hn2.
  assert (Hpar : Rltb 0.999 (Rabs (Vector3.dot (vec3 1 0 0) (vec3 1 0 0)))
                 = true).
  { apply Rltb_lt. unfold Vector3.dot. simpl.
    replace (1 * 1 + 0 * 0 + 0 * 0) with 1 by ring. rewrite Rabs_R1. lra. }
  rewrite Hpar.
  assert (Hnormal : Vector3.normalize
                      (Vector3.crossVectors (vec3 1 0 0) (vec3 0 1 0))
                    = vec3 0 0 1).
  { assert (Vector3.crossVectors (vec3 1 0 0) (vec3 0 1 0) = vec3 0 0 1)
      as -> by (apply vec3_eq; simpl; ring).
    apply normalize_unit. ring. }
  rewrite Hnormal.
  assert (Hbig : Rltb PI 0.01 = false).
  { apply Rltb_ge. pose proof PI2_1. lra. }
  rewrite Hbig.
  assert (Hy : Vector3.normalize (Vector3.cross (vec3 0 0 1) (vec3 1 0 0))
               = vec3 0 1 0).
  { assert (Vector3.cross (vec3 0 0 1) (vec3 1 0 0) = vec3 0 1 0)
      as -> by (apply vec3_eq; simpl; ring).
    apply normalize_unit. ring. }
  rewrite Hy.
  assert (Hradius : 0.4 * CHEM_MODEL_SCALE = 1.2)
    by (unfold CHEM_MODEL_SCALE; lra).
  rewrite Hradius.
  unfold createLabelSprite. destruct ctx as [measureText|].
  - assert (Hsum : Vector3.add (vec3 1 0 0) (vec3 (-1) 0 0) = vec3 0 0 0)
      by (apply vec3_eq; simpl; ring).
    rewrite Hsum, Hsmall.
    assert (Hny : Vector3.normalize (vec3 0 1 0) = vec3 0 1 0)
      by (apply normalize_unit; ring).
    rewrite Hny.
    assert (Hpos : Vector3.add (vec3 0 0 0)
                     (Vector3.multiplyScalar (vec3 0 1 0)
                                             ((1.2 + 0.15) * 1.5))
                   = vec3 0 2.025 0)
      by (apply vec3_eq; simpl; lra).
    rewrite Hpos. by rewrite <- app_assoc.
  - by rewrite app_nil_r.
Qed.

(** ** The scene graph: induction and traversal *)

(** Induction on an object with the hypothesis available for every child
    of a group. *)
Lemma Object3D_children_ind (P : Object3D -> Prop) :
  (forall ud g c p, P (Mesh ud g c p)) ->
  (forall t p sc, P (Sprite t p sc)) ->
  (forall ud p q ch, Forall P ch -> P (Group ud p q ch)) ->
  forall o, P o.
Proof.
  intros HM HS HG. fix IH 1. intros [ud g c p|t p sc|ud p q ch].
  - apply HM.
  - apply HS.
  - apply HG. induction ch as [|c ch IHch]; constructor; [apply IH|exact IHch].
Qed.

Lemma traverseFrom_cons i c l :
  traverseFrom i (c :: l)
  = map (fun q => (i :: q.1, q.2)) (traverse c) ++ traverseFrom (S i) l.
Proof.
  unfold traverseFrom. cbn [imap concat]. rewrite Nat.add_0_r. f_equal.
  f_equal. apply imap_ext. intros k x _. simpl. by rewrite Nat.add_succ_r.
Qed.

Lemma traverse_group ud p q ch :
  traverse (Group ud p q ch) = ([], Group ud p q ch) :: traverseFrom 0 ch.
Proof.
  simpl. f_equal. generalize 0%nat as i.
  induction ch as [|c ch IH]; intros i; [done|].
  rewrite traverseFrom_cons, <- IH. done.
Qed.

Lemma traverse_leaf o :
  isGroup o = false -> traverse o = [([], o)].
Proof. by destruct o. Qed.

Lemma elem_of_traverseFrom i ch p n :
  (p, n) ∈ traverseFrom i ch
  <-> exists k c p', p = (i + k)%nat :: p' /\ ch !! k = Some c
                     /\ (p', n) ∈ traverse c.
Proof.
  revert i. induction ch as [|c ch IH]; intros i.
  - unfold traverseFrom. simpl. split.
    + intros H. by apply elem_of_nil in H.
    + intros (k & c & p' & _ & H & _). done.
  - rewrite traverseFrom_cons, elem_of_app, IH. split.
    + intros [H|(k & c' & p' & -> & Hk & Hin)].
      * apply list_elem_of_fmap in H as ([p' n'] & [= -> ->] & H).
        exists 0%nat, c, p'. rewrite Nat.add_0_r. done.
      * exists (S k), c', p'. rewrite Nat.add_succ_r. done.
    + intros ([|k] & c' & p' & -> & Hk & Hin).
      * left. simpl in Hk. injection Hk as <-. rewrite Nat.add_0_r.
        apply list_elem_of_fmap. by exists (p', n).
      * right. exists k, c', p'. rewrite Nat.add_succ_r. done.
Qed.

(** An entry of a traversal is the object itself or an entry of the
    traversal of one of its children. *)
Lemma elem_of_traverse o p n :
  (p, n) ∈ traverse o
  <-> (p = [] /\ n = o)
      \/ exists k c p', p = k :: p' /\ childrenOf o !! k = Some c
                        /\ (p', n) ∈ traverse c.
Proof.
  destruct o as [ud g c pos|t pos sc|ud pos q ch].
  - simpl. rewrite list_elem_of_singleton. split.
    + intros [= -> ->]. by left.
    + intros [[-> ->]|(k & c' & p' & _ & H & _)]; done.
  - simpl. rewrite list_elem_of_singleton. split.
    + intros [= -> ->]. by left.
    + intros [[-> ->]|(k & c' & p' & _ & H & _)]; done.
  - rewrite traverse_group, elem_of_cons, elem_of_traverseFrom. simpl. split.
    + intros [[= -> ->]|H]; [by left|by right].
    + intros [[-> ->]|H]; [by left|by right].
Qed.

(** The entries of a traversal are exactly the objects found at the paths
    of the graph. *)
Lemma traverse_nodeAt o p n :
  (p, n) ∈ traverse o <-> nodeAt o p = Some n.
Proof.
  revert o. induction p as [|k p IH]; intros o.
  - rewrite elem_of_traverse. simpl. split.
    + intros [[_ ->]|(k & c & p' & ? & _)]; done.
    + intros [= ->]. by left.
  - rewrite elem_of_traverse. simpl. split.
    + intros [[? _]|(k' & c & p' & [= -> ->] & Hk & Hin)]; [done|].
      rewrite Hk. by apply IH.
    + destruct (childrenOf o !! k) as [c|] eqn:Hk; [|done].
      intros H. right. exists k, c, p. by rewrite IH.
Qed.

Lemma NoDup_traverseFrom i ch :
  Forall (fun c => NoDup (traverse c).*1) ch ->
  NoDup (traverseFrom i ch).*1 /\ forall p, p ∈ (traverseFrom i ch).*1 ->
                                   exists k p', p = (i + k)%nat :: p'.
Proof.
  intros Hch. revert i. induction Hch as [|c ch Hc _ IH]; intros i.
  - unfold traverseFrom. simpl. split; [constructor|].
    intros p H. by apply elem_of_nil in H.
  - rewrite traverseFrom_cons, fmap_app. destruct (IH (S i)) as [IH1 IH2].
    split.
    + apply NoDup_app. split; [|split; [|exact IH1]].
      * rewrite <- list_fmap_compose.
        change (fst ∘ _) with (cons i ∘ (fst : list nat * Object3D -> _)).
        rewrite list_fmap_compose. apply NoDup_fmap; [|done].
        by intros ? ? [= ->].
      * intros p Hp Hp'. apply IH2 in Hp' as (k & p' & ->).
        apply list_elem_of_fmap in Hp as ([p0 n0] & Heq & Hp).
        apply list_elem_of_fmap in Hp as ([p1 n1] & [= -> ->] & _).
        simpl in Heq. injection Heq as Heq _. lia.
    + intros p Hp. apply elem_of_app in Hp as [Hp|Hp].
      * apply list_elem_of_fmap in Hp as ([p0 n0] & -> & Hp).
        apply list_elem_of_fmap in Hp as ([p1 n1] & [= -> ->] & _).
        exists 0%nat, p1. simpl. by rewrite Nat.add_0_r.
      * apply IH2 in Hp as (k & p' & ->). exists (S k), p'.
        by rewrite Nat.add_succ_r.
Qed.

(** A traversal meets every object once. *)
Lemma NoDup_traverse o : NoDup (traverse o).*1.
Proof.
  induction o as [ud g c pos|t pos sc|ud pos q ch IH]
    using Object3D_children_ind.
  - simpl. apply NoDup_singleton.
  - simpl. apply NoDup_singleton.
  - rewrite traverse_group. simpl.
    destruct (NoDup_traverseFrom 0 ch IH) as [H1 H2].
    constructor; [|done]. intros H. apply H2 in H as (? & ? & ?). done.
Qed.

(** ** Labels are rescaled by the largest side of the box *)

Lemma traverseFrom_scaled s i ch :
  Forall (fun c => traverse (scaleSpritesDeep s c)
                   = map (fun pc => (pc.1, scaleSpritesDeep s pc.2))
                         (traverse c)) ch ->
  traverseFrom i (map (scaleSpritesDeep s) ch)
  = map (fun pc => (pc.1, scaleSpritesDeep s pc.2)) (traverseFrom i ch).
Proof.
  intros H. revert i. induction H as [|c ch Hc _ IH]; intros i; [done|].
  cbn [map]. rewrite !traverseFrom_cons, map_app, IH, Hc.
  f_equal. rewrite !map_map. done.
Qed.

Lemma traverse_scaled s o :
  traverse (scaleSpritesDeep s o)
  = map (fun pc => (pc.1, scaleSpritesDeep s pc.2)) (traverse o).
Proof.
  induction o as [ud g c pos|t pos sc|ud pos q ch IH]
    using Object3D_children_ind; [done|done|].
  cbn [scaleSpritesDeep]. rewrite !traverse_group. cbn [map]. f_equal.
  by apply traverseFrom_scaled.
Qed.

(** Rescaling multiplies the scale of every sprite and changes nothing
    else. *)
Lemma spriteScales_scaled s o :
  spriteScales (scaleSpritesDeep s o)
  = map (fun sc => Vector3.multiplyScalar sc s) (spriteScales o).
Proof.
  unfold spriteScales. rewrite traverse_scaled.
  induction (traverse o) as [|[p n] l IH]; [done|].
  destruct n; simpl; first [exact IH | f_equal; exact IH].
Qed.

Lemma meshPaths_scaled s o :
  meshPaths (scaleSpritesDeep s o) = meshPaths o.
Proof.
  unfold meshPaths. rewrite traverse_scaled.
  induction (traverse o) as [|[p n] l IH]; [done|].
  destruct n; simpl; first [exact IH | f_equal; exact IH].
Qed.

Lemma scaleSprite_deep_leaves s l :
  Forall (fun o => isGroup o = false) l ->
  map (scaleSprite s) l = map (scaleSpritesDeep s) l.
Proof.
  induction 1 as [|o l Ho _ IH]; [done|]. simpl. rewrite IH.
  by destruct o.
Qed.

Lemma keptMeshes_leaves vs k fs :
  Forall (fun o => isGroup o = false) (keptMeshes vs k fs).
Proof.
  eapply Forall_impl; [apply keptMeshes_all_mesh|]. by intros [].
Qed.

Lemma labels_leaves ctx ls :
  Forall (fun o => isGroup o = false) (omap (buildLabel ctx) ls).
Proof.
  apply Forall_forall. intros o Ho.
  apply list_elem_of_omap in Ho as (ld & _ & Hld).
  unfold buildLabel, createLabelSprite in Hld.
  destruct (truthy _); [|done]. destruct (label_position ld); [|done].
  destruct ctx; [|done]. simpl in Hld. by injection Hld as <-.
Qed.

(** Each builder returns the assembled group with its sprites rescaled by
    the largest side of the box over the divisor of its variant, or the
    assembled group untouched when that side does not exceed 0.001. *)
Lemma buildFor_rescales ctx box mode data g :
  buildFor ctx box (Some mode) data = Ok g ->
  g = if Rltb 0.001 (maxDimOf box (assembled ctx mode data))
      then scaleSpritesDeep
             (maxDimOf box (assembled ctx mode data) / labelDivisor mode)
             (assembled ctx mode data)
      else assembled ctx mode data.
Proof.
  destruct mode; simpl.
  - unfold buildGeometryModel, geometryGroup.
    destruct (vertices data) as [[|v vs]|]; try done.
    destruct (faces data) as [[|f fs]|]; try done.
    cbn [default from_option Datatypes.id].
    set (meshes := omap built _).
    destruct (_ =? 0)%nat; [done|].
    set (sprites := match labels data with Some _ => _ | None => _ end).
    assert (Hleaves : Forall (fun o => isGroup o = false) (meshes ++ sprites)).
    { apply Forall_app. split.
      - unfold meshes.
        pose proof (omap_built_faces (v :: vs) 0 (f :: fs)) as Hk.
        change (fun i : nat => buildFace (v :: vs) (0 + i))
          with (buildFace (v :: vs)) in Hk.
        rewrite Hk. apply keptMeshes_leaves.
      - unfold sprites. destruct (labels data); [apply labels_leaves|done]. }
    destruct (Rltb 0.001 _); intros [= <-]; [|done].
    cbn [scaleSpritesDeep]. f_equal. by apply scaleSprite_deep_leaves.
  - unfold buildChemistryModel, chemistryGroup.
    destruct (atoms data) as [[|a l]|]; try done.
    cbn [default from_option Datatypes.id].
    destruct (Rltb 0.001 _); by intros [= <-].
Qed.

(** C9, amended.  When a build succeeds, the scale of every label sprite
    of the model is the scale it was created with multiplied by the
    largest side of the model's bounding box divided by 15 for a solid and
    by 30 for a molecule, provided that side exceeds 0.001, and nothing
    else differs from the group that was measured; when the largest side
    does not exceed 0.001 the group is returned as measured. *)
Theorem C9_labels_scaled_by_largest_side
    (ctx : option (string -> R)) (box : Object3D -> Box3) (mode : Mode)
    (data : ModelData) (g : Object3D) :
  buildFor ctx box (Some mode) data = Ok g ->
  let measured := assembled ctx mode data in
  let maxDim := maxDimOf box measured in
  let factor := maxDim / labelDivisor mode in
  (0.001 < maxDim ->
     g = scaleSpritesDeep factor measured
     /\ spriteScales g
        = map (fun sc => Vector3.multiplyScalar sc factor)
              (spriteScales measured)
     /\ meshPaths g = meshPaths measured)
  /\ (maxDim <= 0.001 -> g = measured)
  /\ labelDivisor geometry = 15 /\ labelDivisor chemistry = 30
  /\ labelDivisor geometry < labelDivisor chemistry.
Proof.
  intros Hb measured maxDim factor.
  apply buildFor_rescales in Hb. fold measured maxDim factor in Hb.
  split; [|split].
  - intros Hbig. apply Rltb_true in Hbig. rewrite Hbig in Hb. subst g.
    split; [done|]. split; [apply spriteScales_scaled|apply meshPaths_scaled].
  - intros Hsmall. apply Rltb_false in Hsmall. by rewrite Hsmall in Hb.
  - simpl. repeat split; lra.
Qed.

Ltac minmax :=
  repeat match goal with
    | |- context [Rmin ?a ?b] =>
        first [rewrite (Rmin_left a b) by lra
              |rewrite (Rmin_right a b) by lra]
    | |- context [Rmax ?a ?b] =>
        first [rewrite (Rmax_left a b) by lra
              |rewrite (Rmax_right a b) by lra]
    end.

Lemma cornerBox_solidA :
  cornerBox (geometryGroup sampleContext solidA)
  = {| box_min := vec3 0 0 0; box_max := vec3 3 4 0 |}.
Proof.
  unfold cornerBox, geometryGroup, solidA. simpl.
  unfold expandByPoint, fontSize. simpl.
  f_equal; apply vec3_eq; minmax; lra.
Qed.

Lemma cornerBox_solidB :
  cornerBox (geometryGroup sampleContext solidB)
  = {| box_min := vec3 0 0 0; box_max := vec3 4 3 12 |}.
Proof.
  unfold cornerBox, geometryGroup, solidB. simpl.
  unfold expandByPoint, fontSize. simpl.
  f_equal; apply vec3_eq; minmax; lra.
Qed.

Lemma maxDim_of_box box o a b c :
  0 <= a -> 0 <= b -> 0 <= c ->
  box o = {| box_min := vec3 0 0 0; box_max := vec3 a b c |} ->
  maxDimOf box o = Rmax (Rmax a b) c
  /\ diagonal (box o) = sqrt (a * a + b * b + c * c).
Proof.
  intros Ha Hb Hc Hbox. unfold maxDimOf, diagonal, getSize, isEmpty.
  rewrite Hbox. simpl.
  rewrite (Rltb_ge a 0), (Rltb_ge b 0), (Rltb_ge c 0) by lra. simpl.
  unfold Vector3.length, Vector3.lengthSq. simpl.
  split; [f_equal; [f_equal|]; ring|f_equal; ring].
Qed.

(** C9, as stated, fails: the factor is not proportional to the diagonal
    of the bounding box.  Of two solids with one label each, the first
    has a box of 3 by 4 by 0 (diagonal 5) and its label is scaled by
    4/15; the second has a box of 4 by 3 by 12 (diagonal 13) and its label
    is scaled by 12/15; no constant relates both factors to the
    diagonals. *)
Lemma C9_counterexample_not_proportional_to_diagonal :
  exists gA gB scA scB,
    buildGeometryModel sampleContext cornerBox solidA = Ok gA
    /\ buildGeometryModel sampleContext cornerBox solidB = Ok gB
    /\ spriteScales (geometryGroup sampleContext solidA) = [scA]
    /\ spriteScales (geometryGroup sampleContext solidB) = [scB]
    /\ spriteScales gA = [Vector3.multiplyScalar scA (4 / 15)]
    /\ spriteScales gB = [Vector3.multiplyScalar scB (12 / 15)]
    /\ diagonal (cornerBox (geometryGroup sampleContext solidA)) = 5
    /\ diagonal (cornerBox (geometryGroup sampleContext solidB)) = 13
    /\ ~ exists k : R, 4 / 15 = k * 5 /\ 12 / 15 = k * 13.
Proof.
  destruct (maxDim_of_box cornerBox (geometryGroup sampleContext solidA)
              3 4 0) as [HmA HdA]; [lra|lra|lra|apply cornerBox_solidA|].
  destruct (maxDim_of_box cornerBox (geometryGroup sampleContext solidB)
              4 3 12) as [HmB HdB]; [lra|lra|lra|apply cornerBox_solidB|].
  assert (HmA' : maxDimOf cornerBox (geometryGroup sampleContext solidA) = 4)
    by (rewrite HmA; minmax; done).
  assert (HmB' : maxDimOf cornerBox (geometryGroup sampleContext solidB) = 12)
    by (rewrite HmB; minmax; done).
  destruct (buildGeometryModel sampleContext cornerBox solidA) as [gA|e]
    eqn:HbA.
  2:{ exfalso. revert HbA. unfold buildGeometryModel. simpl.
      by destruct (Rltb _ _). }
  destruct (buildGeometryModel sampleContext cornerBox solidB) as [gB|e]
    eqn:HbB.
  2:{ exfalso. revert HbB. unfold buildGeometryModel. simpl.
      by destruct (Rltb _ _). }
  pose proof (buildFor_rescales sampleContext cornerBox geometry solidA gA HbA)
    as HgA.
  pose proof (buildFor_rescales sampleContext cornerBox geometry solidB gB HbB)
    as HgB.
  simpl in HgA, HgB. rewrite HmA' in HgA. rewrite HmB' in HgB.
  rewrite (Rltb_lt 0.001 4) in HgA by lra.
  rewrite (Rltb_lt 0.001 12) in HgB by lra.
  exists gA, gB. eexists _, _.
  split; [done|]. split; [done|].
  split; [reflexivity|]. split; [reflexivity|].
  split; [rewrite HgA; reflexivity|]. split; [rewrite HgB; reflexivity|].
  split.
  { rewrite HdA. replace (3 * 3 + 4 * 4 + 0 * 0) with (5 * 5) by ring.
    apply sqrt_square. lra. }
  split.
  { rewrite HdB. replace (4 * 4 + 3 * 3 + 12 * 12) with (13 * 13) by ring.
    apply sqrt_square. lra. }
  intros (k & H1 & H2). lra.
Qed.

Lemma C9_witness_solid :
  exists g,
    buildFor sampleContext cornerBox (Some geometry) solidA = Ok g
    /\ (0.001 < maxDimOf cornerBox (assembled sampleContext geometry solidA)
        -> spriteScales g
           = map (fun sc =>
                    Vector3.multiplyScalar sc
                      (maxDimOf cornerBox
                         (assembled sampleContext geometry solidA)
                       / labelDivisor geometry))
                 (spriteScales (assembled sampleContext geometry solidA))).
Proof.
  destruct (buildFor sampleContext cornerBox (Some geometry) solidA) as [g|e]
    eqn:Hb.
  2:{ exfalso. revert Hb. unfold buildFor, buildGeometryModel. simpl.
      by destruct (Rltb _ _). }
  exists g. split; [reflexivity|]. intros Hbig.
  destruct (C9_labels_scaled_by_largest_side sampleContext cornerBox geometry
              solidA g Hb) as [H _].
  by destruct (H Hbig) as (_ & Hs & _).
Defined.

(** ** Solids: sample runs *)

Lemma C4_witness_nine_and_one :
  vertices nineAndOne = Some tetraVertices /\ tetraVertices <> []
  /\ (exists fs, faces nineAndOne = Some fs /\ fs <> []
        /\ List.length
             (primitivesOf
                (buildGeometryModel sampleContext cornerBox nineAndOne))
           = validTriangleCount tetraVertices fs
        /\ validTriangleCount tetraVertices fs = 9%nat
        /\ map faceIdOf
             (primitivesOf
                (buildGeometryModel sampleContext cornerBox nineAndOne))
           = [Some 0; Some 0; Some 0; Some 1; Some 1; Some 1;
              Some 2; Some 2; Some 2]%nat).
Proof.
  split; [reflexivity|]. split; [discriminate|].
  eexists. split; [reflexivity|]. split; [discriminate|].
  destruct (C4_primitives_match_valid_triangles sampleContext cornerBox
              nineAndOne tetraVertices _ eq_refl
              ltac:(discriminate) eq_refl ltac:(discriminate))
    as (Hlen & _ & Hids).
  split; [exact Hlen|]. split; [reflexivity|]. rewrite Hids. reflexivity.
Defined.

Lemma C5_witness_nine_and_one :
  vertices nineAndOne = Some tetraVertices /\ tetraVertices <> []
  /\ (exists fs, faces nineAndOne = Some fs /\ fs <> []
        /\ validTriangleCount tetraVertices fs = 9%nat
        /\ totalTriangles fs = 10%nat
        /\ defectiveTriangle tetraVertices triangle0_1_99
        /\ (exists g,
              buildGeometryModel sampleContext cornerBox nineAndOne = Ok g
              /\ List.length (trianglePrimitives g) = 9%nat)
        /\ List.length (geometryWarnings nineAndOne) = 1%nat).
Proof.
  split; [reflexivity|]. split; [discriminate|].
  eexists. split; [reflexivity|]. split; [discriminate|].
  destruct (C5_defective_triangles_dropped sampleContext cornerBox
              nineAndOne tetraVertices _ eq_refl
              ltac:(discriminate) eq_refl ltac:(discriminate))
    as (Hdrop & _ & Hok & Hwarn).
  split; [reflexivity|]. split; [reflexivity|]. split.
  - apply (Hdrop (faceOf []) 0%nat). eexists. reflexivity.
  - split.
    + destruct Hok as (g & Hg & Hlen); [discriminate|].
      exists g. split; [exact Hg|exact Hlen].
    + change (validTriangleCount tetraVertices _) with 9%nat in Hwarn.
      change (totalTriangles _) with 10%nat in Hwarn. lia.
Defined.

(** A solid in which every triangle is defective is refused with the
    empty-model error. *)
Example all_defective_is_refused ctx box :
  buildGeometryModel ctx box allDefective = Throw NoValidShapes.
Proof. reflexivity. Qed.


(** ** Replacing the active model *)

Lemma removeGeneratedObject_spec st :
  generatedObject (removeGeneratedObject st) = None
  /\ (forall id root, generatedObject st = Some (id, root) ->
        id ∉ sceneModels (removeGeneratedObject st))
  /\ currentMode (removeGeneratedObject st) = currentMode st
  /\ nextObjectId (removeGeneratedObject st) = nextObjectId st.
Proof.
  unfold removeGeneratedObject.
  destruct (generatedObject st) as [[id root]|] eqn:Hg; simpl.
  - split; [done|]. split; [|done]. intros id' root' [= <- <-] Hin.
    apply list_elem_of_In, filter_In in Hin as [_ Hin].
    by rewrite Nat.eqb_refl in Hin.
  - rewrite Hg. done.
Qed.

Lemma afterReset_fields st :
  generatedObject (afterReset st) = None
  /\ (forall id root, generatedObject st = Some (id, root) ->
        id ∉ sceneModels (afterReset st))
  /\ currentMode (afterReset st) = currentMode st
  /\ selectedImage (afterReset st) = selectedImage st
  /\ nextObjectId (afterReset st) = nextObjectId st
  /\ (generatedObject st = None -> sceneModels (afterReset st) = sceneModels st).
Proof.
  set (st0 := clearError (set_selectionDetails true
                            (selectionDetailsContent st) st)).
  destruct (removeGeneratedObject_spec st0) as (H1 & H2 & H3 & H4).
  split; [exact H1|]. split; [exact H2|]. split; [exact H3|].
  split; [|split; [exact H4|]].
  - unfold afterReset. fold st0. unfold removeGeneratedObject.
    by destruct (generatedObject st0) as [[? ?]|].
  - intros Hn. unfold afterReset. fold st0. unfold removeGeneratedObject.
    change (generatedObject st0) with (generatedObject st). by rewrite Hn.
Qed.

(** A generation attempt whose build succeeds: the built model is added
    to the scene the attempt has emptied. *)
Lemma handleGenerateClick_built ctx box st mode data g :
  selectedImage st = true ->
  currentMode st = Some mode ->
  buildFor ctx box (Some mode) data = Ok g ->
  isModelValid g = true ->
  handleGenerateClick ctx box (Document data) st
  = addToScene box g (afterReset st).
Proof.
  intros Himg Hmode Hb Hv. unfold handleGenerateClick.
  rewrite Himg, Hmode. cbn [negb orb bool_decide decide_rel].
  rewrite bool_decide_eq_true_2 by eauto. cbn [negb].
  fold (afterReset st).
  destruct (afterReset_fields st) as (_ & _ & Hm & _).
  rewrite Hm, Hmode, Hb, Hv. done.
Qed.

Lemma handleGenerateClick_failed ctx box st mode data e :
  selectedImage st = true ->
  currentMode st = Some mode ->
  buildFor ctx box (Some mode) data = Throw e ->
  handleGenerateClick ctx box (Document data) st
  = showError (message e) (afterReset st).
Proof.
  intros Himg Hmode Hb. unfold handleGenerateClick.
  rewrite Himg, Hmode. cbn [negb orb].
  rewrite bool_decide_eq_true_2 by eauto. cbn [negb].
  fold (afterReset st).
  destruct (afterReset_fields st) as (_ & _ & Hm & _).
  rewrite Hm, Hmode, Hb. done.
Qed.

Lemma addToScene_fields box g st :
  generatedObject (addToScene box g st)
  = Some (nextObjectId st, recentre (getCenter (box g)) g)
  /\ sceneModels (addToScene box g st) = sceneModels st ++ [nextObjectId st]
  /\ currentMode (addToScene box g st) = currentMode st
  /\ selectedImage (addToScene box g st) = selectedImage st
  /\ highlightedObjects (addToScene box g st) = highlightedObjects st
  /\ nextObjectId (addToScene box g st) = S (nextObjectId st).
Proof. done. Qed.

Lemma generatedObject_resetApp st : generatedObject (resetApp st) = None.
Proof.
  unfold resetApp.
  set (st0 := clearError _).
  change (generatedObject (removeGeneratedObject st0) = None).
  apply removeGeneratedObject_spec.
Qed.

Lemma onCanvasClick_no_model ctx hit st :
  generatedObject st = None -> onCanvasClick ctx hit st = clearSelection st.
Proof.
  intros Hn. unfold onCanvasClick.
  change (generatedObject (clearSelection st)) with (generatedObject st).
  by rewrite Hn.
Qed.

(** A first generation whose build succeeds makes the built model the
    active one. *)
Lemma handleGenerateClick_first ctx box st mode data g :
  selectedImage st = true ->
  currentMode st = Some mode ->
  generatedObject st = None ->
  buildFor ctx box (Some mode) data = Ok g ->
  isModelValid g = true ->
  generatedObject (handleGenerateClick ctx box (Document data) st)
  = Some (nextObjectId st, recentre (getCenter (box g)) g)
  /\ sceneModels (handleGenerateClick ctx box (Document data) st)
     = sceneModels st ++ [nextObjectId st]
  /\ selectedImage (handleGenerateClick ctx box (Document data) st) = true
  /\ currentMode (handleGenerateClick ctx box (Document data) st)
     = Some mode.
Proof.
  intros Himg Hmode Hnone Hb Hv.
  rewrite (handleGenerateClick_built _ _ _ _ _ _ Himg Hmode Hb Hv).
  destruct (addToScene_fields box g (afterReset st))
    as (Hg & Hs & Hm & Hi & _).
  destruct (afterReset_fields st) as (_ & _ & Hm0 & Hi0 & Hn0 & Hs0).
  rewrite Hg, Hs, Hm, Hi, Hm0, Hi0, Hn0, (Hs0 Hnone). done.
Qed.

(** A later generation whose build fails leaves no active model and
    removes the previous one from the scene. *)
Lemma handleGenerateClick_regenerate_failed ctx box st mode data e id root :
  selectedImage st = true ->
  currentMode st = Some mode ->
  generatedObject st = Some (id, root) ->
  sceneModels st = [id] ->
  buildFor ctx box (Some mode) data = Throw e ->
  generatedObject (handleGenerateClick ctx box (Document data) st) = None
  /\ sceneModels (handleGenerateClick ctx box (Document data) st) = [].
Proof.
  intros Himg Hmode Hg Hs Hb.
  rewrite (handleGenerateClick_failed _ _ _ _ _ _ Himg Hmode Hb).
  destruct (afterReset_fields st) as (Hnone & _).
  split; [exact Hnone|].
  change (sceneModels (removeGeneratedObject
            (clearError (set_selectionDetails true
                           (selectionDetailsContent st) st))) = []).
  unfold removeGeneratedObject.
  change (generatedObject (clearError _)) with (generatedObject st).
  rewrite Hg.
  change (List.filter (fun i => negb (i =? id)%nat) (sceneModels st) = []).
  rewrite Hs. simpl. by rewrite Nat.eqb_refl.
Qed.

Lemma solidA_builds :
  exists g, buildFor sampleContext cornerBox (Some geometry) solidA = Ok g
            /\ isModelValid g = true.
Proof.
  unfold buildFor, buildGeometryModel. simpl.
  destruct (Rltb 0.001 _); eexists; split; reflexivity.
Qed.

(** C2, as stated, fails: a generation attempt whose build is refused
    leaves no active model, although one was active before. *)
Lemma C2_counterexample_failed_rebuild_discards_model :
  let st1 :=
    handleGenerateClick sampleContext cornerBox (Document solidA)
                        readyForGeometry in
  let st2 :=
    handleGenerateClick sampleContext cornerBox (Document allDefective) st1 in
  is_Some (generatedObject st1)
  /\ sceneModels st1 = [0%nat]
  /\ buildGeometryModel sampleContext cornerBox allDefective
     = Throw NoValidShapes
  /\ kind NoValidShapes = EmptyModelError
  /\ generatedObject st2 = None
  /\ sceneModels st2 = [].
Proof.
  cbv zeta. destruct solidA_builds as (g & Hb & Hv).
  destruct (handleGenerateClick_first sampleContext cornerBox
              readyForGeometry geometry solidA g
              eq_refl eq_refl eq_refl Hb Hv) as (Hg & Hs & Himg & Hm).
  destruct (handleGenerateClick_regenerate_failed sampleContext cornerBox
              _ geometry allDefective NoValidShapes _ _
              Himg Hm Hg Hs eq_refl) as (Hn2 & Hs2).
  split; [rewrite Hg; eauto|]. split; [exact Hs|].
  split; [reflexivity|]. split; [reflexivity|].
  split; [exact Hn2|exact Hs2].
Qed.

(** C2, amended.  A generation attempt first detaches the active model
    from the scene and forgets it, then builds.  When the build fails with
    a fatal error, the error message is shown and no model is active: the
    scene holds none of the previous model's primitives and a click picks
    nothing.  Loading a saved session whose build fails ends in the same
    way. *)
Theorem C2_failed_build_leaves_no_model
    (ctx : option (string -> R)) (box : Object3D -> Box3) (st : State)
    (mode : Mode) (data : ModelData) (e : BuildError) :
  selectedImage st = true ->
  currentMode st = Some mode ->
  buildFor ctx box (Some mode) data = Throw e ->
  let st' := handleGenerateClick ctx box (Document data) st in
  generatedObject st' = None
  /\ (forall id root, generatedObject st = Some (id, root) ->
        id ∉ sceneModels st')
  /\ errorMessage st' = Some (message e)
  /\ (forall hit,
        highlightedObjects (onCanvasClick ctx hit st') = []
        /\ currentSelectionDetails (onCanvasClick ctx hit st') = None)
  /\ (forall st0,
        generatedObject
          (loadSessionState ctx box
             {| session_mode := mode; session_modelData := Some data |} st0)
        = None).
Proof.
  intros Himg Hmode Hb st'. unfold st'.
  rewrite (handleGenerateClick_failed _ _ _ _ _ _ Himg Hmode Hb).
  destruct (afterReset_fields st) as (Hnone & Hgone & _).
  split; [exact Hnone|]. split; [exact Hgone|]. split; [reflexivity|]. split.
  - intros hit. rewrite onCanvasClick_no_model by exact Hnone.
    split; reflexivity.
  - intros s0. unfold loadSessionState.
    cbn [session_modelData session_mode]. rewrite Hb.
    apply generatedObject_resetApp.
Qed.

Lemma C2_witness_all_defective :
  selectedImage readyForGeometry = true
  /\ currentMode readyForGeometry = Some geometry
  /\ buildFor sampleContext cornerBox (Some geometry) allDefective
     = Throw NoValidShapes
  /\ generatedObject
       (handleGenerateClick sampleContext cornerBox (Document allDefective)
                            readyForGeometry) = None.
Proof.
  split; [reflexivity|]. split; [reflexivity|]. split; [reflexivity|].
  exact (proj1 (C2_failed_build_leaves_no_model sampleContext cornerBox
                  readyForGeometry geometry allDefective NoValidShapes
                  eq_refl eq_refl eq_refl)).
Defined.

(** ** The highlight set *)

Lemma sameCore_refl s : sameCore s s.
Proof. done. Qed.

Lemma sameCore_trans s1 s2 s3 :
  sameCore s1 s2 -> sameCore s2 s3 -> sameCore s1 s3.
Proof.
  intros (? & ? & ? & ?) (? & ? & ? & ?). repeat split; congruence.
Qed.

Lemma sameCore_highlight r s s' :
  sameCore s s' -> sameCore (highlight r s) (highlight r s').
Proof.
  intros (Hg & Hm & Hc & Hh). unfold highlight. rewrite Hc.
  destruct (materialColor s' !! r); [|done].
  repeat split; simpl; congruence.
Qed.

Lemma sameCore_highlightAll id ps s s' :
  sameCore s s' -> sameCore (highlightAll id ps s) (highlightAll id ps s').
Proof.
  revert s s'. induction ps as [|p ps IH]; intros s s' H; [done|].
  simpl. apply IH. by apply sameCore_highlight.
Qed.

Lemma highlightAll_app id ps qs s :
  highlightAll id (ps ++ qs) s = highlightAll id qs (highlightAll id ps s).
Proof. apply foldl_app. Qed.

(** A loop whose body highlights some meshes and leaves the rest of the
    core alone is a run of [highlightAll] over the meshes it selects. *)
Lemma foldl_sameCore {A : Type} (step : State -> A -> State)
    (sel : A -> list (list nat)) (id : nat) (xs : list A) (s s' : State) :
  (forall t t' x, sameCore t t' ->
                  sameCore (step t x) (highlightAll id (sel x) t')) ->
  sameCore s s' ->
  sameCore (foldl step s xs) (highlightAll id (concat (map sel xs)) s').
Proof.
  intros Hstep. revert s s'. induction xs as [|x xs IH]; intros s s' H.
  - done.
  - simpl. rewrite highlightAll_app. apply IH. by apply Hstep.
Qed.

Lemma concat_option_list {A B : Type} (sel : A -> option B) (xs : list A) :
  concat (map (fun x => option_list (sel x)) xs) = omap sel xs.
Proof.
  induction xs as [|x xs IH]; [done|]. simpl.
  destruct (sel x); simpl; first [exact IH | f_equal; exact IH].
Qed.

Lemma highlightMeshesUnder_core id q group s s' :
  sameCore s s' ->
  sameCore (highlightMeshesUnder id q group s)
           (highlightAll id (subtreeTargets q group) s').
Proof.
  intros H. unfold highlightMeshesUnder, subtreeTargets, meshPaths.
  rewrite <- concat_option_list.
  assert (Hmap : forall l : list (list nat * Object3D),
             map (app q)
                 (concat (map (fun x => option_list
                                          (if isMesh x.2 then Some x.1
                                           else None)) l))
             = concat (map (fun x => if isMesh x.2 then [q ++ x.1] else [])
                           l)).
  { induction l as [|x l IH]; [done|]. simpl. rewrite map_app, IH.
    by destruct (isMesh x.2). }
  rewrite Hmap. apply foldl_sameCore; [|done].
  intros t t' x Ht. destruct (isMesh x.2); [|done].
  simpl. by apply sameCore_highlight.
Qed.

Lemma highlightFace_core id root f s s' :
  sameCore s s' ->
  sameCore (highlightFace id root f s)
           (highlightAll id (faceTargets root f) s').
Proof.
  intros H. unfold highlightFace, faceTargets.
  rewrite <- concat_option_list. apply foldl_sameCore; [|done].
  intros t t' x Ht. destruct (_ && _); [|done].
  simpl. by apply sameCore_highlight.
Qed.

Lemma sameCore_clearSelection s :
  sameCore (clearSelection s) (clearHighlights s).
Proof. done. Qed.

Lemma sameCore_displaySelectionDetails d s :
  sameCore (displaySelectionDetails d s) s.
Proof.
  unfold displaySelectionDetails. destruct d as [d|]; [|done].
  by destruct (renders d).
Qed.

Lemma sameCore_selection sel d s s' :
  sameCore s s' ->
  sameCore (set_currentSelectionDetails sel (displaySelectionDetails d s)) s'.
Proof.
  intros H. unfold displaySelectionDetails.
  destruct d as [d|]; [destruct (renders d)|]; exact H.
Qed.

(** Every select operation clears the highlight set and then highlights
    exactly the primitives it resolves to. *)
Lemma select_core ctx op st id root :
  generatedObject st = Some (id, root) ->
  sameCore (select ctx op st)
           (highlightAll id (resolved (currentMode st) root op)
                         (clearHighlights st)).
Proof.
  intros Hg. destruct op as [[p|]|sel]; simpl.
  - (* a click that hits the object at [p] *)
    unfold onCanvasClick.
    assert (Hg' : generatedObject (clearSelection st) = Some (id, root))
      by exact Hg.
    rewrite Hg'. unfold handleHighlight.
    assert (Hg'' : generatedObject
                     (set_angleVisualizationGroup [] (clearSelection st))
                   = Some (id, root)) by exact Hg.
    rewrite Hg''. unfold pickTargets.
    destruct (nodeAt root p) as [[ud g c pos| |]|]; try done.
    change (currentMode (set_angleVisualizationGroup [] (clearSelection st)))
      with (currentMode st).
    destruct (currentMode st) as [[|]|]; try done.
    + destruct (faceId ud) as [f|]; [|done].
      apply highlightFace_core.
      destruct (details ud); [by apply sameCore_selection|done].
    + destruct (findBondGroup root p) as [q|].
      * destruct (nodeAt root q) as [bg|]; [|done].
        apply highlightMeshesUnder_core.
        destruct (details (userDataOf bg)) as [[| |b]|]; try done.
        by apply sameCore_selection.
      * destruct (details ud) as [[|a|]|]; try done.
        destruct (truthy (ad_element a)); [|done].
        apply (sameCore_highlight (id, p)). by apply sameCore_selection.
  - (* a click that hits nothing *)
    unfold onCanvasClick.
    assert (Hg' : generatedObject (clearSelection st) = Some (id, root))
      by exact Hg.
    by rewrite Hg'.
  - (* a stored selection *)
    unfold reHighlightSelection. rewrite Hg.
    set (s0 := displaySelectionDetails _ _).
    assert (H0 : sameCore s0 (clearHighlights st)).
    { unfold s0. eapply sameCore_trans;
        [apply sameCore_displaySelectionDetails|done]. }
    clearbody s0. destruct sel as [f d|i d|s e d]; simpl.
    + by apply highlightFace_core.
    + unfold atomTargets. rewrite <- concat_option_list.
      apply foldl_sameCore; [|done].
      intros t t' x Ht. unfold isAtomMesh.
      destruct x.2 as [ud g c pos| |]; try done.
      destruct (details ud) as [[|a|]|]; try done.
      destruct (bool_decide _); [|done].
      simpl. apply (sameCore_highlight (id, x.1)) in Ht. exact Ht.
    + unfold bondTargets. rewrite <- concat_option_list.
      assert (Hc : forall l : list (list nat * Object3D),
                 concat (concat (map (fun x => option_list
                            (if isBondGroup s e x.2
                             then Some (subtreeTargets x.1 x.2) else None)) l))
                 = concat (map (fun x => if isBondGroup s e x.2
                                         then subtreeTargets x.1 x.2 else [])
                               l)).
      { induction l as [|x l IH]; [done|]. simpl. rewrite concat_app, IH.
        destruct (isBondGroup s e x.2); simpl; [by rewrite app_nil_r|done]. }
      rewrite Hc. apply foldl_sameCore; [|done].
      intros t t' x Ht. unfold isBondGroup.
      destruct x.2 as [| |ud pos q ch] eqn:Hx; try done.
      destruct (details ud) as [[| |b]|]; try done.
      destruct (_ && _); [|done].
      rewrite <- Hx. by apply highlightMeshesUnder_core.
Qed.

(** The colours after the restore loop: a mesh that is not recorded keeps
    its colour; a recorded mesh gets the recorded colour back. *)
Lemma restore_lookup_other (l : list (nat * list nat * Z))
    (m : gmap (nat * list nat) Z) (k : nat * list nat) :
  k ∉ l.*1 ->
  foldl (fun m h => <[h.1 := h.2]> m) m l !! k = m !! k.
Proof.
  revert m. induction l as [|h l IH]; intros m Hk; [done|].
  simpl in *. apply not_elem_of_cons in Hk as [Hne Hk].
  rewrite IH by done. by rewrite lookup_insert_ne.
Qed.

Lemma restore_lookup_recorded (l : list (nat * list nat * Z))
    (m : gmap (nat * list nat) Z) (k : nat * list nat) (c : Z) :
  k ∈ l.*1 ->
  (forall c', (k, c') ∈ l -> c' = c) ->
  foldl (fun m h => <[h.1 := h.2]> m) m l !! k = Some c.
Proof.
  revert m. induction l as [|[k' c'] l IH]; intros m Hk Hc.
  - by apply elem_of_nil in Hk.
  - simpl in *. destruct (decide (k ∈ l.*1)) as [Hin|Hnin].
    + apply IH; [done|]. intros c'' H. apply Hc. by right.
    + rewrite restore_lookup_other by done.
      apply elem_of_cons in Hk as [->|Hk]; [|done].
      rewrite lookup_insert_eq. f_equal. apply Hc. by left.
Qed.

Lemma highlight_fields r st :
  generatedObject (highlight r st) = generatedObject st
  /\ currentMode (highlight r st) = currentMode st.
Proof. unfold highlight. by destruct (materialColor st !! r). Qed.

Lemma highlightAll_fields id ps st :
  generatedObject (highlightAll id ps st) = generatedObject st
  /\ currentMode (highlightAll id ps st) = currentMode st.
Proof.
  revert st. induction ps as [|p ps IH]; intros st; [done|].
  simpl. destruct (IH (highlight (id, p) st)) as [-> ->].
  apply highlight_fields.
Qed.

(** Highlighting a duplicate-free list of meshes that all show their
    built colour records exactly those meshes with those colours and
    turns exactly them to the highlight colour. *)
Lemma highlightAll_spec id root ps st :
  NoDup ps ->
  (forall p, p ∈ ps ->
     exists c, builtColor root p = Some c
               /\ materialColor st !! (id, p) = Some c) ->
  highlightedObjects (highlightAll id ps st)
  = highlightedObjects st
    ++ omap (fun p => pair (id, p) <$> builtColor root p) ps
  /\ (highlightedObjects (highlightAll id ps st)).*1
     = (highlightedObjects st).*1 ++ map (pair id) ps
  /\ (forall r, materialColor (highlightAll id ps st) !! r
                = if decide (r ∈ map (pair id) ps) then Some HIGHLIGHT
                  else materialColor st !! r).
Proof.
  intros Hnd. revert st. induction Hnd as [|p ps Hp Hnd IH]; intros st Hps.
  - simpl. rewrite !app_nil_r. done.
  - destruct (Hps p) as (c & Hc & Hm); [by left|].
    cbn [highlightAll foldl]. fold (highlightAll id ps (highlight (id, p) st)).
    assert (Hst : highlight (id, p) st
                  = set_highlightedObjects
                      (highlightedObjects st ++ [((id, p), c)])
                      (set_materialColor
                         (<[(id, p) := HIGHLIGHT]> (materialColor st)) st)).
    { unfold highlight. by rewrite Hm. }
    assert (F1 : highlightedObjects (highlight (id, p) st)
                 = highlightedObjects st ++ [((id, p), c)])
      by (by rewrite Hst).
    assert (F2 : materialColor (highlight (id, p) st)
                 = <[(id, p) := HIGHLIGHT]> (materialColor st))
      by (by rewrite Hst).
    destruct (IH (highlight (id, p) st)) as (H1 & H2 & H3).
    { intros p' Hp'. destruct (Hps p') as (c' & Hc' & Hm'); [by right|].
      exists c'. split; [done|]. rewrite F2.
      rewrite lookup_insert_ne; [done|]. intros [= ->]. done. }
    rewrite H2, H1, F1. simpl. rewrite Hc. simpl.
    rewrite fmap_app, <- !app_assoc. split; [done|]. split; [done|].
    intros r. rewrite H3, F2.
    change (map (pair id) (p :: ps)) with ((id, p) :: map (pair id) ps).
    destruct (decide (r ∈ map (pair id) ps)) as [Hin|Hnin].
    + rewrite decide_True; [done|by right].
    + destruct (decide (r = (id, p))) as [->|Hne].
      * rewrite lookup_insert_eq. rewrite decide_True; [done|by left].
      * rewrite lookup_insert_ne by done.
        rewrite decide_False; [done|]. intros Hin.
        apply elem_of_cons in Hin as [?|?]; done.
Qed.

(** After the restore loop of a consistent state nothing is recorded and
    every mesh of the model shows its built colour. *)
Lemma clearHighlights_consistent st id root :
  consistent st id root ->
  highlightedObjects (clearHighlights st) = []
  /\ forall p c, builtColor root p = Some c ->
                 materialColor (clearHighlights st) !! (id, p) = Some c.
Proof.
  intros Hc. split; [done|]. intros p c Hb. simpl.
  destruct (decide ((id, p) ∈ (highlightedObjects st).*1)) as [Hin|Hnin].
  - apply restore_lookup_recorded; [done|].
    intros c' Hc'. apply (recorded _ _ _ Hc) in Hc'. congruence.
  - rewrite restore_lookup_other by done.
    rewrite (coloured _ _ _ Hc p c Hb). by rewrite decide_False.
Qed.

(** One select operation on a consistent state, given that what it
    resolves to is a duplicate-free list of meshes of one entity. *)
Lemma select_step ctx op st id root :
  consistent st id root ->
  let ts := resolved (currentMode st) root op in
  NoDup ts ->
  (forall p, p ∈ ts -> is_Some (builtColor root p)) ->
  (exists e, forall p, p ∈ ts -> entityOf root p = Some e) ->
  consistent (select ctx op st) id root
  /\ currentMode (select ctx op st) = currentMode st
  /\ (highlightedObjects (select ctx op st)).*1 = map (pair id) ts
  /\ (forall p c, builtColor root p = Some c ->
        materialColor (select ctx op st) !! (id, p)
        = Some (if decide (p ∈ ts) then HIGHLIGHT else c)).
Proof.
  intros Hc ts Hnd Hmesh [e He].
  destruct (select_core ctx op st id root (active _ _ _ Hc))
    as (Hg & Hm & Hcol & Hhl).
  fold ts in Hg, Hm, Hcol, Hhl.
  destruct (clearHighlights_consistent st id root Hc) as [Hnil Hbuilt].
  destruct (highlightAll_spec id root ts (clearHighlights st) Hnd)
    as (H1 & H2 & H3).
  { intros p Hp. destruct (Hmesh p Hp) as [c Hb]. exists c.
    split; [done|]. by apply Hbuilt. }
  destruct (highlightAll_fields id ts (clearHighlights st)) as [Hf1 Hf2].
  rewrite Hnil in H1, H2. simpl in H1, H2.
  assert (Hin : forall p, (id, p) ∈ map (pair id) ts <-> p ∈ ts).
  { intros p. rewrite list_elem_of_fmap. split.
    - intros (p' & [= ->] & ?). done.
    - intros ?. by exists p. }
  assert (Hcolour : forall p c, builtColor root p = Some c ->
            materialColor (select ctx op st) !! (id, p)
            = Some (if decide (p ∈ ts) then HIGHLIGHT else c)).
  { intros p c Hb. rewrite Hcol, H3.
    destruct (decide ((id, p) ∈ map (pair id) ts)) as [Hi|Hi].
    - rewrite decide_True; [done|]. by apply Hin.
    - rewrite decide_False; [by apply Hbuilt|]. intros ?. by apply Hi, Hin. }
  split; [|split; [|split]].
  - constructor.
    + rewrite Hg, Hf1. exact (active _ _ _ Hc).
    + rewrite Hm, Hf2. exact (shaped _ _ _ Hc).
    + intros p c. rewrite Hhl, H1. intros Hp.
      apply list_elem_of_omap in Hp as (p' & _ & Hp').
      destruct (builtColor root p') as [c'|] eqn:Hb; [|done].
      simpl in Hp'. by injection Hp' as <- <-.
    + intros p c Hb. rewrite Hhl, H2, (Hcolour p c Hb).
      destruct (decide (p ∈ ts)) as [Hp|Hp].
      * rewrite decide_True; [done|]. by apply Hin.
      * rewrite decide_False; [done|]. intros ?. by apply Hp, Hin.
    + exists e. intros p. rewrite Hhl, H2, Hin. apply He.
  - by rewrite Hm, Hf2.
  - by rewrite Hhl, H2.
  - exact Hcolour.
Qed.


(** ** What the operations resolve to *)

Lemma elem_of_concat {A : Type} (x : A) (ls : list (list A)) :
  x ∈ concat ls <-> exists l, x ∈ l /\ l ∈ ls.
Proof.
  induction ls as [|l ls IH]; simpl.
  - split; [intros H; by apply elem_of_nil in H|].
    intros (l & _ & H). by apply elem_of_nil in H.
  - rewrite elem_of_app, IH. split.
    + intros [H|(l' & ? & ?)]; [exists l; split; [done|by left]|].
      exists l'. split; [done|by right].
    + intros (l' & Hx & Hl). apply elem_of_cons in Hl as [->|Hl];
        [by left|right; by exists l'].
Qed.

Lemma nodeAt_app root q g p :
  nodeAt root q = Some g -> nodeAt root (q ++ p) = nodeAt g p.
Proof.
  revert root. induction q as [|k q IH]; intros root.
  - simpl. by intros [= ->].
  - simpl. destruct (childrenOf root !! k) as [c|]; [apply IH|done].
Qed.

Lemma nodeAt_leaf o k p :
  isGroup o = false -> nodeAt o (k :: p) = None.
Proof. by destruct o. Qed.

Lemma builtColor_mesh root p ud g c pos :
  nodeAt root p = Some (Mesh ud g c pos) -> builtColor root p = Some c.
Proof. unfold builtColor. by intros ->. Qed.

Lemma NoDup_omap_fst {A : Type} (test : A -> bool)
    (l : list (list nat * A)) :
  NoDup l.*1 ->
  NoDup (omap (fun pc => if test pc.2 then Some pc.1 else None) l).
Proof.
  induction l as [|[p n] l IH]; [constructor|].
  simpl. intros Hnd. apply NoDup_cons in Hnd as [Hp Hnd].
  destruct (test n); simpl; [|by apply IH].
  constructor; [|by apply IH].
  intros Hin. apply Hp. apply list_elem_of_omap in Hin as ([p' n'] & Hin & Hsel).
  simpl in Hsel. destruct (test n'); [|done]. injection Hsel as ->.
  apply list_elem_of_fmap. by exists (p, n').
Qed.

Lemma elem_of_meshPaths o p :
  p ∈ meshPaths o <-> exists n, nodeAt o p = Some n /\ isMesh n = true.
Proof.
  unfold meshPaths. rewrite list_elem_of_omap. split.
  - intros ([p' n] & Hin & Hsel). simpl in Hsel.
    destruct (isMesh n) eqn:Hm; [|done]. injection Hsel as ->.
    exists n. by rewrite <- traverse_nodeAt.
  - intros (n & Hn & Hm). exists (p, n). simpl. rewrite Hm.
    by rewrite traverse_nodeAt.
Qed.

Lemma NoDup_meshPaths o : NoDup (meshPaths o).
Proof. apply NoDup_omap_fst, NoDup_traverse. Qed.

Lemma elem_of_subtreeTargets q g p :
  p ∈ subtreeTargets q g
  <-> exists p' n, p = q ++ p' /\ nodeAt g p' = Some n /\ isMesh n = true.
Proof.
  unfold subtreeTargets. rewrite list_elem_of_fmap. split.
  - intros (p' & -> & Hin). apply elem_of_meshPaths in Hin as (n & ? & ?).
    by exists p', n.
  - intros (p' & n & -> & ? & ?). exists p'. split; [done|].
    apply elem_of_meshPaths. by exists n.
Qed.

Lemma NoDup_subtreeTargets q g : NoDup (subtreeTargets q g).
Proof.
  unfold subtreeTargets. apply NoDup_fmap; [|apply NoDup_meshPaths].
  intros a b. apply app_inv_head.
Qed.

Lemma elem_of_atomTargets root i p :
  p ∈ atomTargets root i
  <-> exists n, nodeAt root p = Some n /\ isAtomMesh i n = true.
Proof.
  unfold atomTargets. rewrite list_elem_of_omap. split.
  - intros ([p' n] & Hin & Hsel). simpl in Hsel.
    destruct (isAtomMesh i n) eqn:Hm; [|done]. injection Hsel as ->.
    exists n. by rewrite <- traverse_nodeAt.
  - intros (n & Hn & Hm). exists (p, n). simpl. rewrite Hm.
    by rewrite traverse_nodeAt.
Qed.

Lemma NoDup_atomTargets root i : NoDup (atomTargets root i).
Proof. apply NoDup_omap_fst, NoDup_traverse. Qed.

Lemma elem_of_bondTargets root s e p :
  p ∈ bondTargets root s e
  <-> exists q g, nodeAt root q = Some g /\ isBondGroup s e g = true
                  /\ p ∈ subtreeTargets q g.
Proof.
  unfold bondTargets. rewrite elem_of_concat. split.
  - intros (l & Hp & Hl). apply list_elem_of_omap in Hl as ([q g] & Hin & Hsel).
    simpl in Hsel. destruct (isBondGroup s e g) eqn:Hb; [|done].
    injection Hsel as <-. exists q, g. by rewrite <- traverse_nodeAt.
  - intros (q & g & Hn & Hb & Hp). exists (subtreeTargets q g).
    split; [done|]. apply list_elem_of_omap. exists (q, g). simpl.
    rewrite Hb. by rewrite traverse_nodeAt.
Qed.

(** The meshes below tagged groups are met once when every tagged group
    is a child of the root. *)
Lemma NoDup_bondTargets root s e :
  (forall q g, nodeAt root q = Some g -> isBondGroup s e g = true ->
               exists k, q = [k]) ->
  NoDup (bondTargets root s e).
Proof.
  intros Htop. unfold bondTargets.
  assert (Hall : forall q g, (q, g) ∈ traverse root ->
                   isBondGroup s e g = true -> exists k, q = [k]).
  { intros q g Hin. apply Htop. by apply traverse_nodeAt. }
  pose proof (NoDup_traverse root) as Hnd. clear Htop.
  induction (traverse root) as [|[q g] l IH]; [constructor|].
  simpl in *. apply NoDup_cons in Hnd as [Hq Hnd].
  assert (IH' : NoDup (concat (omap (fun pc => if isBondGroup s e pc.2
                                      then Some (subtreeTargets pc.1 pc.2)
                                      else None) l))).
  { apply IH; [|done]. intros q' g' Hin. apply Hall. by right. }
  destruct (isBondGroup s e g) eqn:Hb; [|exact IH'].
  simpl. apply NoDup_app. split; [apply NoDup_subtreeTargets|].
  split; [|exact IH'].
  intros p Hp Hp'. destruct (Hall q g) as [k ->]; [by left|done|].
  apply elem_of_subtreeTargets in Hp as (p1 & _ & -> & _).
  apply elem_of_concat in Hp' as (l' & Hp' & Hl').
  apply list_elem_of_omap in Hl' as ([q' g'] & Hin & Hsel). simpl in Hsel.
  destruct (isBondGroup s e g') eqn:Hb'; [|done]. injection Hsel as <-.
  destruct (Hall q' g') as [k' ->]; [by right|done|].
  apply elem_of_subtreeTargets in Hp' as (p2 & _ & Heq & _).
  simpl in Heq. injection Heq as -> _.
  apply Hq. apply list_elem_of_fmap. by exists ([k'], g').
Qed.

Lemma elem_of_faceTargets root f p :
  p ∈ faceTargets root f
  <-> exists k c, p = [k] /\ childrenOf root !! k = Some c
                  /\ isMesh c = true /\ faceIdOf c = Some f.
Proof.
  unfold faceTargets. rewrite list_elem_of_omap. split.
  - intros ([k c] & Hin & Hsel). simpl in Hsel.
    apply elem_of_lookup_imap in Hin as (k' & c' & Heq & Hk).
    injection Heq as <- <-.
    destruct (isMesh c) eqn:Hm; [|done].
    destruct (bool_decide (faceIdOf c = Some f)) eqn:Hf; [|done].
    apply bool_decide_eq_true in Hf. simpl in Hsel. injection Hsel as <-.
    by exists k, c.
  - intros (k & c & -> & Hk & Hm & Hf). exists (k, c). split.
    + apply elem_of_lookup_imap. by exists k, c.
    + simpl. rewrite Hm, bool_decide_eq_true_2 by done. done.
Qed.

Lemma NoDup_faceTargets root f : NoDup (faceTargets root f).
Proof.
  unfold faceTargets.
  assert (H : forall i l,
             NoDup (omap (fun kc : nat * Object3D =>
                            if isMesh kc.2
                               && bool_decide (faceIdOf kc.2 = Some f)
                            then Some [kc.1] else None)
                         (imap (fun k c => ((i + k)%nat, c)) l))
             /\ forall p, p ∈ omap (fun kc : nat * Object3D =>
                            if isMesh kc.2
                               && bool_decide (faceIdOf kc.2 = Some f)
                            then Some [kc.1] else None)
                         (imap (fun k c => ((i + k)%nat, c)) l) ->
                          exists k, p = [(i + k)%nat]).
  { intros i l. revert i. induction l as [|c l IH]; intros i.
    - split; [constructor|]. intros p Hp. by apply elem_of_nil in Hp.
    - cbn [imap]. rewrite Nat.add_0_r.
      rewrite (imap_ext _ (fun k c => ((S i + k)%nat, c)) l)
        by (intros; simpl; by rewrite Nat.add_succ_r).
      destruct (IH (S i)) as [IH1 IH2]. simpl.
      destruct (isMesh c && bool_decide (faceIdOf c = Some f)); simpl.
      + split.
        * constructor; [|exact IH1]. intros Hin.
          apply IH2 in Hin as [k [= Hk]]. lia.
        * intros p Hp. apply elem_of_cons in Hp as [->|Hp].
          -- exists 0%nat. by rewrite Nat.add_0_r.
          -- apply IH2 in Hp as [k ->]. exists (S k).
             by rewrite Nat.add_succ_r.
      + split; [exact IH1|]. intros p Hp. apply IH2 in Hp as [k ->].
        exists (S k). by rewrite Nat.add_succ_r. }
  exact (proj1 (H 0%nat (childrenOf root))).
Qed.

(** ** Built scenes, object by object *)

Lemma nodeAt_child root k p :
  nodeAt root (k :: p) = childrenOf root !! k ≫= fun c => nodeAt c p.
Proof. simpl. by destruct (childrenOf root !! k). Qed.

(** In a solid every mesh is a child of the root and carries a face
    index and nothing but face details; no object is tagged as a bond. *)
Lemma solid_meshes root p ud g c pos :
  sceneShape geometry root ->
  nodeAt root p = Some (Mesh ud g c pos) ->
  exists k f d, p = [k] /\ faceId ud = Some f /\ details ud = OfFace <$> d.
Proof.
  intros Hs. inversion Hs as [ud0 pos0 q0 ch Hd Hf Hch|]; subst.
  destruct p as [|k p]; [done|]. simpl.
  destruct (ch !! k) as [child|] eqn:Hk; [|done].
  pose proof (proj1 (Forall_lookup _ _) Hch k child Hk) as Hc.
  destruct Hc as [d f g' c' p'|t p' sc].
  - destruct p as [|j p]; [|done]. simpl. intros [= <- <- <- <-].
    by exists k, f, d.
  - by destruct p.
Qed.

Lemma solid_groups root q n :
  sceneShape geometry root ->
  nodeAt root q = Some n -> isGroup n = true ->
  q = [] /\ details (userDataOf n) = None.
Proof.
  intros Hs. inversion Hs as [ud0 pos0 q0 ch Hd Hf Hch|]; subst.
  destruct q as [|k p]; [by intros [= <-]|]. simpl.
  destruct (ch !! k) as [child|] eqn:Hk; [|done].
  pose proof (proj1 (Forall_lookup _ _) Hch k child Hk) as Hc.
  destruct Hc as [d f g' c' p'|t p' sc]; destruct p; simpl; try done;
    by intros [= <-].
Qed.

Lemma molecule_nodes root p n :
  sceneShape chemistry root ->
  nodeAt root p = Some n -> moleculeNode root p n.
Proof.
  intros Hs. inversion Hs as [|ud0 pos0 q0 ags bgs Hd Hf Hags Hbgs]; subst.
  set (root := Group ud0 pos0 q0 (ags ++ bgs)).
  destruct p as [|k p]; [intros [= <-]; by constructor|].
  rewrite nodeAt_child. simpl.
  destruct ((ags ++ bgs) !! k) as [child|] eqn:Hk; [|done]. simpl.
  apply lookup_app_Some in Hk as [Hk|[Hlen Hk]].
  - (* an atom group *)
    pose proof (Hags k child Hk) as Hc.
    destruct Hc as [pos q a g c p0 labels Ha Hl].
    assert (Hroot : nodeAt root [k]
                    = Some (Group noUserData pos q
                              (Mesh (tagged (Some (OfAtom a))) g c p0
                                    :: labels))).
    { simpl. by rewrite (lookup_app_l_Some _ _ _ _ Hk). }
    destruct p as [|j p].
    + intros [= <-]. apply AtomGroupNode. by constructor.
    + rewrite nodeAt_child. simpl. destruct j as [|j]; simpl.
      * destruct p as [|? ?]; [|done]. intros [= <-].
        apply AtomMeshNode; [done|by rewrite Hroot|].
        intros grp. rewrite Hroot. by intros [= <-].
      * destruct (labels !! j) as [l|] eqn:Hj; [|done]. simpl.
        pose proof (proj1 (Forall_lookup _ _) Hl j l Hj) as Hsp.
        destruct l; try done. destruct p; [|done]. intros [= <-].
        apply AtomLabelNode.
  - (* a bond group *)
    pose proof (proj1 (Forall_lookup _ _) Hbgs _ child Hk) as Hc.
    assert (Hroot : nodeAt root [k] = Some child).
    { simpl. rewrite lookup_app_r by done. by rewrite Hk. }
    destruct Hc as [b pos q cyls Hcyls].
    destruct p as [|j p].
    + intros [= <-]. apply BondGroupNode. by constructor.
    + rewrite nodeAt_child. simpl.
      destruct (cyls !! j) as [cg|] eqn:Hj; [|done]. simpl.
      pose proof (proj1 (Forall_lookup _ _) Hcyls j cg Hj) as Hcg.
      assert (Hroot2 : nodeAt root [k; j] = Some cg).
      { change [k; j] with ([k] ++ [j]).
        rewrite (nodeAt_app root [k] _ [j] Hroot). simpl. by rewrite Hj. }
      destruct Hcg as [pos' q' g c p0].
      destruct p as [|i p].
      * intros [= <-]. apply CylinderGroupNode. constructor.
      * rewrite nodeAt_child. simpl. destruct i as [|i]; [|done]. simpl.
        destruct p; [|done]. intros [= <-].
        eapply CylinderNode; [exact Hroot|by constructor|done| |].
        -- intros cg. rewrite Hroot2. by intros [= <-].
        -- by rewrite Hroot2.
Qed.

(** The meshes of a molecule: the sphere of an atom, below the untagged
    group of that atom, or a cylinder, below an untagged cylinder group of
    a tagged bond group. *)
Lemma molecule_meshes root p ud g c pos :
  sceneShape chemistry root ->
  nodeAt root p = Some (Mesh ud g c pos) ->
  (exists k a grp,
      p = [k; 0%nat] /\ ud = tagged (Some (OfAtom a)) /\ atomIndex a = k
      /\ nodeAt root [k] = Some grp /\ userDataOf grp = noUserData)
  \/ (exists k j b grp cg,
        p = [k; j; 0%nat] /\ ud = noUserData
        /\ nodeAt root [k] = Some grp
        /\ userDataOf grp = tagged (Some (OfBond b))
        /\ nodeAt root [k; j] = Some cg /\ userDataOf cg = noUserData).
Proof.
  intros Hs Hn. pose proof (molecule_nodes root _ _ Hs Hn) as Hnode.
  inversion Hnode; subst.
  - inversion Hs.
  - match goal with H : atomGroup _ _ |- _ => inversion H end.
  - left.
    match goal with
    | Hsome : nodeAt root [_] <> None,
      Hgrp : forall grp, nodeAt root [_] = Some grp -> _ |- _ =>
        destruct (nodeAt root [atomIndex a]) as [grp|] eqn:Hk; [|done];
        exists (atomIndex a), a, grp; repeat split; try done;
        by apply Hgrp
    end.
  - match goal with H : bondGroup _ |- _ => inversion H end.
  - match goal with H : cylinderGroup _ |- _ => inversion H end.
  - right.
    match goal with
    | Hk : nodeAt root [?k] = Some ?grp,
      Hud : userDataOf ?grp = tagged (Some (OfBond ?b)),
      Hcg : forall cg, nodeAt root [?k; ?j] = Some cg -> _,
      Hsome : nodeAt root [?k; ?j] <> None |- _ =>
        destruct (nodeAt root [k; j]) as [cg|] eqn:Hkj; [|done];
        exists k, j, b, grp, cg; repeat split; try done;
        by apply Hcg
    end.
Qed.

(** The tagged groups of a molecule are children of the root. *)
Lemma molecule_tagged_groups root q n d :
  sceneShape chemistry root ->
  nodeAt root q = Some n -> isGroup n = true ->
  details (userDataOf n) = Some d ->
  exists k b, q = [k] /\ d = OfBond b.
Proof.
  intros Hs Hn Hg Hd. pose proof (molecule_nodes root _ _ Hs Hn) as Hnode.
  inversion Hnode; subst; try done.
  - match goal with H : details (userDataOf _) = None |- _ =>
      rewrite H in Hd; done end.
  - match goal with H : atomGroup _ _ |- _ => inversion H; subst end. done.
  - match goal with H : bondGroup _ |- _ => inversion H; subst end.
    simpl in Hd. injection Hd as <-. by eexists _, _.
  - match goal with H : cylinderGroup _ |- _ => inversion H; subst end. done.
Qed.

Lemma molecule_root_untagged root :
  sceneShape chemistry root -> details (userDataOf root) = None.
Proof. intros Hs. by inversion Hs. Qed.


(** ** One entity per operation *)

Lemma selfAndAncestors_2 k j : selfAndAncestors [k; j] = [[k; j]; [k]; []].
Proof. reflexivity. Qed.

Lemma selfAndAncestors_3 k j i :
  selfAndAncestors [k; j; i] = [[k; j; i]; [k; j]; [k]; []].
Proof. reflexivity. Qed.

Lemma nodeAt_nil root : nodeAt root [] = Some root.
Proof. done. Qed.

(** A cylinder belongs to the bond named by the details of the tagged
    group two levels above it. *)
Lemma cylinder_entity root k j b grp cg g c pos :
  nodeAt root [k; j; 0%nat] = Some (Mesh noUserData g c pos) ->
  nodeAt root [k; j] = Some cg -> userDataOf cg = noUserData ->
  nodeAt root [k] = Some grp ->
  userDataOf grp = tagged (Some (OfBond b)) ->
  entityOf root [k; j; 0%nat]
  = Some (BondEntity (startAtomIndex b) (endAtomIndex b)).
Proof.
  intros Hn Hcg Hcu Hk Hud. unfold entityOf. rewrite Hn.
  cbn [faceId details noUserData]. rewrite selfAndAncestors_3.
  assert (T0 : nodeAt root [k; j; 0%nat] ≫= bondTag = None)
    by (by rewrite Hn).
  assert (T1 : nodeAt root [k; j] ≫= bondTag = None).
  { rewrite Hcg. cbn [mbind option_bind option_bind]. unfold bondTag.
    by rewrite Hcu. }
  assert (T2 : nodeAt root [k] ≫= bondTag
               = Some (BondEntity (startAtomIndex b) (endAtomIndex b))).
  { rewrite Hk. simpl. unfold bondTag. by rewrite Hud. }
  cbn [List.find]. rewrite T0, T1, T2.
  rewrite (bool_decide_eq_false_2 (is_Some None)) by (by intros [? ?]).
  rewrite (bool_decide_eq_true_2 (is_Some (Some _))) by done.
  simpl. exact T2.
Qed.

(** The meshes under a tagged bond group belong to the bond its details
    name. *)
Lemma bond_subtree_entity root k grp b p :
  sceneShape chemistry root ->
  nodeAt root [k] = Some grp ->
  details (userDataOf grp) = Some (OfBond b) ->
  p ∈ subtreeTargets [k] grp ->
  is_Some (builtColor root p)
  /\ entityOf root p
     = Some (BondEntity (startAtomIndex b) (endAtomIndex b)).
Proof.
  intros Hs Hk Hd Hp.
  apply elem_of_subtreeTargets in Hp as (p' & n & -> & Hn & Hm).
  rewrite <- (nodeAt_app root [k] grp p' Hk) in Hn.
  destruct n as [ud g c pos| |]; try done.
  split; [by rewrite (builtColor_mesh _ _ _ _ _ _ Hn)|].
  destruct (molecule_meshes root _ _ _ _ _ Hs Hn)
    as [(k' & a & grp' & Hp & -> & Ha & Hk' & Hu)
       |(k' & j & b' & grp' & cg & Hp & -> & Hk' & Hu & Hcg & Hcu)].
  - (* an atom sphere cannot sit under a bond group *)
    simpl in Hp. injection Hp as <- _. rewrite Hk in Hk'.
    injection Hk' as <-. rewrite Hu in Hd. done.
  - simpl in Hp. injection Hp as <- ->. rewrite Hk in Hk'.
    injection Hk' as <-. rewrite Hu in Hd. simpl in Hd. injection Hd as <-.
    change ([k] ++ [j; 0%nat]) with [k; j; 0%nat] in *.
    by apply (cylinder_entity root k j b' grp cg g c pos).
Qed.

Lemma face_target_entity root f p :
  p ∈ faceTargets root f ->
  is_Some (builtColor root p) /\ entityOf root p = Some (FaceEntity f).
Proof.
  intros Hp. apply elem_of_faceTargets in Hp as (k & c & -> & Hk & Hm & Hf).
  assert (Hn : nodeAt root [k] = Some c) by (simpl; by rewrite Hk).
  destruct c as [ud g col pos| |]; try done.
  unfold builtColor, entityOf. rewrite Hn. split; [done|].
  unfold faceIdOf in Hf. simpl in Hf. by rewrite Hf.
Qed.

Lemma oneEntityList_nil root : oneEntityList root [].
Proof.
  split; [constructor|]. split; [intros p Hp; by apply elem_of_nil in Hp|].
  exists (FaceEntity 0). intros p Hp. by apply elem_of_nil in Hp.
Qed.

Lemma oneEntityList_face root f : oneEntityList root (faceTargets root f).
Proof.
  split; [apply NoDup_faceTargets|]. split.
  - intros p Hp. by apply face_target_entity in Hp as [? _].
  - exists (FaceEntity f). intros p Hp.
    by apply face_target_entity in Hp as [_ ?].
Qed.

Lemma oneEntityList_bond_group root k grp b :
  sceneShape chemistry root ->
  nodeAt root [k] = Some grp ->
  details (userDataOf grp) = Some (OfBond b) ->
  oneEntityList root (subtreeTargets [k] grp).
Proof.
  intros Hs Hk Hd. split; [apply NoDup_subtreeTargets|]. split.
  - intros p Hp. by destruct (bond_subtree_entity root k grp b p Hs Hk Hd Hp).
  - eexists. intros p Hp.
    by destruct (bond_subtree_entity root k grp b p Hs Hk Hd Hp).
Qed.

(** The loop of [handleHighlight] that looks for a bond group, started at
    the sphere of an atom, finds none. *)
Lemma findBondGroup_atom root k a g c pos grp :
  details (userDataOf root) = None ->
  nodeAt root [k; 0%nat] = Some (Mesh (tagged (Some (OfAtom a))) g c pos) ->
  nodeAt root [k] = Some grp -> userDataOf grp = noUserData ->
  findBondGroup root [k; 0%nat] = None.
Proof.
  intros Hr Hn Hk Hu. unfold findBondGroup. rewrite selfAndAncestors_2.
  cbn [List.find]. rewrite Hn, Hk, nodeAt_nil.
  cbn [from_option]. unfold hasTypedDetails.
  cbn [userDataOf tagged details]. by rewrite Hu, Hr.
Qed.

(** Started at a cylinder, it stops at the bond group two levels up when
    the type recorded there is a non-empty string, and finds nothing
    otherwise. *)
Lemma findBondGroup_cylinder root k j b grp cg g c pos :
  details (userDataOf root) = None ->
  nodeAt root [k; j; 0%nat] = Some (Mesh noUserData g c pos) ->
  nodeAt root [k; j] = Some cg -> userDataOf cg = noUserData ->
  nodeAt root [k] = Some grp ->
  userDataOf grp = tagged (Some (OfBond b)) ->
  findBondGroup root [k; j; 0%nat]
  = if truthy (bd_type b) then Some [k] else None.
Proof.
  intros Hr Hn Hcg Hcu Hk Hud. unfold findBondGroup.
  rewrite selfAndAncestors_3.
  cbn [List.find]. rewrite Hn, Hcg, Hk, nodeAt_nil.
  cbn [from_option]. unfold hasTypedDetails.
  cbn [userDataOf]. rewrite Hcu, Hud, Hr. cbn [tagged noUserData details].
  by destruct (truthy (bd_type b)).
Qed.

(** What every operation resolves to in a built scene: a duplicate-free
    list of meshes that belong to one entity. *)
Lemma resolved_one_entity mode root op :
  sceneShape mode root ->
  oneEntityList root (resolved (Some mode) root op).
Proof.
  intros Hs. destruct op as [[p|]|[f d|i d|s e d]]; cbn [resolved].
  - (* a click *)
    unfold pickTargets.
    destruct (nodeAt root p) as [[ud g c pos| |]|] eqn:Hn;
      try apply oneEntityList_nil.
    destruct mode.
    + destruct (faceId ud);
        [apply oneEntityList_face|apply oneEntityList_nil].
    + pose proof (molecule_root_untagged root Hs) as Hr.
      destruct (molecule_meshes root _ _ _ _ _ Hs Hn)
        as [(k & a & grp & -> & -> & Ha & Hk & Hu)
           |(k & j & b & grp & cg & -> & -> & Hk & Hu & Hcg & Hcu)].
      * rewrite (findBondGroup_atom root k a g c pos grp Hr Hn Hk Hu).
        cbn [details tagged].
        destruct (truthy (ad_element a)); [|apply oneEntityList_nil].
        split; [apply NoDup_singleton|]. split.
        -- intros p Hp. apply list_elem_of_singleton in Hp as ->.
           by rewrite (builtColor_mesh _ _ _ _ _ _ Hn).
        -- exists (AtomEntity (atomIndex a)). intros p Hp.
           apply list_elem_of_singleton in Hp as ->.
           unfold entityOf. by rewrite Hn.
      * rewrite (findBondGroup_cylinder root k j b grp cg g c pos
                   Hr Hn Hcg Hcu Hk Hu).
        destruct (truthy (bd_type b)); [|apply oneEntityList_nil].
        rewrite Hk.
        apply (oneEntityList_bond_group root k grp b Hs Hk).
        by rewrite Hu.
  - apply oneEntityList_nil.
  - apply oneEntityList_face.
  - (* a stored atom *)
    split; [apply NoDup_atomTargets|]. split.
    + intros p Hp. apply elem_of_atomTargets in Hp as (n & Hn & Ha).
      destruct n as [ud g c pos| |]; try done.
      by rewrite (builtColor_mesh _ _ _ _ _ _ Hn).
    + exists (AtomEntity i). intros p Hp.
      apply elem_of_atomTargets in Hp as (n & Hn & Ha).
      destruct n as [ud g c pos| |]; try done. simpl in Ha.
      destruct (details ud) as [[|a|]|] eqn:Hd; try done.
      apply bool_decide_eq_true in Ha. destruct mode.
      * destruct (solid_meshes root p ud g c pos Hs Hn)
          as (k & f & d' & _ & _ & Hd').
        rewrite Hd in Hd'. by destruct d'.
      * destruct (molecule_meshes root _ _ _ _ _ Hs Hn)
          as [(k & a' & grp & -> & -> & Ha' & Hk & Hu)
             |(k & j & b & grp & cg & -> & -> & Hk & Hu & Hcg & Hcu)];
          [|done].
        simpl in Hd. injection Hd as ->.
        unfold entityOf. rewrite Hn. cbn [faceId details tagged].
        by rewrite Ha.
  - (* a stored bond *)
    assert (Htop : forall q g, nodeAt root q = Some g ->
                     isBondGroup s e g = true ->
                     exists k b, q = [k] /\ mode = chemistry
                       /\ details (userDataOf g) = Some (OfBond b)
                       /\ startAtomIndex b = s /\ endAtomIndex b = e).
    { intros q g Hq Hb. destruct g as [| |ud pos qq ch]; try done.
      simpl in Hb. destruct (details ud) as [[| |b]|] eqn:Hd; try done.
      apply andb_true_iff in Hb as [H1 H2].
      apply bool_decide_eq_true in H1, H2. destruct mode.
      - destruct (solid_groups root q _ Hs Hq eq_refl) as [_ Hd'].
        simpl in Hd'. by rewrite Hd in Hd'.
      - destruct (molecule_tagged_groups root q _ (OfBond b) Hs Hq eq_refl Hd)
          as (k & b' & -> & _).
        by exists k, b. }
    split; [|split].
    + apply NoDup_bondTargets. intros q g Hq Hb.
      destruct (Htop q g Hq Hb) as (k & b & -> & _). by exists k.
    + intros p Hp. apply elem_of_bondTargets in Hp as (q & g & Hq & Hb & Hp).
      destruct (Htop q g Hq Hb) as (k & b & -> & -> & Hd & _ & _).
      by destruct (bond_subtree_entity root k g b p Hs Hq Hd Hp).
    + exists (BondEntity s e). intros p Hp.
      apply elem_of_bondTargets in Hp as (q & g & Hq & Hb & Hp).
      destruct (Htop q g Hq Hb) as (k & b & -> & -> & Hd & <- & <-).
      by destruct (bond_subtree_entity root k g b p Hs Hq Hd Hp).
Qed.

(** ** The builders produce the shapes the selection code relies on *)

Lemma solidChild_scaled s o :
  solidChild o -> solidChild (scaleSpritesDeep s o).
Proof. intros [d f g c p|t p sc]; constructor. Qed.

Lemma isSprite_scaled s o :
  isSprite o = true -> isSprite (scaleSpritesDeep s o) = true.
Proof. by destruct o. Qed.

Lemma atomGroup_scaled s k o :
  atomGroup k o -> atomGroup k (scaleSpritesDeep s o).
Proof.
  intros [pos q a g c p labels Ha Hl]. cbn [scaleSpritesDeep map scaleSprite].
  constructor; [done|]. apply Forall_fmap.
  eapply Forall_impl; [exact Hl|]. intros o'. apply isSprite_scaled.
Qed.

Lemma cylinderGroup_scaled s o :
  cylinderGroup o -> cylinderGroup (scaleSpritesDeep s o).
Proof. intros [pos q g c p]. constructor. Qed.

Lemma bondGroup_scaled s o :
  bondGroup o -> bondGroup (scaleSpritesDeep s o).
Proof.
  intros [b pos q cylinders Hc]. cbn [scaleSpritesDeep]. constructor.
  apply Forall_fmap. eapply Forall_impl; [exact Hc|].
  intros o'. apply cylinderGroup_scaled.
Qed.

(** Rescaling the labels keeps the shape of a scene. *)
Lemma sceneShape_scaled s mode o :
  sceneShape mode o -> sceneShape mode (scaleSpritesDeep s o).
Proof.
  intros [ud pos q ch Hd Hf Hch|ud pos q ags bgs Hd Hf Hags Hbgs];
    cbn [scaleSpritesDeep].
  - constructor; [done|done|]. apply Forall_fmap.
    eapply Forall_impl; [exact Hch|]. intros o'. apply solidChild_scaled.
  - rewrite map_app. constructor; [done|done| |].
    + intros k c Hk. change (map ?f ?l) with (f <$> l) in Hk.
      rewrite list_lookup_fmap in Hk.
      destruct (ags !! k) as [c0|] eqn:Hk0; [|done].
      simpl in Hk. injection Hk as <-. apply atomGroup_scaled. eauto.
    + apply Forall_fmap. eapply Forall_impl; [exact Hbgs|].
      intros o'. apply bondGroup_scaled.
Qed.

(** Centring the model keeps its shape, its objects below the root and
    the colours of its meshes. *)
Lemma sceneShape_recentre center mode o :
  sceneShape mode o -> sceneShape mode (recentre center o).
Proof. intros [? ? ? ? ? ? ?|? ? ? ? ? ? ? ? ?]; by constructor. Qed.

Lemma childrenOf_recentre center o :
  childrenOf (recentre center o) = childrenOf o.
Proof. by destruct o. Qed.

Lemma nodeAt_recentre center o k p :
  nodeAt (recentre center o) (k :: p) = nodeAt o (k :: p).
Proof. simpl. by rewrite childrenOf_recentre. Qed.

Lemma geometryGroup_shape ctx data :
  sceneShape geometry (geometryGroup ctx data).
Proof.
  unfold geometryGroup. constructor; [done|done|].
  apply Forall_app. split.
  - apply Forall_forall. intros o Ho.
    apply list_elem_of_omap in Ho as (r & Hr & Hb).
    apply elem_of_concat in Hr as (l & Hr & Hl).
    apply elem_of_lookup_imap in Hl as (k & fg & -> & _).
    unfold buildFace in Hr.
    destruct (triangles fg); [|by apply elem_of_nil in Hr].
    apply list_elem_of_fmap in Hr as (t & -> & _).
    unfold buildTriangle in Hb. destruct (indices t); [|done].
    destruct (negb _); [done|]. destruct (existsb _ _); [done|].
    simpl in Hb. injection Hb as <-. constructor.
  - destruct (labels data); [|constructor].
    apply Forall_forall. intros o Ho.
    apply list_elem_of_omap in Ho as (ld & _ & Hld).
    unfold buildLabel, createLabelSprite in Hld.
    destruct (truthy _); [|done]. destruct (label_position ld); [|done].
    destruct ctx; [|done]. simpl in Hld. injection Hld as <-. constructor.
Qed.

(** The group [createAtom] returns: the sphere first, tagged with the
    atom's details, then the label when the canvas gives a context. *)
Lemma buildAtom_shape ctx k atom :
  exists pos r c labels,
    buildAtom ctx k atom
    = Group noUserData pos Identity
            (Mesh (tagged (Some (OfAtom (atomDetails atom k))))
                  (SphereGeometry r) c Vector3.zero :: labels)
    /\ Forall (fun o => isSprite o = true) labels
    /\ c = default CPK_DEFAULT (assoc (toUpperCase (element atom)) CPK_COLORS).
Proof.
  unfold buildAtom, createAtom. eexists _, _, _, _.
  split; [reflexivity|]. split; [|reflexivity].
  unfold createLabelSprite. destruct ctx; simpl; repeat constructor.
Qed.

Lemma buildAtom_atomGroup ctx k atom : atomGroup k (buildAtom ctx k atom).
Proof.
  destruct (buildAtom_shape ctx k atom) as (pos & r & c & labels & -> & Hl & _).
  by constructor.
Qed.

Lemma cylinders_plain bondData path len :
  Forall (fun o => exists g c p, o = Mesh noUserData g c p)
         (offsetCylinders path (bondCylinders bondData len)).
Proof.
  unfold bondCylinders.
  destruct (String.eqb _ "double"); [|destruct (String.eqb _ "triple")];
    unfold offsetCylinders, createCylinder; simpl;
    repeat constructor; by eexists _, _, _.
Qed.

Lemma createBond_bondGroup bondData startPos endPos bondName :
  bondGroup (createBond bondData startPos endPos bondName).
Proof.
  unfold createBond. cbv zeta.
  apply (BondGroup {| bd_name := bondName; bd_type := type bondData;
                      bd_energy := energy bondData;
                      startAtomIndex := start bondData;
                      endAtomIndex := end_ bondData |}).
  apply Forall_fmap. eapply Forall_impl; [apply cylinders_plain|].
  intros o (g & c & p & ->). constructor.
Qed.

Lemma buildBond_bondGroup atomList positions bond o :
  buildBond atomList positions bond = Some o -> bondGroup o.
Proof.
  unfold buildBond. destruct (_ && _)%bool; [|done].
  destruct (lookupZ positions (start bond)); [|done].
  destruct (lookupZ positions (end_ bond)); [|done].
  destruct (lookupZ atomList (start bond)); [|done].
  destruct (lookupZ atomList (end_ bond)); [|done].
  simpl. intros [= <-]. apply createBond_bondGroup.
Qed.

Lemma chemistryGroup_shape ctx data :
  sceneShape chemistry (chemistryGroup ctx data).
Proof.
  unfold chemistryGroup. cbv zeta. constructor; [done|done| |].
  - intros k c Hk. rewrite list_lookup_imap in Hk.
    destruct (_ !! k) as [atom|]; [|done]. simpl in Hk.
    injection Hk as <-. apply buildAtom_atomGroup.
  - destruct (bonds data); [|constructor].
    apply Forall_forall. intros o Ho.
    apply list_elem_of_omap in Ho as (bond & _ & Hb).
    by apply buildBond_bondGroup in Hb.
Qed.

(** Whatever a builder returns has the shape of its mode. *)
Lemma buildFor_shape ctx box mode data g :
  buildFor ctx box (Some mode) data = Ok g -> sceneShape mode g.
Proof.
  intros Hb. apply buildFor_rescales in Hb. subst g.
  assert (Hs : sceneShape mode (assembled ctx mode data))
    by (destruct mode; [apply geometryGroup_shape|apply chemistryGroup_shape]).
  destruct (Rltb _ _); [by apply sceneShape_scaled|done].
Qed.

(** ** A model added to the scene *)

Lemma NoDup_meshColors id root : NoDup (meshColors id root).*1.
Proof.
  unfold meshColors. pose proof (NoDup_traverse root) as Hnd.
  induction (traverse root) as [|[p n] l IH]; [constructor|].
  simpl in Hnd. apply NoDup_cons in Hnd as [Hp Hnd].
  destruct n as [ud g c pos| |]; simpl; try by apply IH.
  constructor; [|by apply IH]. intros Hin. apply Hp.
  apply list_elem_of_fmap in Hin as ([[id' p'] c'] & Heq & Hin).
  simpl in Heq. injection Heq as <- <-.
  apply list_elem_of_omap in Hin as ([p' n'] & Hin & Hsel).
  simpl in Hsel. destruct n'; try done. injection Hsel as -> _.
  apply list_elem_of_fmap. by eexists (p, _).
Qed.

Lemma elem_of_meshColors id root p c :
  builtColor root p = Some c -> ((id, p), c) ∈ meshColors id root.
Proof.
  unfold builtColor, meshColors.
  destruct (nodeAt root p) as [[ud g c' pos| |]|] eqn:Hn; try done.
  intros [= ->]. apply list_elem_of_omap.
  exists (p, Mesh ud g c pos). split; [by apply traverse_nodeAt|done].
Qed.

Lemma builtColor_recentre center root p :
  isGroup root = true ->
  builtColor (recentre center root) p = builtColor root p.
Proof.
  intros Hg. unfold builtColor. destruct p as [|k p].
  - by destruct root.
  - by rewrite nodeAt_recentre.
Qed.

Lemma sceneShape_group mode root : sceneShape mode root -> isGroup root = true.
Proof. by intros []. Qed.

(** Adding a built model to the scene, in a state whose highlight records
    do not refer to the new object, gives a state whose bookkeeping is
    consistent with the new model, with the highlight records
    untouched. *)
Lemma addToScene_consistent box g st mode :
  currentMode st = Some mode -> sceneShape mode g ->
  freshHighlights st ->
  consistent (addToScene box g st) (nextObjectId st)
             (recentre (getCenter (box g)) g).
Proof.
  intros Hm Hs Hfresh.
  destruct (addToScene_fields box g st) as (Hg & _ & Hmode & _ & Hh & _).
  assert (Hcol : materialColor (addToScene box g st)
                 = list_to_map (meshColors (nextObjectId st)
                                  (recentre (getCenter (box g)) g))
                   ∪ materialColor st) by done.
  split.
  - exact Hg.
  - exists mode. rewrite Hmode. split; [done|by apply sceneShape_recentre].
  - intros p c Hin. rewrite Hh in Hin. exfalso. apply (Hfresh p).
    apply list_elem_of_fmap. by exists ((nextObjectId st, p), c).
  - intros p c Hb. rewrite Hcol, Hh.
    rewrite decide_False by apply Hfresh.
    apply lookup_union_Some_l.
    apply elem_of_list_to_map_1; [apply NoDup_meshColors|].
    by apply elem_of_meshColors.
  - exists (FaceEntity 0). intros p Hin. rewrite Hh in Hin.
    by apply Hfresh in Hin.
Qed.

(** What [loadSessionState] does when the stored document builds. *)
Lemma loadSessionState_built ctx box mode data g st :
  buildFor ctx box (Some mode) data = Ok g ->
  loadSessionState ctx box
    {| session_mode := mode; session_modelData := Some data |} st
  = addToScene box g
      (set_selectedImage true (set_currentMode (Some mode) (resetApp st))).
Proof.
  intros Hb. unfold loadSessionState.
  cbn [session_mode session_modelData]. by rewrite Hb.
Qed.

Lemma highlightedObjects_resetApp st : highlightedObjects (resetApp st) = [].
Proof. done. Qed.

Lemma nextObjectId_removeGeneratedObject st :
  nextObjectId (removeGeneratedObject st) = nextObjectId st.
Proof. unfold removeGeneratedObject. by destruct (generatedObject st) as [[]|]. Qed.

Lemma nextObjectId_resetApp st : nextObjectId (resetApp st) = nextObjectId st.
Proof.
  unfold resetApp. set (st0 := clearError _).
  change (nextObjectId (removeGeneratedObject st0) = nextObjectId st).
  by rewrite nextObjectId_removeGeneratedObject.
Qed.

(** Adding a built model in a state where nothing is recorded as
    highlighted. *)
Lemma addToScene_clean box g st mode id :
  currentMode st = Some mode -> sceneShape mode g ->
  highlightedObjects st = [] -> nextObjectId st = id ->
  consistent (addToScene box g st) id (recentre (getCenter (box g)) g)
  /\ highlightedObjects (addToScene box g st) = [].
Proof.
  intros Hm Hs Hh <-. split.
  - apply (addToScene_consistent box g st mode Hm Hs).
    intros p. rewrite Hh. apply not_elem_of_nil.
  - destruct (addToScene_fields box g st) as (_ & _ & _ & _ & -> & _).
    exact Hh.
Qed.

Lemma session_fields mode st :
  currentMode (set_selectedImage true (set_currentMode (Some mode) st))
  = Some mode
  /\ highlightedObjects
       (set_selectedImage true (set_currentMode (Some mode) st))
     = highlightedObjects st
  /\ nextObjectId (set_selectedImage true (set_currentMode (Some mode) st))
     = nextObjectId st.
Proof. done. Qed.

(** A session whose stored document builds is loaded into a state that is
    consistent with the rebuilt model and in which nothing is
    highlighted. *)
Lemma loadSessionState_consistent ctx box mode data g st :
  buildFor ctx box (Some mode) data = Ok g ->
  consistent
    (loadSessionState ctx box
       {| session_mode := mode; session_modelData := Some data |} st)
    (nextObjectId st) (recentre (getCenter (box g)) g)
  /\ highlightedObjects
       (loadSessionState ctx box
          {| session_mode := mode; session_modelData := Some data |} st)
     = [].
Proof.
  intros Hb. rewrite (loadSessionState_built _ _ _ _ _ _ Hb).
  destruct (session_fields mode (resetApp st)) as (Hm & Hh & Hn).
  apply (addToScene_clean box g _ mode (nextObjectId st)).
  - exact Hm.
  - by apply (buildFor_shape ctx box mode data).
  - rewrite Hh. apply highlightedObjects_resetApp.
  - rewrite Hn. apply nextObjectId_resetApp.
Qed.

(** ** Two select operations in succession *)

(** One select operation on a state that is consistent with the active
    model: what it resolves to is a duplicate-free list of meshes of one
    entity, exactly these become the highlight set, and the state stays
    consistent. *)
Lemma select_consistent ctx op st id root :
  consistent st id root ->
  consistent (select ctx op st) id root
  /\ currentMode (select ctx op st) = currentMode st
  /\ oneEntityList root (resolved (currentMode st) root op)
  /\ (highlightedObjects (select ctx op st)).*1
     = map (pair id) (resolved (currentMode st) root op)
  /\ (forall p c, builtColor root p = Some c ->
        materialColor (select ctx op st) !! (id, p)
        = Some (if decide (p ∈ resolved (currentMode st) root op)
                then HIGHLIGHT else c)).
Proof.
  intros Hc. destruct (shaped _ _ _ Hc) as (mode & Hm & Hs).
  pose proof (resolved_one_entity mode root op Hs) as Hone.
  rewrite <- Hm in Hone. destruct Hone as (Hnd & Hmesh & He).
  destruct (select_step ctx op st id root Hc Hnd Hmesh He)
    as (Hc' & Hm' & Hh & Hcol).
  split; [exact Hc'|]. split; [exact Hm'|].
  split; [by split|]. split; [exact Hh|exact Hcol].
Qed.

(** The same, read for a click and for a restored selection. *)
Lemma click_consistent ctx hit st id root :
  consistent st id root ->
  consistent (onCanvasClick ctx hit st) id root
  /\ currentMode (onCanvasClick ctx hit st) = currentMode st
  /\ (highlightedObjects (onCanvasClick ctx hit st)).*1
     = map (pair id) (resolved (currentMode st) root (Pick hit))
  /\ (forall p c, builtColor root p = Some c ->
        materialColor (onCanvasClick ctx hit st) !! (id, p)
        = Some (if decide (p ∈ resolved (currentMode st) root (Pick hit))
                then HIGHLIGHT else c)).
Proof.
  intros Hc.
  destruct (select_consistent ctx (Pick hit) st id root Hc)
    as (H1 & H2 & _ & H3 & H4).
  split; [exact H1|]. split; [exact H2|]. split; [exact H3|exact H4].
Qed.

Lemma restore_consistent ctx sel st id root :
  consistent st id root ->
  consistent (reHighlightSelection ctx sel st) id root
  /\ currentMode (reHighlightSelection ctx sel st) = currentMode st
  /\ (highlightedObjects (reHighlightSelection ctx sel st)).*1
     = map (pair id) (resolved (currentMode st) root (Restore sel))
  /\ (forall p c, builtColor root p = Some c ->
        materialColor (reHighlightSelection ctx sel st) !! (id, p)
        = Some (if decide (p ∈ resolved (currentMode st) root (Restore sel))
                then HIGHLIGHT else c)).
Proof.
  intros Hc.
  destruct (select_consistent ctx (Restore sel) st id root Hc)
    as (H1 & H2 & _ & H3 & H4).
  split; [exact H1|]. split; [exact H2|]. split; [exact H3|exact H4].
Qed.

(** C3.  For every pair of successive select operations (clicks or
    restored selections) on the same active model, starting from a state
    whose highlight bookkeeping is consistent: after the second operation
    the highlighted primitives are exactly those the second operation
    resolves to; they show the highlight colour and every other mesh of
    the model shows the colour it was built with, in particular every mesh
    the first operation highlighted and the second does not resolve to;
    what each operation resolves to is a duplicate-free list of meshes of
    one entity; and before, between and after the two operations all
    highlighted primitives of the model belong to one entity. *)
Theorem C3_second_select_replaces_first
    (ctx : option (string -> R)) (op1 op2 : SelectOp) (st : State)
    (id : nat) (root : Object3D) :
  consistent st id root ->
  (highlightedObjects (select ctx op2 (select ctx op1 st))).*1
  = map (pair id) (resolved (currentMode st) root op2)
  /\ (forall p c, builtColor root p = Some c ->
        materialColor (select ctx op2 (select ctx op1 st)) !! (id, p)
        = Some (if decide (p ∈ resolved (currentMode st) root op2)
                then HIGHLIGHT else c))
  /\ (forall p c,
        (id, p) ∈ (highlightedObjects (select ctx op1 st)).*1 ->
        p ∉ resolved (currentMode st) root op2 ->
        builtColor root p = Some c ->
        materialColor (select ctx op2 (select ctx op1 st)) !! (id, p)
        = Some c)
  /\ (highlightedObjects (select ctx op1 st)).*1
     = map (pair id) (resolved (currentMode st) root op1)
  /\ oneEntityList root (resolved (currentMode st) root op1)
  /\ oneEntityList root (resolved (currentMode st) root op2)
  /\ (forall s,
        s ∈ [st; select ctx op1 st; select ctx op2 (select ctx op1 st)] ->
        exists e, forall p, (id, p) ∈ (highlightedObjects s).*1 ->
                            entityOf root p = Some e).
Proof.
  intros Hc.
  destruct (select_consistent ctx op1 st id root Hc)
    as (Hc1 & Hm1 & Hone1 & Hh1 & Hcol1).
  destruct (select_consistent ctx op2 (select ctx op1 st) id root Hc1)
    as (Hc2 & Hm2 & Hone2 & Hh2 & Hcol2).
  rewrite Hm1 in Hone2, Hh2, Hcol2.
  split; [exact Hh2|]. split; [exact Hcol2|]. split.
  { intros p c _ Hout Hb. rewrite (Hcol2 p c Hb).
    by rewrite decide_False. }
  split; [exact Hh1|]. split; [exact Hone1|]. split; [exact Hone2|].
  intros s Hs. repeat (apply elem_of_cons in Hs as [->|Hs]).
  - exact (oneEntity _ _ _ Hc).
  - exact (oneEntity _ _ _ Hc1).
  - exact (oneEntity _ _ _ Hc2).
  - by apply elem_of_nil in Hs.
Qed.

Lemma nineAndOne_builds :
  exists g, buildFor sampleContext cornerBox (Some geometry) nineAndOne = Ok g
            /\ childrenOf g = keptMeshes tetraVertices 0
                                (default [] (faces nineAndOne)).
Proof.
  unfold buildFor, buildGeometryModel. simpl.
  destruct (Rltb 0.001 _); eexists; split; reflexivity.
Qed.

Lemma C3_witness_two_faces :
  exists g,
    buildFor sampleContext cornerBox (Some geometry) nineAndOne = Ok g
    /\ consistent
         (loadSessionState sampleContext cornerBox
            (sessionOf geometry nineAndOne) initialState)
         0 (recentre (getCenter (cornerBox g)) g)
    /\ (highlightedObjects
          (select sampleContext (Restore (geometry_face 1 (OfFace
                                   {| surfaceArea := "6"; perimeter := "12" |})))
             (select sampleContext (Pick (Some [0%nat]))
                (loadSessionState sampleContext cornerBox
                   (sessionOf geometry nineAndOne) initialState)))).*1
       = [(0, [3]); (0, [4]); (0, [5])]%nat.
Proof.
  destruct nineAndOne_builds as (g & Hb & Hch). exists g.
  unfold sessionOf.
  pose proof (loadSessionState_consistent sampleContext cornerBox geometry
                nineAndOne g initialState Hb) as [Hc Hnone].
  split; [exact Hb|]. split; [exact Hc|].
  rewrite (proj1 (C3_second_select_replaces_first sampleContext
                    (Pick (Some [0%nat]))
                    (Restore (geometry_face 1 (OfFace
                       {| surfaceArea := "6"; perimeter := "12" |})))
                    _ _ _ Hc)).
  cbn [resolved]. unfold faceTargets. rewrite childrenOf_recentre, Hch.
  reflexivity.
Defined.

(** ** An atom selection restored on a rebuilt scene *)

Lemma sameSelection_refl s : sameSelection s s.
Proof. done. Qed.

Lemma sameSelection_trans s1 s2 s3 :
  sameSelection s1 s2 -> sameSelection s2 s3 -> sameSelection s1 s3.
Proof. intros (? & ? & ?) (? & ? & ?). repeat split; congruence. Qed.

Lemma sameSelection_highlight r s : sameSelection (highlight r s) s.
Proof. unfold highlight. by destruct (materialColor s !! r). Qed.

Lemma sameSelection_overlay ov s :
  sameSelection (set_angleVisualizationGroup ov s) s.
Proof. done. Qed.

(** A loop whose body leaves the selection alone leaves it alone. *)
Lemma foldl_sameSelection {A : Type} (step : State -> A -> State)
    (xs : list A) (s : State) :
  (forall t x, sameSelection (step t x) t) ->
  sameSelection (foldl step s xs) s.
Proof.
  intros Hstep. revert s. induction xs as [|x xs IH]; intros s; [done|].
  simpl. eapply sameSelection_trans; [apply IH|apply Hstep].
Qed.

Lemma highlightMeshesUnder_selection id q group s :
  sameSelection (highlightMeshesUnder id q group s) s.
Proof.
  apply foldl_sameSelection. intros t x.
  destruct (isMesh x.2); [apply sameSelection_highlight|done].
Qed.

Lemma highlightFace_selection id root f s :
  sameSelection (highlightFace id root f s) s.
Proof.
  apply foldl_sameSelection. intros t x.
  destruct (_ && _); [apply sameSelection_highlight|done].
Qed.

(** Restoring a stored selection makes it the current selection and shows
    its details when they have the field their kind is recognised by,
    whether or not any primitive of the scene matches it. *)
Lemma reHighlightSelection_selection ctx sel st id root :
  generatedObject st = Some (id, root) ->
  currentSelectionDetails (reHighlightSelection ctx sel st) = Some sel
  /\ selectionDetailsContent (reHighlightSelection ctx sel st)
     = (if renders (detailsOf sel) then Some (detailsOf sel) else None)
  /\ selectionDetailsHidden (reHighlightSelection ctx sel st)
     = negb (renders (detailsOf sel)).
Proof.
  intros Hg. unfold reHighlightSelection. rewrite Hg.
  set (s0 := displaySelectionDetails _ _).
  assert (H0 : currentSelectionDetails s0 = Some sel
               /\ selectionDetailsContent s0
                  = (if renders (detailsOf sel) then Some (detailsOf sel)
                     else None)
               /\ selectionDetailsHidden s0 = negb (renders (detailsOf sel))).
  { unfold s0, displaySelectionDetails. by destruct (renders _). }
  clearbody s0. destruct H0 as (H1 & H2 & H3).
  match goal with
  | |- currentSelectionDetails ?s = _ /\ _ =>
      assert (Hs : sameSelection s s0)
  end.
  { destruct sel as [f d|i d|s e d]; cbv zeta.
    - apply highlightFace_selection.
    - apply foldl_sameSelection. intros t x.
      destruct x.2 as [ud g c pos| |]; try done.
      destruct (details ud) as [[|a|]|]; try done.
      destruct (bool_decide _); [|done].
      exact (sameSelection_highlight (id, x.1) t).
    - apply foldl_sameSelection. intros t x.
      destruct x.2 as [| |ud pos q ch] eqn:Hx; try done.
      destruct (details ud) as [[| |b]|]; try done.
      destruct (_ && _); [|done].
      apply highlightMeshesUnder_selection. }
  destruct Hs as (-> & -> & ->). by rewrite H1, H2, H3.
Qed.

(** A click on the sphere of an atom selects the atom when its element is
    a non-empty string and selects nothing otherwise. *)
Lemma onCanvasClick_atom ctx st id root k a g c pos grp :
  generatedObject st = Some (id, root) ->
  currentMode st = Some chemistry ->
  details (userDataOf root) = None ->
  nodeAt root [k; 0%nat] = Some (Mesh (tagged (Some (OfAtom a))) g c pos) ->
  nodeAt root [k] = Some grp -> userDataOf grp = noUserData ->
  currentSelectionDetails (onCanvasClick ctx (Some [k; 0%nat]) st)
  = (if truthy (ad_element a)
     then Some (chemistry_atom (atomIndex a) (OfAtom a)) else None)
  /\ selectionDetailsContent (onCanvasClick ctx (Some [k; 0%nat]) st)
     = (if truthy (ad_element a) then Some (OfAtom a) else None)
  /\ resolved (Some chemistry) root (Pick (Some [k; 0%nat]))
     = (if truthy (ad_element a) then [[k; 0%nat]] else []).
Proof.
  intros Hg Hm Hr Hn Hk Hu.
  pose proof (findBondGroup_atom root k a g c pos grp Hr Hn Hk Hu) as Hf.
  split; [|split].
  3:{ cbn [resolved]. unfold pickTargets. rewrite Hn, Hf.
      cbn [details tagged]. done. }
  all: unfold onCanvasClick;
    assert (Hg' : generatedObject (clearSelection st) = Some (id, root))
      by exact Hg;
    rewrite Hg'; unfold handleHighlight;
    assert (Hg'' : generatedObject
                     (set_angleVisualizationGroup [] (clearSelection st))
                   = Some (id, root)) by exact Hg;
    rewrite Hg'', Hn;
    change (currentMode (set_angleVisualizationGroup [] (clearSelection st)))
      with (currentMode st);
    rewrite Hm, Hf; cbn [details tagged];
    destruct (truthy (ad_element a)) eqn:Ht; [|done]; cbv zeta;
    match goal with
    | |- context [set_angleVisualizationGroup ?ov (highlight ?r ?X)] =>
        destruct (sameSelection_trans _ _ _
                    (sameSelection_overlay ov (highlight r X))
                    (sameSelection_highlight r X)) as (H1 & H2 & H3)
    end.
  - rewrite H1. done.
  - rewrite H3. unfold displaySelectionDetails, renders. by rewrite Ht.
Qed.

Lemma childrenOf_scaled s o :
  childrenOf (scaleSpritesDeep s o) = map (scaleSpritesDeep s) (childrenOf o).
Proof. by destruct o. Qed.

(** The sphere of atom [i] of a built molecule is the first child of the
    [i]-th child of the root, and carries that atom's details. *)
Lemma chemistry_atom_sphere ctx box data g atomList i atom center :
  buildChemistryModel ctx box data = Ok g ->
  atoms data = Some atomList -> atomList !! i = Some atom ->
  exists r,
    nodeAt (recentre center g) [i; 0%nat]
    = Some (Mesh (tagged (Some (OfAtom (atomDetails atom i))))
                 (SphereGeometry r)
                 (default CPK_DEFAULT
                    (assoc (toUpperCase (element atom)) CPK_COLORS))
                 Vector3.zero).
Proof.
  intros Hb Ha Hi.
  pose proof (buildFor_rescales ctx box chemistry data g Hb) as Hg.
  destruct (buildAtom_shape ctx i atom)
    as (pos & r & c & labels & Hshape & _ & ->).
  exists r. rewrite nodeAt_recentre.
  assert (Hk : childrenOf (assembled ctx chemistry data) !! i
               = Some (buildAtom ctx i atom)).
  { cbn [assembled]. unfold chemistryGroup. rewrite Ha.
    cbn [default from_option Datatypes.id childrenOf].
    apply lookup_app_l_Some.
    by rewrite list_lookup_imap, Hi. }
  rewrite nodeAt_child.
  destruct (Rltb _ _); subst g.
  - rewrite childrenOf_scaled, list_lookup_fmap, Hk. cbn [fmap option_fmap option_map mbind option_bind].
    rewrite Hshape. reflexivity.
  - rewrite Hk. cbn [mbind option_bind]. rewrite Hshape. reflexivity.
Qed.

Lemma NoDup_singleton_eq {A : Type} (l : list A) (x : A) :
  NoDup l -> x ∈ l -> (forall y, y ∈ l -> y = x) -> l = [x].
Proof.
  intros Hnd Hx Hall. destruct l as [|a l]; [by apply elem_of_nil in Hx|].
  assert (a = x) as -> by (apply Hall; by left). f_equal.
  destruct l as [|b l]; [done|]. exfalso.
  apply NoDup_cons in Hnd as [Hn _]. apply Hn.
  rewrite (Hall b); [by left|]. right. by left.
Qed.

(** In a molecule the stored atom index [k] is matched by the sphere of
    atom [k] and by nothing else. *)
Lemma atomTargets_sphere root k a g c pos :
  sceneShape chemistry root ->
  nodeAt root [k; 0%nat] = Some (Mesh (tagged (Some (OfAtom a))) g c pos) ->
  atomIndex a = k /\ atomTargets root k = [[k; 0%nat]].
Proof.
  intros Hs Hn.
  assert (Ha : atomIndex a = k).
  { destruct (molecule_meshes root _ _ _ _ _ Hs Hn)
      as [(k' & a' & grp & [= <-] & [= <-] & Ha & _)
         |(k' & j & b & grp & cg & ? & ? & _)]; done. }
  split; [exact Ha|].
  apply NoDup_singleton_eq; [apply NoDup_atomTargets| |].
  - apply elem_of_atomTargets. eexists. split; [exact Hn|].
    simpl. by apply bool_decide_eq_true.
  - intros p Hp. apply elem_of_atomTargets in Hp as (n & Hn' & Hat).
    destruct n as [ud g' c' pos'| |]; try done. simpl in Hat.
    destruct (details ud) as [[|a'|]|] eqn:Hd; try done.
    apply bool_decide_eq_true in Hat.
    destruct (molecule_meshes root _ _ _ _ _ Hs Hn')
      as [(k' & a'' & grp & -> & -> & Ha'' & _)
         |(k' & j & b & grp & cg & _ & -> & _)]; [|done].
    simpl in Hd. injection Hd as ->. congruence.
Qed.

(** A click on the sphere of atom [i] of a built molecule: the atom is
    selected, its details are shown and its sphere is the highlight set
    when its element is a non-empty string; otherwise nothing is selected
    and nothing is highlighted. *)
Lemma atom_click ctx box data g atomList i atom st id :
  buildChemistryModel ctx box data = Ok g ->
  atoms data = Some atomList -> atomList !! i = Some atom ->
  currentMode st = Some chemistry ->
  consistent st id (recentre (getCenter (box g)) g) ->
  currentSelectionDetails (onCanvasClick ctx (Some [i; 0%nat]) st)
  = (if truthy (element atom)
     then Some (chemistry_atom i (OfAtom (atomDetails atom i))) else None)
  /\ selectionDetailsContent (onCanvasClick ctx (Some [i; 0%nat]) st)
     = (if truthy (element atom)
        then Some (OfAtom (atomDetails atom i)) else None)
  /\ (highlightedObjects (onCanvasClick ctx (Some [i; 0%nat]) st)).*1
     = (if truthy (element atom) then [(id, [i; 0%nat])] else []).
Proof.
  intros Hb Ha Hi Hm Hc.
  destruct (shaped _ _ _ Hc) as (mode & Hm' & Hs).
  rewrite Hm in Hm'. injection Hm' as <-.
  destruct (chemistry_atom_sphere ctx box data g atomList i atom
              (getCenter (box g)) Hb Ha Hi) as (r & Hn).
  destruct (molecule_meshes _ _ _ _ _ _ Hs Hn)
    as [(k & a & grp & [= <-] & _ & _ & Hk & Hu)
       |(k & j & b & grp & cg & ? & ? & _)]; [|done].
  destruct (onCanvasClick_atom ctx st id _ i _ _ _ _ grp
              (active _ _ _ Hc) Hm (molecule_root_untagged _ Hs) Hn Hk Hu)
    as (H1 & H2 & H3).
  cbn [ad_element atomIndex atomDetails] in H1, H2, H3.
  split; [exact H1|]. split; [exact H2|].
  destruct (select_consistent ctx (Pick (Some [i; 0%nat])) st id _ Hc)
    as (_ & _ & _ & Hh & _).
  cbn [select] in Hh. rewrite Hh, Hm, H3.
  by destruct (truthy (element atom)).
Qed.

(** C1.  For every molecule description that builds, and every atom [i]
    of it: when a click on the sphere of the atom captures a selection,
    the stored reference is of kind chemistry_atom, holds the atom's index
    and the atom's details; the click highlights exactly that sphere; and
    restoring the reference in any state whose active model is a scene
    built from the same description, whatever the identity of that model
    object, highlights exactly the sphere at the same place, makes the
    reference the current selection and shows the details that the click
    showed. *)
Theorem C1_atom_selection_survives_rebuild
    (ctx : option (string -> R)) (box : Object3D -> Box3) (data : ModelData)
    (g : Object3D) (atomList : list AtomData) (i : nat) (atom : AtomData)
    (st st' : State) (id id' : nat) (captured : SelectionData) :
  buildChemistryModel ctx box data = Ok g ->
  atoms data = Some atomList -> atomList !! i = Some atom ->
  currentMode st = Some chemistry ->
  consistent st id (recentre (getCenter (box g)) g) ->
  consistent st' id' (recentre (getCenter (box g)) g) ->
  currentSelectionDetails (onCanvasClick ctx (Some [i; 0%nat]) st)
  = Some captured ->
  captured = chemistry_atom i (OfAtom (atomDetails atom i))
  /\ (highlightedObjects (onCanvasClick ctx (Some [i; 0%nat]) st)).*1
     = [(id, [i; 0%nat])]
  /\ (highlightedObjects (reHighlightSelection ctx captured st')).*1
     = [(id', [i; 0%nat])]
  /\ selectionDetailsContent (onCanvasClick ctx (Some [i; 0%nat]) st)
     = Some (detailsOf captured)
  /\ selectionDetailsContent (reHighlightSelection ctx captured st')
     = Some (detailsOf captured)
  /\ currentSelectionDetails (reHighlightSelection ctx captured st')
     = Some captured.
Proof.
  intros Hb Ha Hi Hm Hc Hc' Hcap.
  destruct (atom_click ctx box data g atomList i atom st id Hb Ha Hi Hm Hc)
    as (H1 & H2 & H3).
  rewrite Hcap in H1.
  destruct (truthy (element atom)) eqn:Ht; [|done].
  injection H1 as ->. split; [done|]. split; [exact H3|].
  destruct (shaped _ _ _ Hc) as (mode & Hm' & Hs).
  rewrite Hm in Hm'. injection Hm' as <-.
  destruct (chemistry_atom_sphere ctx box data g atomList i atom
              (getCenter (box g)) Hb Ha Hi) as (r & Hn).
  destruct (atomTargets_sphere _ _ _ _ _ _ Hs Hn) as [_ Hat].
  destruct (select_consistent ctx
              (Restore (chemistry_atom i (OfAtom (atomDetails atom i))))
              st' id' _ Hc') as (_ & _ & _ & Hh & _).
  cbn [select resolved] in Hh. rewrite Hat in Hh.
  split; [exact Hh|]. split; [exact H2|].
  destruct (reHighlightSelection_selection ctx
              (chemistry_atom i (OfAtom (atomDetails atom i)))
              st' id' _ (active _ _ _ Hc')) as (R1 & R2 & _).
  cbn [detailsOf renders ad_element atomDetails] in R2. rewrite Ht in R2.
  split; [exact R2|exact R1].
Qed.

(** ** Select operations leave the scene alone *)

Lemma sameModel_refl s : sameModel s s.
Proof. done. Qed.

Lemma sameModel_trans s1 s2 s3 :
  sameModel s1 s2 -> sameModel s2 s3 -> sameModel s1 s3.
Proof.
  intros (? & ? & ? & ? & ? & ?) (? & ? & ? & ? & ? & ?).
  repeat split; congruence.
Qed.

Lemma sameModel_highlight r s : sameModel (highlight r s) s.
Proof. unfold highlight. by destruct (materialColor s !! r). Qed.

Lemma foldl_sameModel {A : Type} (step : State -> A -> State)
    (xs : list A) (s : State) :
  (forall t x, sameModel (step t x) t) -> sameModel (foldl step s xs) s.
Proof.
  intros Hstep. revert s. induction xs as [|x xs IH]; intros s; [done|].
  simpl. eapply sameModel_trans; [apply IH|apply Hstep].
Qed.

Lemma highlightMeshesUnder_sameModel id q group s :
  sameModel (highlightMeshesUnder id q group s) s.
Proof.
  apply foldl_sameModel. intros t x.
  destruct (isMesh x.2); [apply sameModel_highlight|done].
Qed.

Lemma highlightFace_sameModel id root f s :
  sameModel (highlightFace id root f s) s.
Proof.
  apply foldl_sameModel. intros t x.
  destruct (_ && _); [apply sameModel_highlight|done].
Qed.

Lemma sameModel_selection sel d s s' :
  sameModel s s' ->
  sameModel (set_currentSelectionDetails sel (displaySelectionDetails d s)) s'.
Proof.
  intros H. unfold displaySelectionDetails.
  destruct d as [d|]; [destruct (renders d)|]; exact H.
Qed.

Lemma handleHighlight_sameModel ctx p s : sameModel (handleHighlight ctx p s) s.
Proof.
  unfold handleHighlight.
  change (generatedObject (set_angleVisualizationGroup [] s))
    with (generatedObject s).
  change (currentMode (set_angleVisualizationGroup [] s))
    with (currentMode s).
  destruct (generatedObject s) as [[id root]|]; [|done].
  destruct (nodeAt root p) as [[ud g c pos| |]|]; try done.
  destruct (currentMode s) as [[|]|]; try done.
  - destruct (faceId ud) as [f|]; [|done].
    eapply sameModel_trans; [apply highlightFace_sameModel|].
    destruct (details ud); [by apply sameModel_selection|done].
  - destruct (findBondGroup root p) as [q|].
    + destruct (nodeAt root q) as [bg|]; [|done].
      eapply sameModel_trans; [apply highlightMeshesUnder_sameModel|].
      destruct (details (userDataOf bg)) as [[| |b]|]; try done.
      by apply sameModel_selection.
    + destruct (details ud) as [[|a|]|]; try done.
      destruct (truthy (ad_element a)); [|done]. cbv zeta.
      match goal with
      | |- context [set_angleVisualizationGroup ?ov (highlight ?r ?X)] =>
          apply (sameModel_trans _ (highlight r X));
            [done|];
          apply (sameModel_trans _ X); [apply sameModel_highlight|]
      end.
      by apply sameModel_selection.
Qed.

(** No select operation changes the active model, the models in the
    scene, the numbering of objects, the mode, the image or the error
    line. *)
Lemma select_sameModel ctx op st : sameModel (select ctx op st) st.
Proof.
  destruct op as [hit|sel]; cbn [select].
  - unfold onCanvasClick.
    change (generatedObject (clearSelection st)) with (generatedObject st).
    destruct (generatedObject st) as [[id root]|]; [|done].
    destruct hit as [p|]; [|done].
    apply (sameModel_trans _ (clearSelection st));
      [apply handleHighlight_sameModel|done].
  - unfold reHighlightSelection.
    destruct (generatedObject st) as [[id root]|]; [|done].
    set (s0 := displaySelectionDetails _ _).
    assert (H0 : sameModel s0 st).
    { unfold s0, displaySelectionDetails. by destruct (renders _). }
    clearbody s0.
    eapply sameModel_trans; [|exact H0].
    destruct sel as [f d|i d|s e d]; cbv zeta.
    + apply highlightFace_sameModel.
    + apply foldl_sameModel. intros t x.
      destruct x.2 as [ud g c pos| |]; try done.
      destruct (details ud) as [[|a|]|]; try done.
      destruct (bool_decide _); [|done].
      exact (sameModel_highlight (id, x.1) t).
    + apply foldl_sameModel. intros t x.
      destruct x.2 as [| |ud pos q ch] eqn:Hx; try done.
      destruct (details ud) as [[| |b]|]; try done.
      destruct (_ && _); [|done].
      apply highlightMeshesUnder_sameModel.
Qed.

Lemma click_sameModel ctx hit st : sameModel (onCanvasClick ctx hit st) st.
Proof. exact (select_sameModel ctx (Pick hit) st). Qed.

Lemma restore_sameModel ctx sel st :
  sameModel (reHighlightSelection ctx sel st) st.
Proof. exact (select_sameModel ctx (Restore sel) st). Qed.

Lemma ethene_builds :
  exists g, buildChemistryModel sampleContext cornerBox ethene = Ok g.
Proof.
  unfold buildChemistryModel. cbn [atoms ethene apartAtoms].
  cbv zeta. destruct (Rltb 0.001 _); eexists; reflexivity.
Qed.

Lemma nextObjectId_loadSessionState ctx box mode data g st :
  buildFor ctx box (Some mode) data = Ok g ->
  nextObjectId (loadSessionState ctx box
                  {| session_mode := mode; session_modelData := Some data |}
                  st)
  = S (nextObjectId st)
  /\ currentMode (loadSessionState ctx box
                    {| session_mode := mode; session_modelData := Some data |}
                    st)
     = Some mode.
Proof.
  intros Hb. rewrite (loadSessionState_built _ _ _ _ _ _ Hb).
  destruct (session_fields mode (resetApp st)) as (Hm & _ & Hn).
  destruct (addToScene_fields box g
              (set_selectedImage true
                 (set_currentMode (Some mode) (resetApp st))))
    as (_ & _ & -> & _ & _ & ->).
  rewrite Hn, nextObjectId_resetApp. done.
Qed.

Lemma C1_witness_ethene :
  exists g,
    buildChemistryModel sampleContext cornerBox ethene = Ok g
    /\ atoms ethene = Some apartAtoms
    /\ apartAtoms !! 1%nat = Some (carbonAt (vec3 1 0 0))
    /\ (highlightedObjects
          (reHighlightSelection sampleContext
             (chemistry_atom 1
                (OfAtom (atomDetails (carbonAt (vec3 1 0 0)) 1)))
             (loadSessionState sampleContext cornerBox
                (sessionOf chemistry ethene)
                (onCanvasClick sampleContext (Some [1; 0]%nat)
                   (loadSessionState sampleContext cornerBox
                      (sessionOf chemistry ethene) initialState))))).*1
       = [(1, [1; 0])]%nat
    /\ (highlightedObjects
          (onCanvasClick sampleContext (Some [1; 0]%nat)
             (loadSessionState sampleContext cornerBox
                (sessionOf chemistry ethene) initialState))).*1
       = [(0, [1; 0])]%nat.
Proof.
  destruct ethene_builds as (g & Hb). exists g. unfold sessionOf.
  destruct (loadSessionState_consistent sampleContext cornerBox chemistry
              ethene g initialState Hb) as [Hc _].
  destruct (nextObjectId_loadSessionState sampleContext cornerBox chemistry
              ethene g initialState Hb) as [Hn Hm].
  destruct (click_sameModel sampleContext (Some [1; 0]%nat)
              (loadSessionState sampleContext cornerBox
                 {| session_mode := chemistry;
                    session_modelData := Some ethene |} initialState))
    as (_ & _ & Hn1 & _).
  rewrite Hn in Hn1.
  destruct (loadSessionState_consistent sampleContext cornerBox chemistry
              ethene g
              (onCanvasClick sampleContext (Some [1; 0]%nat)
                 (loadSessionState sampleContext cornerBox
                    {| session_mode := chemistry;
                       session_modelData := Some ethene |} initialState))
              Hb) as [Hc' _].
  rewrite Hn1 in Hc'.
  destruct (atom_click sampleContext cornerBox ethene g apartAtoms 1
              (carbonAt (vec3 1 0 0)) _ _ Hb eq_refl eq_refl Hm Hc)
    as (Hcap & _).
  destruct (C1_atom_selection_survives_rebuild sampleContext cornerBox
              ethene g apartAtoms 1 (carbonAt (vec3 1 0 0)) _ _ _ _ _
              Hb eq_refl eq_refl Hm Hc Hc' Hcap)
    as (_ & Hpick & Hrestore & _).
  split; [exact Hb|]. split; [reflexivity|]. split; [reflexivity|].
  split; [exact Hrestore|exact Hpick].
Defined.

(** ** What the builders return *)

Lemma buildFor_valid ctx box mode data g :
  buildFor ctx box (Some mode) data = Ok g -> isModelValid g = true.
Proof.
  destruct mode; simpl.
  - unfold buildGeometryModel.
    destruct (vertices data) as [[|v vs]|]; try done.
    destruct (faces data) as [[|f fs]|]; try done.
    set (meshes := omap built _).
    destruct (_ =? 0)%nat eqn:Hz; [done|]. apply Nat.eqb_neq in Hz.
    assert (Hpos : (0 < List.length meshes)%nat).
    { pose proof (filter_length isMesh meshes). lia. }
    destruct (Rltb 0.001 _); intros [= <-]; simpl; apply Nat.ltb_lt;
      rewrite ?length_map, length_app; lia.
  - unfold buildChemistryModel.
    destruct (atoms data) as [[|a l]|]; try done.
    destruct (Rltb 0.001 _); intros [= <-]; simpl; apply Nat.ltb_lt;
      rewrite ?length_map; simpl; lia.
Qed.

(** X1.  Every model a builder returns passes the validity test that
    [handleGenerateClick] applies to it, so a generation attempt with an
    image and a mode ends in one of two ways only: the built model is
    added to the emptied scene, or the builder's own error is shown. *)
Theorem built_models_pass_validity
    (ctx : option (string -> R)) (box : Object3D -> Box3) (st : State)
    (mode : Mode) (data : ModelData) :
  selectedImage st = true ->
  currentMode st = Some mode ->
  (forall g, buildFor ctx box (Some mode) data = Ok g ->
             isModelValid g = true)
  /\ handleGenerateClick ctx box (Document data) st
     = match buildFor ctx box (Some mode) data with
       | Ok g => addToScene box g (afterReset st)
       | Throw e => showError (message e) (afterReset st)
       end.
Proof.
  intros Himg Hmode. split; [intros g; apply buildFor_valid|].
  destruct (buildFor ctx box (Some mode) data) as [g|e] eqn:Hb.
  - apply (handleGenerateClick_built _ _ _ _ _ _ Himg Hmode Hb).
    by apply (buildFor_valid ctx box mode data).
  - by apply (handleGenerateClick_failed _ _ _ _ _ _ Himg Hmode).
Qed.

Lemma built_models_pass_validity_witness :
  selectedImage readyForGeometry = true
  /\ currentMode readyForGeometry = Some geometry
  /\ handleGenerateClick sampleContext cornerBox (Document allDefective)
                         readyForGeometry
     = match buildFor sampleContext cornerBox (Some geometry) allDefective with
       | Ok g => addToScene cornerBox g (afterReset readyForGeometry)
       | Throw e => showError (message e) (afterReset readyForGeometry)
       end.
Proof.
  split; [reflexivity|]. split; [reflexivity|].
  exact (proj2 (built_models_pass_validity sampleContext cornerBox
                  readyForGeometry geometry allDefective eq_refl eq_refl)).
Defined.

(** *** Bonds of a molecule *)

Lemma lookupZ_map {A B : Type} (f : A -> B) (l : list A) (i : Z) :
  lookupZ (map f l) i = f <$> lookupZ l i.
Proof.
  unfold lookupZ. destruct (0 <=? i)%Z; [|done]. apply list_lookup_fmap.
Qed.

Lemma lookupZ_is_Some {A : Type} (l : list A) (i : Z) :
  (0 <=? i)%Z = true -> (i <? Z.of_nat (List.length l))%Z = true ->
  is_Some (lookupZ l i).
Proof.
  intros H0 H1. unfold lookupZ. rewrite H0. apply lookup_lt_is_Some.
  apply Z.leb_le in H0. apply Z.ltb_lt in H1. lia.
Qed.

(** A bond is drawn exactly when both of its ends are indices of atoms;
    the group is then built from the scaled positions of these atoms. *)
Lemma buildBond_inRange atomList bond :
  buildBond atomList (map scaledPosition atomList) bond
  = if inRange (List.length atomList) bond
    then Some (bondGroupOf atomList bond) else None.
Proof.
  unfold buildBond, inRange. rewrite length_map.
  destruct (_ && _)%bool eqn:Hr; [|done].
  apply andb_true_iff in Hr as [Hr He1]. apply andb_true_iff in Hr as [Hr He0].
  apply andb_true_iff in Hr as [Hs0 Hs1].
  destruct (lookupZ_is_Some atomList (start bond) Hs0 Hs1) as [a Ha].
  destruct (lookupZ_is_Some atomList (end_ bond) He0 He1) as [b Hb].
  unfold bondGroupOf. cbv zeta. rewrite !lookupZ_map, Ha, Hb. reflexivity.
Qed.

Lemma omap_buildBond atomList bs :
  omap (buildBond atomList (map scaledPosition atomList)) bs
  = map (bondGroupOf atomList)
        (List.filter (inRange (List.length atomList)) bs).
Proof.
  induction bs as [|b bs IH]; [done|].
  cbn [List.filter]. change (omap ?f (b :: bs))
    with (match f b with Some y => y :: omap f bs | None => omap f bs end).
  rewrite buildBond_inRange, IH.
  by destruct (inRange _ b).
Qed.

Lemma cylinderGroup_no_sprites s o :
  cylinderGroup o -> scaleSpritesDeep s o = o.
Proof. by intros []. Qed.

Lemma bondGroup_no_sprites s o : bondGroup o -> scaleSpritesDeep s o = o.
Proof.
  intros [b pos q cylinders Hc]. cbn [scaleSpritesDeep]. f_equal.
  induction Hc as [|c cs Hc _ IH]; [done|].
  cbn [map]. by rewrite IH, (cylinderGroup_no_sprites s c Hc).
Qed.

Lemma bondGroupOf_bondGroup atomList bond : bondGroup (bondGroupOf atomList bond).
Proof. apply createBond_bondGroup. Qed.

(** The children of a built molecule: one group per atom, in the order of
    the description, then one group per bond whose ends are both atom
    indices, in the order of the description. *)
Lemma molecule_children ctx box data atomList g :
  buildChemistryModel ctx box data = Ok g ->
  atoms data = Some atomList ->
  exists atomGroups,
    childrenOf g
    = atomGroups
      ++ map (bondGroupOf atomList)
             (List.filter (inRange (List.length atomList))
                          (default [] (bonds data)))
    /\ List.length atomGroups = List.length atomList
    /\ (forall k atom, atomList !! k = Some atom ->
          exists grp, atomGroups !! k = Some grp
                      /\ positionOf grp = scaledPosition atom
                      /\ sphereOf grp = sphereOf (buildAtom ctx k atom))
    /\ atomPositions (userDataOf g) = Some (map scaledPosition atomList).
Proof.
  intros Hb Ha.
  pose proof (buildFor_rescales ctx box chemistry data g Hb) as Hg.
  cbn [assembled] in Hg. unfold chemistryGroup in Hg. rewrite Ha in Hg.
  cbn [default from_option Datatypes.id] in Hg. cbv zeta in Hg.
  assert (Hbonds : match bonds data with
                   | Some bs =>
                       omap (buildBond atomList (map scaledPosition atomList))
                            bs
                   | None => []
                   end
                   = map (bondGroupOf atomList)
                         (List.filter (inRange (List.length atomList))
                                      (default [] (bonds data)))).
  { destruct (bonds data) as [bs|]; [apply omap_buildBond|done]. }
  rewrite Hbonds in Hg.
  destruct (Rltb 0.001 _); subst g.
  - cbn [scaleSpritesDeep childrenOf userDataOf atomPositions].
    rewrite map_app.
    match goal with
    | |- context [map (scaleSpritesDeep ?s) (imap _ _)] =>
        exists (map (scaleSpritesDeep s) (imap (buildAtom ctx) atomList))
    end.
    split; [|split; [|split]].
    + f_equal. rewrite map_map. apply map_ext. intros b.
      apply bondGroup_no_sprites, bondGroupOf_bondGroup.
    + by rewrite length_map, length_imap.
    + intros k atom Hk. change (map ?f ?l) with (f <$> l).
      rewrite list_lookup_fmap, list_lookup_imap, Hk. eexists.
      split; [reflexivity|].
      destruct (buildAtom_shape ctx k atom)
        as (pos & r & c & labels & Hshape & _ & _).
      rewrite Hshape. split; [|reflexivity].
      unfold buildAtom, createAtom in Hshape. by injection Hshape as <- _.
    + done.
  - cbn [childrenOf userDataOf atomPositions].
    exists (imap (buildAtom ctx) atomList).
    split; [done|]. split; [by rewrite length_imap|]. split; [|done].
    intros k atom Hk. rewrite list_lookup_imap, Hk. eexists.
    split; [reflexivity|]. done.
Qed.

(** X2.  In a molecule that builds, the groups after the atoms' groups
    are exactly the groups of the bonds whose start and end are both
    indices of atoms, in the order of the description; each is made by
    [createBond] from the scaled positions of its two atoms and named
    after their elements.  A bond with an index out of range is passed
    over, and no bond makes the build fail. *)
Theorem bonds_in_range_are_drawn
    (ctx : option (string -> R)) (box : Object3D -> Box3) (data : ModelData)
    (atomList : list AtomData) (g : Object3D) :
  buildChemistryModel ctx box data = Ok g ->
  atoms data = Some atomList ->
  drop (List.length atomList) (childrenOf g)
  = map (bondGroupOf atomList)
        (List.filter (inRange (List.length atomList))
                     (default [] (bonds data)))
  /\ List.length (childrenOf g)
     = (List.length atomList
        + List.length (List.filter (inRange (List.length atomList))
                                   (default [] (bonds data))))%nat
  /\ (forall bond,
        inRange (List.length atomList) bond = false ->
        buildBond atomList (map scaledPosition atomList) bond = None)
  /\ (forall bond,
        inRange (List.length atomList) bond = true ->
        bondCylinderMeshes (bondGroupOf atomList bond) <> []
        /\ details (userDataOf (bondGroupOf atomList bond))
           = Some (OfBond
                     {| bd_name :=
                          default "" (element <$> lookupZ atomList (start bond))
                          ++ "-"
                          ++ default ""
                               (element <$> lookupZ atomList (end_ bond));
                        bd_type := type bond;
                        bd_energy := energy bond;
                        startAtomIndex := start bond;
                        endAtomIndex := end_ bond |})).
Proof.
  intros Hb Ha.
  destruct (molecule_children ctx box data atomList g Hb Ha)
    as (ags & Hch & Hlen & _).
  rewrite Hch. split; [|split; [|split]].
  - by apply drop_app_length'.
  - by rewrite length_app, length_map, Hlen.
  - intros bond Hr. by rewrite buildBond_inRange, Hr.
  - intros bond _. split; [|reflexivity].
    unfold bondGroupOf. cbv zeta.
    rewrite bondCylinderMeshes_createBond. unfold bondCylinders.
    destruct (String.eqb _ "double"); [|destruct (String.eqb _ "triple")];
      done.
Qed.

Lemma bonds_in_range_are_drawn_witness :
  exists g,
    buildChemistryModel sampleContext cornerBox
      {| vertices := None; faces := None; labels := None;
         atoms := Some apartAtoms;
         bonds := Some [doubleBond01;
                        {| start := 0; end_ := 2; type := "single";
                           energy := "" |}] |} = Ok g
    /\ List.length (childrenOf g) = 3%nat.
Proof.
  destruct (buildChemistryModel sampleContext cornerBox _) as [g|e] eqn:Hb.
  2:{ exfalso. revert Hb. unfold buildChemistryModel.
      cbn [atoms apartAtoms]. cbv zeta. by destruct (Rltb 0.001 _). }
  exists g. split; [reflexivity|].
  destruct (bonds_in_range_are_drawn sampleContext cornerBox _ apartAtoms g
              Hb eq_refl) as (_ & Hlen & _).
  exact Hlen.
Defined.

(** X3.  [buildChemistryModel] fails in two cases only, both of the
    schema kind: no list of atoms, or an empty one.  With at least one
    atom it returns a model whose table of atom positions holds the
    position of every atom scaled by 3 (the origin for an atom without
    a position), and whose [k]-th child is the group of atom [k], placed
    at that scaled position. *)
Theorem molecule_build_outcome
    (ctx : option (string -> R)) (box : Object3D -> Box3) (data : ModelData) :
  (atoms data = None
   -> buildChemistryModel ctx box data = Throw AtomsNotFound)
  /\ (atoms data = Some []
      -> buildChemistryModel ctx box data = Throw AtomsEmpty)
  /\ (forall e, buildChemistryModel ctx box data = Throw e ->
                kind e = SchemaError
                /\ (atoms data = None \/ atoms data = Some []))
  /\ (forall atom rest,
        atoms data = Some (atom :: rest) ->
        exists g,
          buildChemistryModel ctx box data = Ok g
          /\ atomPositions (userDataOf g)
             = Some (map scaledPosition (atom :: rest))
          /\ (forall k a, (atom :: rest) !! k = Some a ->
                exists grp,
                  childrenOf g !! k = Some grp
                  /\ positionOf grp
                     = Vector3.multiplyScalar
                         (default Vector3.zero (atom_position a)) 3
                  /\ isGroup grp = true)).
Proof.
  split; [|split; [|split]].
  - intros Ha. unfold buildChemistryModel. by rewrite Ha.
  - intros Ha. unfold buildChemistryModel. by rewrite Ha.
  - intros e. unfold buildChemistryModel.
    destruct (atoms data) as [[|a l]|].
    + intros [= <-]. split; [done|by right].
    + by destruct (Rltb _ _).
    + intros [= <-]. split; [done|by left].
  - intros atom rest Ha.
    destruct (buildChemistryModel ctx box data) as [g|e] eqn:Hb.
    2:{ exfalso. revert Hb. unfold buildChemistryModel. rewrite Ha.
        by destruct (Rltb _ _). }
    exists g. split; [done|].
    destruct (molecule_children ctx box data _ g Hb Ha)
      as (ags & Hch & Hlen & Hat & Hpos).
    split; [exact Hpos|]. intros k a Hk.
    destruct (Hat k a Hk) as (grp & Hgrp & Hp & Hsph).
    exists grp. split; [|split].
    + rewrite Hch. by apply lookup_app_l_Some.
    + rewrite Hp. unfold scaledPosition, CHEM_MODEL_SCALE. f_equal. lra.
    + destruct (buildAtom_shape ctx k a) as (? & ? & ? & ? & Hs & _).
      rewrite Hs in Hsph. by destruct grp.
Qed.

(** *** The sphere of an atom *)

Lemma upperChar_lowerChar c : upperChar (lowerChar c) = upperChar c.
Proof. destruct c as [[] [] [] [] [] [] [] []]; reflexivity. Qed.

Lemma toUpperCase_toLowerCase s : toUpperCase (toLowerCase s) = toUpperCase s.
Proof.
  induction s as [|c s IH]; [done|].
  cbn [toUpperCase toLowerCase mapString] in *.
  by rewrite upperChar_lowerChar, IH.
Qed.

Lemma assoc_None {A : Type} (key : string) (table : list (string * A)) :
  assoc key table = None <-> key ∉ map fst table.
Proof.
  induction table as [|[k v] table IH]; simpl.
  - split; [intros _; apply not_elem_of_nil|done].
  - rewrite not_elem_of_cons. destruct (String.eqb_spec k key) as [->|Hne].
    + split; [done|]. by intros [? _].
    + rewrite IH. split; [by intros ?; split|by intros [_ ?]].
Qed.

Lemma assoc_Some {A : Type} (key : string) (table : list (string * A)) v :
  assoc key table = Some v -> (key, v) ∈ table.
Proof.
  induction table as [|[k v'] table IH]; simpl; [done|].
  destruct (String.eqb_spec k key) as [->|Hne].
  - intros [= ->]. by left.
  - intros H. right. by apply IH.
Qed.

Lemma ATOM_RADII_positive :
  Forall (fun kv => 0 < kv.2) ATOM_RADII /\ 0 < ATOM_RADII_DEFAULT.
Proof.
  unfold ATOM_RADII, ATOM_RADII_DEFAULT, CHEM_MODEL_SCALE.
  split; [repeat constructor; simpl; lra|lra].
Qed.

(** X4.  The sphere of an atom is sized and coloured by its element
    symbol, read without regard to case: atoms whose symbols agree once
    upper-cased get the same sphere, so the lower-cased symbol gives the
    same sphere as the symbol itself; a symbol that is not in the table
    gets the default colour 0xffc0cb and the default radius 0.25 * 3; and
    the radius is positive in every case. *)
Theorem atom_sphere_by_symbol
    (ctx : option (string -> R)) (atom : AtomData) (position : Vector3.t)
    (index : nat) :
  (forall atom' position' index',
      toUpperCase (element atom') = toUpperCase (element atom) ->
      sphereOf (createAtom ctx atom' position' index')
      = sphereOf (createAtom ctx atom position index))
  /\ sphereOf (createAtom ctx (withElement (toLowerCase (element atom)) atom)
                          position index)
     = sphereOf (createAtom ctx atom position index)
  /\ (toUpperCase (element atom) ∉ map fst CPK_COLORS ->
      sphereOf (createAtom ctx atom position index)
      = Some (SphereGeometry (0.25 * 3), 0xffc0cb%Z))
  /\ exists radius color,
       sphereOf (createAtom ctx atom position index)
       = Some (SphereGeometry radius, color)
       /\ 0 < radius.
Proof.
  assert (Hs : forall a p i,
             sphereOf (createAtom ctx a p i)
             = Some (SphereGeometry
                       (default ATOM_RADII_DEFAULT
                          (assoc (toUpperCase (element a)) ATOM_RADII)),
                     default CPK_DEFAULT
                       (assoc (toUpperCase (element a)) CPK_COLORS)))
    by done.
  split; [|split; [|split]].
  - intros atom' position' index' Heq. by rewrite !Hs, Heq.
  - rewrite !Hs. cbn [withElement element].
    by rewrite toUpperCase_toLowerCase.
  - intros Hout. rewrite Hs.
    assert (Hr : toUpperCase (element atom) ∉ map fst ATOM_RADII)
      by exact Hout.
    apply assoc_None in Hout, Hr. rewrite Hout, Hr.
    cbn [default from_option Datatypes.id].
    replace ATOM_RADII_DEFAULT with (0.25 * 3)
      by (unfold ATOM_RADII_DEFAULT, CHEM_MODEL_SCALE; lra).
    reflexivity.
  - rewrite Hs. eexists _, _. split; [reflexivity|].
    destruct ATOM_RADII_positive as [Hall Hd].
    destruct (assoc _ ATOM_RADII) as [r|] eqn:Hr; [|exact Hd].
    apply assoc_Some in Hr.
    exact (proj1 (Forall_forall _ _) Hall _ Hr).
Qed.

(** *** The labels of a solid *)

Lemma omap_labelOf_scaled s l :
  omap labelOf (map (scaleSpritesDeep s) l) = omap labelOf l.
Proof.
  induction l as [|o l IH]; [done|].
  destruct o; simpl; first [exact IH | f_equal; exact IH].
Qed.

Lemma omap_labelOf_meshes l :
  Forall (fun o => isMesh o = true) l -> omap labelOf l = [].
Proof.
  induction 1 as [|o l Ho _ IH]; [done|]. by destruct o.
Qed.

Lemma omap_labelOf_labels ctx ls :
  omap labelOf (omap (buildLabel ctx) ls)
  = match ctx with
    | Some _ =>
        map (fun ld => (label_text ld,
                        fromArray (default [] (label_position ld))))
            (List.filter usableLabel ls)
    | None => []
    end.
Proof.
  induction ls as [|ld ls IH]; [by destruct ctx|].
  cbn [List.filter].
  change (omap (buildLabel ctx) (ld :: ls))
    with (match buildLabel ctx ld with
          | Some y => y :: omap (buildLabel ctx) ls
          | None => omap (buildLabel ctx) ls
          end).
  unfold buildLabel at 1, usableLabel, createLabelSprite.
  destruct (truthy (label_text ld)); [|exact IH].
  destruct (label_position ld) as [pos|] eqn:Hp; [|exact IH].
  destruct ctx as [measureText|]; [|exact IH].
  simpl. rewrite Hp. simpl. f_equal. exact IH.
Qed.

(** X5.  The label sprites of a solid that builds: when the canvas gives
    a 2D context there is one sprite for every label of the description
    that has a non-empty text and a position, in the order of the
    description, with that text and at that literal position; a label
    without text or without a position is passed over; and when the
    canvas gives no context the solid is built without any label.  All
    sprites come after all triangle meshes. *)
Theorem solid_labels
    (ctx : option (string -> R)) (box : Object3D -> Box3) (data : ModelData)
    (g : Object3D) :
  buildGeometryModel ctx box data = Ok g ->
  omap labelOf (childrenOf g)
  = match ctx with
    | Some _ =>
        map (fun ld => (label_text ld,
                        fromArray (default [] (label_position ld))))
            (List.filter usableLabel (default [] (labels data)))
    | None => []
    end
  /\ childrenOf g
     = List.filter isMesh (childrenOf g) ++ List.filter isSprite (childrenOf g)
  /\ List.length (List.filter isSprite (childrenOf g))
     = List.length (omap labelOf (childrenOf g)).
Proof.
  intros Hb.
  pose proof (buildFor_rescales ctx box geometry data g Hb) as Hg.
  cbn [assembled] in Hg. unfold geometryGroup in Hg.
  set (meshes := omap built _) in Hg.
  set (sprites := match labels data with Some _ => _ | None => _ end) in Hg.
  assert (Hm : Forall (fun o => isMesh o = true) meshes).
  { unfold meshes. apply Forall_forall. intros o Ho.
    apply list_elem_of_omap in Ho as (r & Hr & Hbl).
    apply elem_of_concat in Hr as (l & Hr & Hl).
    apply elem_of_lookup_imap in Hl as (k & fg & -> & _).
    unfold buildFace in Hr.
    destruct (triangles fg); [|by apply elem_of_nil in Hr].
    apply list_elem_of_fmap in Hr as (t & -> & _).
    unfold buildTriangle in Hbl. destruct (indices t); [|done].
    destruct (negb _); [done|]. destruct (existsb _ _); [done|].
    simpl in Hbl. by injection Hbl as <-. }
  assert (Hsp : Forall (fun o => isSprite o = true) sprites).
  { unfold sprites. destruct (labels data) as [ls|]; [|constructor].
    apply Forall_forall. intros o Ho.
    apply list_elem_of_omap in Ho as (ld & _ & Hld).
    unfold buildLabel, createLabelSprite in Hld.
    destruct (truthy _); [|done]. destruct (label_position ld); [|done].
    destruct ctx; [|done]. simpl in Hld. by injection Hld as <-. }
  assert (Hlab : omap labelOf sprites
                 = match ctx with
                   | Some _ =>
                       map (fun ld => (label_text ld,
                                       fromArray
                                         (default [] (label_position ld))))
                           (List.filter usableLabel (default [] (labels data)))
                   | None => []
                   end).
  { unfold sprites. destruct (labels data) as [ls|];
      [apply omap_labelOf_labels|by destruct ctx]. }
  assert (Hsplit : forall l : list Object3D,
             Forall (fun o => isMesh o = true) l ->
             List.filter isMesh l = l /\ List.filter isSprite l = []).
  { induction 1 as [|o l Ho _ [IH1 IH2]]; [done|].
    destruct o; try done. simpl. by rewrite IH1, IH2. }
  assert (Hsplit' : forall l : list Object3D,
             Forall (fun o => isSprite o = true) l ->
             List.filter isMesh l = [] /\ List.filter isSprite l = l
             /\ List.length (omap labelOf l) = List.length l).
  { induction 1 as [|o l Ho _ (IH1 & IH2 & IH3)]; [done|].
    destruct o; try done. simpl. rewrite IH1, IH2.
    split; [done|]. split; [done|]. f_equal. exact IH3. }
  assert (Hfinal : forall ch,
             Forall (fun o => isMesh o = true) (take (List.length meshes) ch)
             -> Forall (fun o => isSprite o = true)
                       (drop (List.length meshes) ch)
             -> ch = List.filter isMesh ch ++ List.filter isSprite ch
                /\ List.length (List.filter isSprite ch)
                   = List.length (omap labelOf ch)).
  { intros ch H1 H2. rewrite <- (take_drop (List.length meshes) ch) at 1 2 3 4 5.
    rewrite !List.filter_app, omap_app.
    destruct (Hsplit _ H1) as [-> ->].
    destruct (Hsplit' _ H2) as (-> & -> & Hl).
    rewrite app_nil_r, (omap_labelOf_meshes _ H1). simpl. by rewrite Hl. }
  destruct (Rltb 0.001 _); subst g; cbn [scaleSpritesDeep childrenOf].
  - split.
    { by rewrite omap_labelOf_scaled, omap_app, (omap_labelOf_meshes _ Hm),
        Hlab. }
    apply Hfinal.
    + rewrite map_app, take_app_length'; [|by rewrite length_map].
      apply Forall_fmap. eapply Forall_impl; [exact Hm|]. by intros [].
    + rewrite map_app, drop_app_length'; [|by rewrite length_map].
      apply Forall_fmap. eapply Forall_impl; [exact Hsp|]. by intros [].
  - split.
    { by rewrite omap_app, (omap_labelOf_meshes _ Hm), Hlab. }
    apply Hfinal.
    + by rewrite take_app_length.
    + by rewrite drop_app_length.
Qed.

Lemma solid_labels_witness :
  exists g,
    buildGeometryModel sampleContext cornerBox solidA = Ok g
    /\ omap labelOf (childrenOf g)
       = [("ab"%string, (Finite 1.5, Finite 2, Finite 0))].
Proof.
  destruct (buildGeometryModel sampleContext cornerBox solidA) as [g|e]
    eqn:Hb.
  2:{ exfalso. revert Hb. unfold buildGeometryModel. simpl.
      by destruct (Rltb _ _). }
  exists g. split; [reflexivity|].
  rewrite (proj1 (solid_labels sampleContext cornerBox solidA g Hb)).
  reflexivity.
Defined.

(** ** More on selection *)

(** X6.  No sequence of select operations (clicks and restored
    selections, in any order) changes the active model, the models in the
    scene, the numbering of objects, the mode, the image or the error
    line. *)
Theorem selecting_keeps_the_scene
    (ctx : option (string -> R)) (ops : list SelectOp) (st : State) :
  sameModel (foldl (fun s op => select ctx op s) st ops) st.
Proof.
  apply foldl_sameModel. intros t op. apply select_sameModel.
Qed.

Lemma onCanvasClick_miss ctx hit st id root :
  generatedObject st = Some (id, root) ->
  resolved (currentMode st) root (Pick hit) = [] ->
  (hit = None
   \/ exists p, hit = Some p
                /\ forall ud g c pos, nodeAt root p <> Some (Mesh ud g c pos)) ->
  sameSelection (onCanvasClick ctx hit st) (clearSelection st)
  /\ angleVisualizationGroup (onCanvasClick ctx hit st) = [].
Proof.
  intros Hg _ Hhit. unfold onCanvasClick.
  assert (Hg' : generatedObject (clearSelection st) = Some (id, root))
    by exact Hg.
  rewrite Hg'. destruct Hhit as [->|(p & -> & Hp)]; [done|].
  unfold handleHighlight.
  assert (Hg'' : generatedObject
                   (set_angleVisualizationGroup [] (clearSelection st))
                 = Some (id, root)) by exact Hg.
  rewrite Hg''.
  destruct (nodeAt root p) as [[ud g c pos| |]|]; try done.
  by destruct (Hp ud g c pos).
Qed.

(** X7.  A click that hits nothing, or hits an object that is not a mesh
    (a label, say), deselects: the highlight list is emptied, every mesh
    of the model shows the colour it was built with, no selection is
    current, the details panel is hidden and empty, and the angle overlay
    is empty. *)
Theorem click_on_nothing_deselects
    (ctx : option (string -> R)) (hit : option (list nat)) (st : State)
    (id : nat) (root : Object3D) :
  consistent st id root ->
  (hit = None
   \/ exists p, hit = Some p
                /\ forall ud g c pos, nodeAt root p <> Some (Mesh ud g c pos)) ->
  highlightedObjects (onCanvasClick ctx hit st) = []
  /\ (forall p c, builtColor root p = Some c ->
        materialColor (onCanvasClick ctx hit st) !! (id, p) = Some c)
  /\ currentSelectionDetails (onCanvasClick ctx hit st) = None
  /\ selectionDetailsContent (onCanvasClick ctx hit st) = None
  /\ selectionDetailsHidden (onCanvasClick ctx hit st) = true
  /\ angleVisualizationGroup (onCanvasClick ctx hit st) = [].
Proof.
  intros Hc Hhit.
  assert (Hres : resolved (currentMode st) root (Pick hit) = []).
  { destruct Hhit as [->|(p & -> & Hp)]; [done|].
    cbn [resolved]. unfold pickTargets.
    destruct (nodeAt root p) as [[ud g c pos| |]|]; try done.
    by destruct (Hp ud g c pos). }
  destruct (select_consistent ctx (Pick hit) st id root Hc)
    as (_ & _ & _ & Hh & Hcol).
  cbn [select] in Hh, Hcol. rewrite Hres in Hh, Hcol.
  destruct (onCanvasClick_miss ctx hit st id root (active _ _ _ Hc) Hres Hhit)
    as ((H1 & H2 & H3) & Hov).
  split; [by apply fmap_nil_inv in Hh|].
  split; [intros p c Hb; by rewrite (Hcol p c Hb)|].
  rewrite H1, H2, H3. done.
Qed.

Lemma click_on_nothing_deselects_witness :
  exists g,
    buildFor sampleContext cornerBox (Some geometry) nineAndOne = Ok g
    /\ highlightedObjects
         (onCanvasClick sampleContext None
            (onCanvasClick sampleContext (Some [0%nat])
               (loadSessionState sampleContext cornerBox
                  (sessionOf geometry nineAndOne) initialState))) = [].
Proof.
  destruct nineAndOne_builds as (g & Hb & Hch). exists g.
  unfold sessionOf.
  pose proof (loadSessionState_consistent sampleContext cornerBox geometry
                nineAndOne g initialState Hb) as [Hc _].
  destruct (click_consistent sampleContext (Some [0%nat]) _ _ _ Hc)
    as (Hc1 & _).
  split; [exact Hb|].
  destruct (click_on_nothing_deselects sampleContext None _ _ _ Hc1
              (or_introl eq_refl)) as (Hnil & _).
  exact Hnil.
Defined.

(** X8.  Restoring a stored selection that matches no primitive of the
    active model (an atom index the molecule does not have, say) still
    clears the previous highlight, makes the stored selection the current
    one and shows its details when they have the field of their kind;
    nothing is highlighted. *)
Theorem restore_without_match
    (ctx : option (string -> R)) (sel : SelectionData) (st : State)
    (id : nat) (root : Object3D) :
  consistent st id root ->
  resolved (currentMode st) root (Restore sel) = [] ->
  highlightedObjects (reHighlightSelection ctx sel st) = []
  /\ (forall p c, builtColor root p = Some c ->
        materialColor (reHighlightSelection ctx sel st) !! (id, p) = Some c)
  /\ currentSelectionDetails (reHighlightSelection ctx sel st) = Some sel
  /\ selectionDetailsContent (reHighlightSelection ctx sel st)
     = (if renders (detailsOf sel) then Some (detailsOf sel) else None).
Proof.
  intros Hc Hres.
  destruct (select_consistent ctx (Restore sel) st id root Hc)
    as (_ & _ & _ & Hh & Hcol).
  cbn [select] in Hh, Hcol. rewrite Hres in Hh, Hcol.
  destruct (reHighlightSelection_selection ctx sel st id root
              (active _ _ _ Hc)) as (H1 & H2 & _).
  split; [by apply fmap_nil_inv in Hh|].
  split; [intros p c Hb; by rewrite (Hcol p c Hb)|]. done.
Qed.

Lemma restore_without_match_witness :
  exists g,
    buildFor sampleContext cornerBox (Some geometry) nineAndOne = Ok g
    /\ currentSelectionDetails
         (reHighlightSelection sampleContext
            (geometry_face 7 (OfFace {| surfaceArea := "6";
                                        perimeter := "12" |}))
            (loadSessionState sampleContext cornerBox
               (sessionOf geometry nineAndOne) initialState))
       = Some (geometry_face 7 (OfFace {| surfaceArea := "6";
                                          perimeter := "12" |}))
    /\ highlightedObjects
         (reHighlightSelection sampleContext
            (geometry_face 7 (OfFace {| surfaceArea := "6";
                                        perimeter := "12" |}))
            (loadSessionState sampleContext cornerBox
               (sessionOf geometry nineAndOne) initialState)) = [].
Proof.
  destruct nineAndOne_builds as (g & Hb & Hch). exists g.
  unfold sessionOf.
  pose proof (loadSessionState_consistent sampleContext cornerBox geometry
                nineAndOne g initialState Hb) as [Hc _].
  assert (Hres : resolved
                   (currentMode
                      (loadSessionState sampleContext cornerBox
                         {| session_mode := geometry;
                            session_modelData := Some nineAndOne |}
                         initialState))
                   (recentre (getCenter (cornerBox g)) g)
                   (Restore (geometry_face 7
                               (OfFace {| surfaceArea := "6";
                                          perimeter := "12" |}))) = []).
  { cbn [resolved]. unfold faceTargets. rewrite childrenOf_recentre, Hch.
    reflexivity. }
  destruct (restore_without_match sampleContext _ _ _ _ Hc Hres)
    as (Hh & _ & Hs & _).
  split; [exact Hb|]. split; [exact Hs|exact Hh].
Defined.

(** ** The angle overlay of a selected atom *)

Lemma overlay_highlight r s :
  angleVisualizationGroup (highlight r s) = angleVisualizationGroup s.
Proof. unfold highlight. by destruct (materialColor s !! r). Qed.

(** Restoring an atom: the angles of the stored details are drawn once for
    every mesh that carries the stored index. *)
Lemma restore_atom_overlay ctx i d st id root :
  generatedObject st = Some (id, root) ->
  angleVisualizationGroup
    (reHighlightSelection ctx (chemistry_atom i d) st)
  = Nat.iter (List.length (atomTargets root i)) (drawAngles ctx root d) [].
Proof.
  intros Hg. unfold reHighlightSelection. rewrite Hg.
  set (s0 := displaySelectionDetails _ _).
  assert (H0 : angleVisualizationGroup s0 = []).
  { unfold s0, displaySelectionDetails. by destruct (renders _). }
  clearbody s0. cbv zeta. unfold atomTargets. rewrite <- H0. clear H0.
  revert s0. induction (traverse root) as [|x l IH]; intros s0; [done|].
  cbn [foldl]. rewrite IH. clear IH.
  change (omap ?f (x :: l))
    with (match f x with Some y => y :: omap f l | None => omap f l end).
  unfold isAtomMesh at 2.
  destruct x.2 as [ud g c pos| |]; try done.
  destruct (details ud) as [[|a|]|]; try done.
  destruct (bool_decide _); [|done].
  cbn [List.length]. rewrite Nat.iter_succ_r. f_equal.
  change (angleVisualizationGroup (set_angleVisualizationGroup ?ov ?s))
    with ov.
  by rewrite overlay_highlight.
Qed.

(** A click on the sphere of a selectable atom draws the angles of its
    details on an empty overlay. *)
Lemma click_atom_overlay ctx st id root k a g c pos grp :
  generatedObject st = Some (id, root) ->
  currentMode st = Some chemistry ->
  details (userDataOf root) = None ->
  nodeAt root [k; 0%nat] = Some (Mesh (tagged (Some (OfAtom a))) g c pos) ->
  nodeAt root [k] = Some grp -> userDataOf grp = noUserData ->
  truthy (ad_element a) = true ->
  angleVisualizationGroup (onCanvasClick ctx (Some [k; 0%nat]) st)
  = drawAngles ctx root (OfAtom a) [].
Proof.
  intros Hg Hm Hr Hn Hk Hu Ht.
  pose proof (findBondGroup_atom root k a g c pos grp Hr Hn Hk Hu) as Hf.
  unfold onCanvasClick.
  assert (Hg' : generatedObject (clearSelection st) = Some (id, root))
    by exact Hg.
  rewrite Hg'. unfold handleHighlight.
  assert (Hg'' : generatedObject
                   (set_angleVisualizationGroup [] (clearSelection st))
                 = Some (id, root)) by exact Hg.
  rewrite Hg'', Hn.
  change (currentMode (set_angleVisualizationGroup [] (clearSelection st)))
    with (currentMode st).
  rewrite Hm, Hf. cbn [details tagged]. rewrite Ht. cbv zeta.
  change (angleVisualizationGroup (set_angleVisualizationGroup ?ov ?s))
    with ov.
  rewrite overlay_highlight. f_equal.
  unfold displaySelectionDetails, renders. by rewrite Ht.
Qed.

(** X9.  Restoring the stored selection of an atom draws the same angle
    overlay as the click that captured it: in both cases the angles of
    the atom's details are drawn once, on an emptied overlay, from the
    atom positions of the active model. *)
Theorem restored_atom_overlay_matches_click
    (ctx : option (string -> R)) (box : Object3D -> Box3) (data : ModelData)
    (g : Object3D) (atomList : list AtomData) (i : nat) (atom : AtomData)
    (st st' : State) (id id' : nat) :
  buildChemistryModel ctx box data = Ok g ->
  atoms data = Some atomList -> atomList !! i = Some atom ->
  truthy (element atom) = true ->
  currentMode st = Some chemistry ->
  consistent st id (recentre (getCenter (box g)) g) ->
  consistent st' id' (recentre (getCenter (box g)) g) ->
  angleVisualizationGroup
    (reHighlightSelection ctx
       (chemistry_atom i (OfAtom (atomDetails atom i))) st')
  = angleVisualizationGroup (onCanvasClick ctx (Some [i; 0%nat]) st)
  /\ angleVisualizationGroup (onCanvasClick ctx (Some [i; 0%nat]) st)
     = drawAngles ctx (recentre (getCenter (box g)) g)
                  (OfAtom (atomDetails atom i)) [].
Proof.
  intros Hb Ha Hi Ht Hm Hc Hc'.
  destruct (shaped _ _ _ Hc) as (mode & Hm' & Hs).
  rewrite Hm in Hm'. injection Hm' as <-.
  destruct (chemistry_atom_sphere ctx box data g atomList i atom
              (getCenter (box g)) Hb Ha Hi) as (r & Hn).
  destruct (molecule_meshes _ _ _ _ _ _ Hs Hn)
    as [(k & a & grp & [= <-] & _ & _ & Hk & Hu)
       |(k & j & b & grp & cg & ? & ? & _)]; [|done].
  destruct (atomTargets_sphere _ _ _ _ _ _ Hs Hn) as [_ Hat].
  rewrite (restore_atom_overlay ctx i _ st' id' _ (active _ _ _ Hc')), Hat.
  rewrite (click_atom_overlay ctx st id _ i _ _ _ _ grp
             (active _ _ _ Hc) Hm (molecule_root_untagged _ Hs) Hn Hk Hu Ht).
  done.
Qed.

Lemma restored_atom_overlay_matches_click_witness :
  exists g,
    buildChemistryModel sampleContext cornerBox ethene = Ok g
    /\ angleVisualizationGroup
         (reHighlightSelection sampleContext
            (chemistry_atom 1
               (OfAtom (atomDetails (carbonAt (vec3 1 0 0)) 1)))
            (loadSessionState sampleContext cornerBox
               (sessionOf chemistry ethene) initialState))
       = angleVisualizationGroup
           (onCanvasClick sampleContext (Some [1; 0]%nat)
              (loadSessionState sampleContext cornerBox
                 (sessionOf chemistry ethene) initialState)).
Proof.
  destruct ethene_builds as (g & Hb). exists g. unfold sessionOf.
  destruct (loadSessionState_consistent sampleContext cornerBox chemistry
              ethene g initialState Hb) as [Hc _].
  destruct (nextObjectId_loadSessionState sampleContext cornerBox chemistry
              ethene g initialState Hb) as [_ Hm].
  split; [exact Hb|].
  exact (proj1 (restored_atom_overlay_matches_click sampleContext cornerBox
                  ethene g apartAtoms 1 (carbonAt (vec3 1 0 0)) _ _ _ _
                  Hb eq_refl eq_refl eq_refl Hm Hc Hc)).
Defined.

(** X10.  An atom whose element is the empty string is drawn, with the
    default colour, but cannot be selected: a click on its sphere leaves
    nothing highlighted, no current selection and an empty details
    panel. *)
Theorem unnamed_atom_cannot_be_selected
    (ctx : option (string -> R)) (box : Object3D -> Box3) (data : ModelData)
    (g : Object3D) (atomList : list AtomData) (i : nat) (atom : AtomData)
    (st : State) (id : nat) :
  buildChemistryModel ctx box data = Ok g ->
  atoms data = Some atomList -> atomList !! i = Some atom ->
  element atom = ""%string ->
  currentMode st = Some chemistry ->
  consistent st id (recentre (getCenter (box g)) g) ->
  builtColor (recentre (getCenter (box g)) g) [i; 0%nat] = Some CPK_DEFAULT
  /\ highlightedObjects (onCanvasClick ctx (Some [i; 0%nat]) st) = []
  /\ currentSelectionDetails (onCanvasClick ctx (Some [i; 0%nat]) st) = None
  /\ selectionDetailsContent (onCanvasClick ctx (Some [i; 0%nat]) st) = None.
Proof.
  intros Hb Ha Hi He Hm Hc.
  destruct (atom_click ctx box data g atomList i atom st id Hb Ha Hi Hm Hc)
    as (H1 & H2 & H3).
  destruct (chemistry_atom_sphere ctx box data g atomList i atom
              (getCenter (box g)) Hb Ha Hi) as (r & Hn).
  rewrite He in H1, H2, H3, Hn. simpl in H1, H2, H3.
  split; [by rewrite (builtColor_mesh _ _ _ _ _ _ Hn)|].
  split; [by apply fmap_nil_inv in H3|]. done.
Qed.

Lemma unnamed_atom_cannot_be_selected_witness :
  exists g,
    buildChemistryModel sampleContext cornerBox
      {| vertices := None; faces := None; labels := None;
         atoms := Some [withElement "" (carbonAt (vec3 0 0 0))];
         bonds := None |} = Ok g
    /\ highlightedObjects
         (onCanvasClick sampleContext (Some [0; 0]%nat)
            (loadSessionState sampleContext cornerBox
               (sessionOf chemistry
                  {| vertices := None; faces := None; labels := None;
                     atoms := Some [withElement "" (carbonAt (vec3 0 0 0))];
                     bonds := None |})
               initialState)) = [].
Proof.
  destruct (buildChemistryModel sampleContext cornerBox _) as [g|e] eqn:Hb.
  2:{ exfalso. revert Hb. unfold buildChemistryModel.
      cbn [atoms]. cbv zeta. by destruct (Rltb 0.001 _). }
  exists g. split; [reflexivity|]. unfold sessionOf.
  destruct (loadSessionState_consistent sampleContext cornerBox chemistry
              _ g initialState Hb) as [Hc _].
  destruct (nextObjectId_loadSessionState sampleContext cornerBox chemistry
              _ g initialState Hb) as [_ Hm].
  destruct (unnamed_atom_cannot_be_selected sampleContext cornerBox _ g
              _ 0 _ _ _ Hb eq_refl eq_refl eq_refl Hm Hc) as (_ & Hnil & _).
  exact Hnil.
Defined.

(** ** Clicks on bonds and faces *)

Lemma overlay_highlightMeshesUnder id q group s :
  angleVisualizationGroup (highlightMeshesUnder id q group s)
  = angleVisualizationGroup s.
Proof.
  unfold highlightMeshesUnder. revert s.
  induction (traverse group) as [|x l IH]; intros s; [done|].
  cbn [foldl]. rewrite IH.
  destruct (isMesh x.2); [apply overlay_highlight|done].
Qed.

Lemma overlay_highlightFace id root f s :
  angleVisualizationGroup (highlightFace id root f s)
  = angleVisualizationGroup s.
Proof.
  unfold highlightFace. revert s.
  induction (imap pair (childrenOf root)) as [|x l IH]; intros s; [done|].
  cbn [foldl]. rewrite IH.
  destruct (_ && _); [apply overlay_highlight|done].
Qed.

(** A click on a cylinder selects the bond of the tagged group two levels
    up when the type recorded there is a non-empty string, and selects
    nothing otherwise. *)
Lemma onCanvasClick_cylinder ctx st id root k j b grp cg g c pos :
  generatedObject st = Some (id, root) ->
  currentMode st = Some chemistry ->
  details (userDataOf root) = None ->
  nodeAt root [k; j; 0%nat] = Some (Mesh noUserData g c pos) ->
  nodeAt root [k; j] = Some cg -> userDataOf cg = noUserData ->
  nodeAt root [k] = Some grp ->
  userDataOf grp = tagged (Some (OfBond b)) ->
  currentSelectionDetails (onCanvasClick ctx (Some [k; j; 0%nat]) st)
  = (if truthy (bd_type b)
     then Some (chemistry_bond (startAtomIndex b) (endAtomIndex b) (OfBond b))
     else None)
  /\ selectionDetailsContent (onCanvasClick ctx (Some [k; j; 0%nat]) st)
     = (if truthy (bd_type b) then Some (OfBond b) else None)
  /\ angleVisualizationGroup (onCanvasClick ctx (Some [k; j; 0%nat]) st) = []
  /\ resolved (Some chemistry) root (Pick (Some [k; j; 0%nat]))
     = (if truthy (bd_type b) then subtreeTargets [k] grp else []).
Proof.
  intros Hg Hm Hr Hn Hcg Hcu Hk Hud.
  pose proof (findBondGroup_cylinder root k j b grp cg g c pos
                Hr Hn Hcg Hcu Hk Hud) as Hf.
  assert (Hres : resolved (Some chemistry) root (Pick (Some [k; j; 0%nat]))
                 = (if truthy (bd_type b) then subtreeTargets [k] grp
                    else [])).
  { cbn [resolved]. unfold pickTargets. rewrite Hn, Hf.
    destruct (truthy (bd_type b)); [by rewrite Hk|done]. }
  assert (Hrun : onCanvasClick ctx (Some [k; j; 0%nat]) st
                 = if truthy (bd_type b)
                   then highlightMeshesUnder id [k] grp
                          (set_currentSelectionDetails
                             (Some (chemistry_bond (startAtomIndex b)
                                      (endAtomIndex b) (OfBond b)))
                             (displaySelectionDetails (Some (OfBond b))
                                (set_angleVisualizationGroup []
                                   (clearSelection st))))
                   else set_angleVisualizationGroup [] (clearSelection st)).
  { unfold onCanvasClick.
    assert (Hg' : generatedObject (clearSelection st) = Some (id, root))
      by exact Hg.
    rewrite Hg'. unfold handleHighlight.
    assert (Hg'' : generatedObject
                     (set_angleVisualizationGroup [] (clearSelection st))
                   = Some (id, root)) by exact Hg.
    rewrite Hg'', Hn.
    change (currentMode (set_angleVisualizationGroup [] (clearSelection st)))
      with (currentMode st).
    rewrite Hm, Hf.
    destruct (truthy (bd_type b)); [|done].
    rewrite Hk, Hud. reflexivity. }
  rewrite Hrun. destruct (truthy (bd_type b)) eqn:Ht.
  - match goal with
    | |- context [highlightMeshesUnder id [k] grp ?X] =>
        destruct (highlightMeshesUnder_selection id [k] grp X)
          as (H1 & _ & H3);
        pose proof (overlay_highlightMeshesUnder id [k] grp X) as H4
    end.
    rewrite H1, H3, H4. split; [done|]. split; [|split; [|done]].
    + unfold displaySelectionDetails, renders. by rewrite Ht.
    + unfold displaySelectionDetails, renders. by rewrite Ht.
  - done.
Qed.

Lemma omap_none {A B : Type} (f : A -> option B) (l : list A) :
  (forall x, x ∈ l -> f x = None) -> omap f l = [].
Proof.
  induction l as [|x l IH]; intros H; [done|].
  change (omap f (x :: l))
    with (match f x with Some y => y :: omap f l | None => omap f l end).
  rewrite (H x) by (by left). apply IH. intros y Hy. apply H. by right.
Qed.

(** In a list of entries with distinct paths, a selection that accepts
    one entry and only entries with that entry's path yields that one
    entry. *)
Lemma omap_unique {A B : Type} (test : A -> bool) (pick : list nat * A -> B)
    (l : list (list nat * A)) (p0 : list nat) (n0 : A) :
  NoDup l.*1 -> (p0, n0) ∈ l -> test n0 = true ->
  (forall p n, (p, n) ∈ l -> test n = true -> p = p0) ->
  omap (fun pc => if test pc.2 then Some (pick pc) else None) l
  = [pick (p0, n0)].
Proof.
  induction l as [|[p n] l IH]; intros Hnd Hin Ht Hall;
    [by apply elem_of_nil in Hin|].
  cbn [fmap list_fmap fst] in Hnd. apply NoDup_cons in Hnd as [Hp Hnd].
  change (omap ?f ((p, n) :: l))
    with (match f (p, n) with Some y => y :: omap f l | None => omap f l end).
  cbn [snd]. destruct (test n) eqn:Htn.
  - assert (p = p0) as -> by (apply (Hall p n); [by left|done]).
    assert (n = n0) as ->.
    { apply elem_of_cons in Hin as [[= ->]|Hin]; [done|].
      exfalso. apply Hp. apply list_elem_of_fmap. by exists (p0, n0). }
    f_equal. apply omap_none. intros [p' n'] Hin'. cbn [snd].
    destruct (test n') eqn:Ht'; [|done]. exfalso.
    apply Hp. apply list_elem_of_fmap. exists (p', n'). split; [|done].
    simpl. symmetry. apply (Hall p' n'); [by right|done].
  - apply IH; [done| |done|].
    + apply elem_of_cons in Hin as [[= -> ->]|Hin]; [congruence|done].
    + intros p' n' Hin'. apply Hall. by right.
Qed.

Lemma molecule_child_is_group root k grp :
  sceneShape chemistry root -> nodeAt root [k] = Some grp ->
  isGroup grp = true.
Proof.
  intros Hs Hk. destruct grp as [ud0 g0 c0 pos0| |]; [| |done].
  - destruct (molecule_meshes root [k] _ _ _ _ Hs Hk)
      as [(? & ? & ? & [=] & _)|(? & ? & ? & ? & ? & [=] & _)].
  - pose proof (molecule_nodes root [k] _ Hs Hk) as Hnode.
    inversion Hnode; subst;
      match goal with
      | H : atomGroup _ _ |- _ => inversion H
      | H : bondGroup _ |- _ => inversion H
      end.
Qed.

(** When one bond group only carries a pair of atom indices, the stored
    pair resolves to the meshes of that group. *)
Lemma bondTargets_unique root k grp b :
  sceneShape chemistry root ->
  nodeAt root [k] = Some grp ->
  userDataOf grp = tagged (Some (OfBond b)) ->
  (forall k' grp' b',
      nodeAt root [k'] = Some grp' ->
      details (userDataOf grp') = Some (OfBond b') ->
      startAtomIndex b' = startAtomIndex b ->
      endAtomIndex b' = endAtomIndex b -> k' = k) ->
  bondTargets root (startAtomIndex b) (endAtomIndex b)
  = subtreeTargets [k] grp.
Proof.
  intros Hs Hk Hud Huniq. unfold bondTargets.
  pose proof (molecule_child_is_group root k grp Hs Hk) as Hgrp.
  rewrite (omap_unique (isBondGroup (startAtomIndex b) (endAtomIndex b))
             (fun pc => subtreeTargets pc.1 pc.2)
             (traverse root) [k] grp).
  - simpl. by rewrite app_nil_r.
  - apply NoDup_traverse.
  - by apply traverse_nodeAt.
  - destruct grp as [| |ud pos q ch]; try done. simpl in *. rewrite Hud.
    simpl. by rewrite !bool_decide_eq_true_2.
  - intros p n Hin Hb. apply traverse_nodeAt in Hin.
    destruct n as [| |ud pos q ch]; try done. simpl in Hb.
    destruct (details ud) as [[| |b']|] eqn:Hd; try done.
    apply andb_true_iff in Hb as [H1 H2].
    apply bool_decide_eq_true in H1, H2.
    destruct (molecule_tagged_groups root p _ (OfBond b') Hs Hin eq_refl Hd)
      as (k' & _ & -> & _).
    f_equal. by apply (Huniq k' _ b' Hin Hd).
Qed.

(** X11.  A click on a cylinder of a bond whose recorded type is a
    non-empty string selects the whole bond: every mesh below the bond's
    group is highlighted, the clicked cylinder among them, and the
    captured reference is of kind chemistry_bond with the bond's pair of
    atom indices and its details.  With an empty type nothing is selected.
    Restoring the captured reference on a scene with the same graph,
    whatever the identity of the model object, highlights the meshes
    below every group that carries the pair, which are the same meshes
    when no other bond has that pair. *)
Theorem bond_click_selects_whole_bond
    (ctx : option (string -> R)) (st : State) (id : nat) (root : Object3D)
    (k j : nat) (ud : UserData) (g : Geometry) (c : Z) (pos : Vector3.t)
    (grp : Object3D) (b : BondDetails) :
  consistent st id root ->
  currentMode st = Some chemistry ->
  nodeAt root [k; j; 0%nat] = Some (Mesh ud g c pos) ->
  nodeAt root [k] = Some grp ->
  details (userDataOf grp) = Some (OfBond b) ->
  (truthy (bd_type b) = true ->
     currentSelectionDetails (onCanvasClick ctx (Some [k; j; 0%nat]) st)
     = Some (chemistry_bond (startAtomIndex b) (endAtomIndex b) (OfBond b))
     /\ selectionDetailsContent (onCanvasClick ctx (Some [k; j; 0%nat]) st)
        = Some (OfBond b)
     /\ (highlightedObjects (onCanvasClick ctx (Some [k; j; 0%nat]) st)).*1
        = map (pair id) (subtreeTargets [k] grp)
     /\ [k; j; 0%nat] ∈ subtreeTargets [k] grp)
  /\ (truthy (bd_type b) = false ->
      currentSelectionDetails (onCanvasClick ctx (Some [k; j; 0%nat]) st)
      = None
      /\ highlightedObjects (onCanvasClick ctx (Some [k; j; 0%nat]) st) = [])
  /\ (forall st' id',
        consistent st' id' root ->
        (forall p, p ∈ subtreeTargets [k] grp ->
           (id', p)
           ∈ (highlightedObjects
                (reHighlightSelection ctx
                   (chemistry_bond (startAtomIndex b) (endAtomIndex b)
                      (OfBond b)) st')).*1)
        /\ ((forall k' grp' b',
               nodeAt root [k'] = Some grp' ->
               details (userDataOf grp') = Some (OfBond b') ->
               startAtomIndex b' = startAtomIndex b ->
               endAtomIndex b' = endAtomIndex b -> k' = k) ->
            (highlightedObjects
               (reHighlightSelection ctx
                  (chemistry_bond (startAtomIndex b) (endAtomIndex b)
                     (OfBond b)) st')).*1
            = map (pair id') (subtreeTargets [k] grp))).
Proof.
  intros Hc Hm Hn Hk Hd.
  destruct (shaped _ _ _ Hc) as (mode & Hm' & Hs).
  rewrite Hm in Hm'. injection Hm' as <-.
  destruct (molecule_meshes root _ _ _ _ _ Hs Hn)
    as [(k' & a & grp' & [= <-] & _)
       |(k' & j' & b' & grp' & cg & [= <- <-] & -> & Hk' & Hu & Hcg & Hcu)].
  rewrite Hk in Hk'. injection Hk' as <-.
  rewrite Hu in Hd. simpl in Hd. injection Hd as <-.
  destruct (onCanvasClick_cylinder ctx st id root k j b' grp cg g c pos
              (active _ _ _ Hc) Hm (molecule_root_untagged _ Hs)
              Hn Hcg Hcu Hk Hu) as (H1 & H2 & _ & H4).
  destruct (click_consistent ctx (Some [k; j; 0%nat]) st id root Hc)
    as (_ & _ & Hh & _).
  rewrite Hm, H4 in Hh.
  assert (Hin : [k; j; 0%nat] ∈ subtreeTargets [k] grp).
  { apply elem_of_subtreeTargets. exists [j; 0%nat], (Mesh noUserData g c pos).
    split; [done|]. split; [|done].
    by rewrite <- (nodeAt_app root [k] grp [j; 0%nat] Hk). }
  split; [|split].
  - intros Ht. rewrite Ht in H1, H2, Hh. done.
  - intros Ht. rewrite Ht in H1, Hh. split; [done|].
    by apply fmap_nil_inv in Hh.
  - intros st' id' Hc'.
    destruct (restore_consistent ctx
                (chemistry_bond (startAtomIndex b') (endAtomIndex b')
                   (OfBond b')) st' id' root Hc') as (_ & _ & Hh' & _).
    cbn [resolved] in Hh'. rewrite Hh'. split.
    + intros p Hp. apply list_elem_of_fmap. exists p. split; [done|].
      apply elem_of_bondTargets. exists [k], grp. split; [done|].
      split; [|done].
      pose proof (molecule_child_is_group root k grp Hs Hk) as Hgrp.
      destruct grp as [| |ud' pos' q' ch]; try done.
      simpl in *. rewrite Hu. simpl. by rewrite !bool_decide_eq_true_2.
    + intros Huniq. by rewrite (bondTargets_unique root k grp b' Hs Hk Hu).
Qed.

Lemma ethene_bond g center :
  buildChemistryModel sampleContext cornerBox ethene = Ok g ->
  nodeAt (recentre center g) [2%nat]
  = Some (bondGroupOf apartAtoms doubleBond01)
  /\ exists geometry position,
       nodeAt (recentre center g) [2; 0; 0]%nat
       = Some (Mesh noUserData geometry bondColor position).
Proof.
  intros Hb.
  destruct (molecule_children sampleContext cornerBox ethene apartAtoms g
              Hb eq_refl) as (ags & Hch & Hlen & _).
  assert (Hk : childrenOf g !! 2%nat
               = Some (bondGroupOf apartAtoms doubleBond01)).
  { rewrite Hch, lookup_app_r by (rewrite Hlen; simpl; lia).
    rewrite Hlen. reflexivity. }
  rewrite !nodeAt_recentre, !nodeAt_child, Hk. split; [reflexivity|].
  eexists _, _. reflexivity.
Qed.

Lemma bond_click_selects_whole_bond_witness :
  exists g,
    buildChemistryModel sampleContext cornerBox ethene = Ok g
    /\ currentSelectionDetails
         (onCanvasClick sampleContext (Some [2; 0; 0]%nat)
            (loadSessionState sampleContext cornerBox
               (sessionOf chemistry ethene) initialState))
       = Some (chemistry_bond 0 1
                 (OfBond {| bd_name := "C-C"; bd_type := "double";
                            bd_energy := "614 kJ/mol";
                            startAtomIndex := 0; endAtomIndex := 1 |})).
Proof.
  destruct ethene_builds as (g & Hb). exists g. unfold sessionOf.
  destruct (loadSessionState_consistent sampleContext cornerBox chemistry
              ethene g initialState Hb) as [Hc _].
  destruct (nextObjectId_loadSessionState sampleContext cornerBox chemistry
              ethene g initialState Hb) as [_ Hm].
  destruct (ethene_bond g (getCenter (cornerBox g)) Hb)
    as (Hk & geometry & position & Hn).
  split; [exact Hb|].
  destruct (bond_click_selects_whole_bond sampleContext _ _ _ 2 0 _ _ _ _ _
              {| bd_name := "C-C"; bd_type := "double";
                 bd_energy := "614 kJ/mol";
                 startAtomIndex := 0; endAtomIndex := 1 |}
              Hc Hm Hn Hk eq_refl) as (Hsel & _).
  exact (proj1 (Hsel eq_refl)).
Defined.

(** A click on a triangle of a solid: the face is recorded as the current
    selection only when its group has details. *)
Lemma onCanvasClick_face ctx st id root p ud g c pos f :
  generatedObject st = Some (id, root) ->
  currentMode st = Some geometry ->
  nodeAt root p = Some (Mesh ud g c pos) ->
  faceId ud = Some f ->
  currentSelectionDetails (onCanvasClick ctx (Some p) st)
  = geometry_face f <$> details ud
  /\ selectionDetailsContent (onCanvasClick ctx (Some p) st)
     = (details ud ≫= fun d => if renders d then Some d else None)
  /\ angleVisualizationGroup (onCanvasClick ctx (Some p) st) = [].
Proof.
  intros Hg Hm Hn Hf.
  assert (Hrun : onCanvasClick ctx (Some p) st
                 = highlightFace id root f
                     match details ud with
                     | Some d =>
                         set_currentSelectionDetails
                           (Some (geometry_face f d))
                           (displaySelectionDetails (Some d)
                              (set_angleVisualizationGroup []
                                 (clearSelection st)))
                     | None =>
                         set_angleVisualizationGroup [] (clearSelection st)
                     end).
  { unfold onCanvasClick.
    assert (Hg' : generatedObject (clearSelection st) = Some (id, root))
      by exact Hg.
    rewrite Hg'. unfold handleHighlight.
    assert (Hg'' : generatedObject
                     (set_angleVisualizationGroup [] (clearSelection st))
                   = Some (id, root)) by exact Hg.
    rewrite Hg'', Hn.
    change (currentMode (set_angleVisualizationGroup [] (clearSelection st)))
      with (currentMode st).
    by rewrite Hm, Hf. }
  rewrite Hrun.
  match goal with
  | |- context [highlightFace id root f ?X] =>
      destruct (highlightFace_selection id root f X) as (H1 & _ & H3);
      pose proof (overlay_highlightFace id root f X) as H4
  end.
  rewrite H1, H3, H4. destruct (details ud) as [d|]; [|done].
  unfold displaySelectionDetails.
  destruct (renders d) eqn:Hr; simpl; by rewrite Hr.
Qed.

(** X12.  A click on a triangle of a solid highlights every triangle mesh
    that carries the same face index, the clicked one among them,
    whether or not the face group has details; the face becomes the
    current selection only when its group has details.  Restoring a
    reference to that face index on a scene with the same graph, whatever
    the identity of the model object and whatever details the reference
    holds, highlights the same meshes. *)
Theorem face_click_selects_whole_face
    (ctx : option (string -> R)) (st : State) (id : nat) (root : Object3D)
    (p : list nat) (ud : UserData) (g : Geometry) (c : Z) (pos : Vector3.t)
    (f : nat) :
  consistent st id root ->
  currentMode st = Some geometry ->
  nodeAt root p = Some (Mesh ud g c pos) ->
  faceId ud = Some f ->
  (highlightedObjects (onCanvasClick ctx (Some p) st)).*1
  = map (pair id) (faceTargets root f)
  /\ p ∈ faceTargets root f
  /\ (forall q, q ∈ faceTargets root f
        <-> exists k m, q = [k] /\ childrenOf root !! k = Some m
                        /\ isMesh m = true /\ faceIdOf m = Some f)
  /\ currentSelectionDetails (onCanvasClick ctx (Some p) st)
     = geometry_face f <$> details ud
  /\ (forall st' id' d,
        consistent st' id' root ->
        (highlightedObjects
           (reHighlightSelection ctx (geometry_face f d) st')).*1
        = map (pair id') (faceTargets root f)).
Proof.
  intros Hc Hm Hn Hf.
  destruct (shaped _ _ _ Hc) as (mode & Hm' & Hs).
  rewrite Hm in Hm'. injection Hm' as <-.
  destruct (click_consistent ctx (Some p) st id root Hc) as (_ & _ & Hh & _).
  rewrite Hm in Hh. cbn [resolved] in Hh. unfold pickTargets in Hh.
  rewrite Hn, Hf in Hh.
  destruct (onCanvasClick_face ctx st id root p ud g c pos f
              (active _ _ _ Hc) Hm Hn Hf) as (H1 & _).
  split; [exact Hh|]. split; [|split; [|split]].
  - destruct (solid_meshes root p ud g c pos Hs Hn) as (k & f' & d & -> & _).
    apply elem_of_faceTargets. exists k, (Mesh ud g c pos).
    split; [done|]. split; [|done].
    simpl in Hn. by destruct (childrenOf root !! k).
  - intros q. apply elem_of_faceTargets.
  - exact H1.
  - intros st' id' d Hc'.
    by destruct (restore_consistent ctx (geometry_face f d) st' id' root Hc')
      as (_ & _ & -> & _).
Qed.

Lemma face_click_selects_whole_face_witness :
  exists g,
    buildFor sampleContext cornerBox (Some geometry) nineAndOne = Ok g
    /\ (highlightedObjects
          (onCanvasClick sampleContext (Some [4%nat])
             (loadSessionState sampleContext cornerBox
                (sessionOf geometry nineAndOne) initialState))).*1
       = [(0, [3]); (0, [4]); (0, [5])]%nat.
Proof.
  destruct nineAndOne_builds as (g & Hb & Hch). exists g.
  unfold sessionOf.
  destruct (loadSessionState_consistent sampleContext cornerBox geometry
              nineAndOne g initialState Hb) as [Hc _].
  destruct (nextObjectId_loadSessionState sampleContext cornerBox geometry
              nineAndOne g initialState Hb) as [_ Hm].
  assert (Hn : exists ud geometry position,
             nodeAt (recentre (getCenter (cornerBox g)) g) [4%nat]
             = Some (Mesh ud geometry baseFaceColor position)
             /\ faceId ud = Some 1%nat).
  { rewrite nodeAt_recentre, nodeAt_child, Hch. eexists _, _, _.
    split; reflexivity. }
  destruct Hn as (ud & geometry & position & Hn & Hf).
  split; [exact Hb|].
  rewrite (proj1 (face_click_selects_whole_face sampleContext _ _ _ _ _ _ _ _
                    _ Hc Hm Hn Hf)).
  unfold faceTargets. rewrite childrenOf_recentre, Hch. reflexivity.
Defined.

(** ** More on the angle overlay *)

Lemma angleTo_bounds (v1 v2 : Vector3.t) :
  0 <= Vector3.angleTo v1 v2 <= PI.
Proof.
  unfold Vector3.angleTo. destruct (Req_dec_T _ 0).
  - pose proof PI_RGT_0. lra.
  - apply acos_bound.
Qed.

(** X13.  What [drawAngleVisualization] does for any three points: the
    angle between the two rays lies between 0 and pi; when it is below
    0.01 the overlay is left as it was; otherwise the overlay it was
    given is kept and one pivot is added at [pCenter], holding an arc of
    radius 0.4 * 3 from 0 to that angle sampled in 32 segments, followed
    by one label with the given text exactly when a label sprite can be
    made. *)
Theorem overlay_of_an_angle
    (ctx : option (string -> R)) (p1 pCenter p2 : Vector3.t)
    (text : string) (group : list Overlay) :
  0 <= Vector3.angleTo (Vector3.subVectors p1 pCenter)
                       (Vector3.subVectors p2 pCenter) <= PI
  /\ (Vector3.angleTo (Vector3.subVectors p1 pCenter)
                      (Vector3.subVectors p2 pCenter) < 0.01 ->
      drawAngleVisualization ctx p1 pCenter p2 text group = group)
  /\ (0.01 <= Vector3.angleTo (Vector3.subVectors p1 pCenter)
                              (Vector3.subVectors p2 pCenter) ->
      exists xAxis yAxis zAxis labelPosition,
        drawAngleVisualization ctx p1 pCenter p2 text group
        = group
          ++ [ArcPivot pCenter xAxis yAxis zAxis
                {| aX := 0; aY := 0; aRadius := 0.4 * 3;
                   aStartAngle := 0;
                   aEndAngle :=
                     Vector3.angleTo (Vector3.subVectors p1 pCenter)
                                     (Vector3.subVectors p2 pCenter);
                   aClockwise := false |} 32]
          ++ match ctx with
             | Some _ => [AngleLabel text labelPosition (vec3 0.5 0.5 0.5)]
             | None => []
             end).
Proof.
  split; [apply angleTo_bounds|]. split.
  - intros Hsmall. unfold drawAngleVisualization.
    by rewrite (Rltb_lt _ _ Hsmall).
  - intros Hbig.
    destruct (drawAngleVisualization_draws ctx p1 pCenter p2 text group
                (Rltb_ge _ _ Hbig)) as (xA & yA & zA & lp & ->).
    exists xA, yA, zA, lp.
    replace (0.4 * CHEM_MODEL_SCALE) with (0.4 * 3)
      by (unfold CHEM_MODEL_SCALE; lra).
    reflexivity.
Qed.

Lemma sub_add_cancel (p v : Vector3.t) :
  Vector3.subVectors (Vector3.add p v) p = v.
Proof. destruct p, v. apply vec3_eq; simpl; ring. Qed.

(** The angle between a vector that is not zero and a positive multiple
    of it is zero. *)
Lemma angleTo_same_direction (v : Vector3.t) (k : R) :
  0 < k -> Vector3.lengthSq v <> 0 ->
  Vector3.angleTo v (Vector3.multiplyScalar v k) = 0.
Proof.
  intros Hk Hv. unfold Vector3.angleTo.
  set (L := Vector3.lengthSq v) in *.
  assert (HL : 0 < L).
  { unfold L, Vector3.lengthSq in *.
    pose proof (Rle_0_sqr (Vector3.x v)). pose proof (Rle_0_sqr (Vector3.y v)).
    pose proof (Rle_0_sqr (Vector3.z v)). unfold Rsqr in *. lra. }
  assert (Hl2 : Vector3.lengthSq (Vector3.multiplyScalar v k) = k * k * L).
  { unfold L, Vector3.lengthSq. simpl. ring. }
  assert (Hdot : Vector3.dot v (Vector3.multiplyScalar v k) = k * L).
  { unfold L, Vector3.lengthSq, Vector3.dot. simpl. ring. }
  rewrite Hl2, Hdot.
  replace (L * (k * k * L)) with ((k * L) * (k * L)) by ring.
  assert (HkL : 0 < k * L) by (by apply Rmult_lt_0_compat).
  rewrite sqrt_square by lra.
  destruct (Req_dec_T (k * L) 0) as [H0|_]; [lra|].
  replace (k * L / (k * L)) with 1 by (field; lra).
  unfold clamp. rewrite (Rmin_left 1 1) by lra.
  rewrite (Rmax_right (-1) 1) by lra. apply acos_1.
Qed.

(** X14.  When the two rays from [pCenter] point the same way, the second
    end point being the first moved along the ray by a positive factor,
    the angle is zero and nothing is added to the overlay. *)
Theorem same_direction_draws_nothing
    (ctx : option (string -> R)) (pCenter v : Vector3.t) (k : R)
    (text : string) (group : list Overlay) :
  0 < k -> Vector3.lengthSq v <> 0 ->
  drawAngleVisualization ctx (Vector3.add pCenter v) pCenter
    (Vector3.add pCenter (Vector3.multiplyScalar v k)) text group
  = group.
Proof.
  intros Hk Hv. unfold drawAngleVisualization.
  rewrite !sub_add_cancel, (angleTo_same_direction v k Hk Hv).
  rewrite (Rltb_lt 0 0.01) by lra. reflexivity.
Qed.

Lemma same_direction_draws_nothing_witness :
  0 < 2 /\ Vector3.lengthSq (vec3 1 0 0) <> 0
  /\ drawAngleVisualization sampleContext
       (Vector3.add (vec3 0 0 0) (vec3 1 0 0)) (vec3 0 0 0)
       (Vector3.add (vec3 0 0 0) (Vector3.multiplyScalar (vec3 1 0 0) 2))
       "0" [] = [].
Proof.
  assert (H2 : 0 < 2) by lra.
  assert (Hv : Vector3.lengthSq (vec3 1 0 0) <> 0)
    by (unfold Vector3.lengthSq; simpl; lra).
  split; [exact H2|]. split; [exact Hv|].
  exact (same_direction_draws_nothing sampleContext (vec3 0 0 0) (vec3 1 0 0)
           2 "0" [] H2 Hv).
Defined.

Lemma lookupZ_None {A : Type} (l : list A) (i : Z) :
  (i < 0)%Z \/ (Z.of_nat (List.length l) <= i)%Z -> lookupZ l i = None.
Proof.
  intros H. unfold lookupZ. destruct (0 <=? i)%Z eqn:H0; [|done].
  apply Z.leb_le in H0. apply lookup_ge_None. lia.
Qed.

(** X15.  Angle entries that cannot be drawn are passed over without an
    error: when every entry of an atom's bond angles has an index list
    that is not of length three, or names an index that is not the index
    of an atom, the overlay is left as it was; the same holds when the
    atom has no bond angles, when the details are not those of an atom,
    and when the model has no table of atom positions. *)
Theorem undrawable_angles_are_skipped
    (ctx : option (string -> R)) (root : Object3D) (a : AtomDetails)
    (positions : list Vector3.t) (angles : list BondAngle)
    (group : list Overlay) :
  atomPositions (userDataOf root) = Some positions ->
  ad_bondAngles a = Some angles ->
  Forall (undrawable (List.length positions)) angles ->
  drawAngles ctx root (OfAtom a) group = group.
Proof.
  intros Hp Ha Hall. unfold drawAngles. rewrite Hp, Ha. clear Ha.
  induction Hall as [|angleInfo angles Hx _ IH]; [done|].
  cbn [foldl]. unfold undrawable in Hx.
  destruct (atomsInvolvedIndices angleInfo) as [l|]; [|exact IH].
  destruct l as [|i0 l]; [exact IH|]. destruct l as [|i1 l]; [exact IH|].
  destruct l as [|i2 l]; [exact IH|]. destruct l as [|i3 l]; [|exact IH].
  assert (Hnone : lookupZ (map (applyMatrixWorld root) positions) i0 = None
                  \/ lookupZ (map (applyMatrixWorld root) positions) i1 = None
                  \/ lookupZ (map (applyMatrixWorld root) positions) i2
                     = None).
  { apply Exists_cons in Hx as [Hx|Hx];
      [left; apply lookupZ_None; by rewrite length_map|].
    apply Exists_cons in Hx as [Hx|Hx];
      [right; left; apply lookupZ_None; by rewrite length_map|].
    apply Exists_cons in Hx as [Hx|Hx];
      [right; right; apply lookupZ_None; by rewrite length_map|].
    by apply Exists_nil in Hx. }
  destruct (lookupZ _ i0) as [q0|]; [|exact IH].
  destruct (lookupZ _ i1) as [q1|]; [|exact IH].
  destruct (lookupZ _ i2) as [q2|]; [|exact IH].
  by destruct Hnone as [?|[?|?]].
Qed.

Lemma undrawable_angles_are_skipped_witness :
  drawAngles sampleContext
    (Group {| details := None; faceId := None;
              atomPositions := Some [vec3 0 0 0; vec3 3 0 0] |}
           Vector3.zero Identity [])
    (OfAtom {| ad_element := "C";
               ad_bondAngles :=
                 Some [{| angle := "180"; atomsInvolved := ["H"; "C"; "H"];
                          atomsInvolvedIndices := Some [0; 1; 5]%Z |};
                       {| angle := "120"; atomsInvolved := ["H"; "C"];
                          atomsInvolvedIndices := Some [0; 1]%Z |}];
               ad_vseprShape := "Linear"; atomIndex := 1 |})
    [] = [].
Proof.
  eapply undrawable_angles_are_skipped; [reflexivity|reflexivity|].
  constructor; [|constructor; [exact I|constructor]].
  unfold undrawable. simpl. right. right. left. right. lia.
Defined.

(** ** The bookkeeping is in order after every event *)



Lemma wellFormed_no_model st :
  generatedObject st = None -> highlightedObjects st = [] -> wellFormed st.
Proof.
  intros Hg Hh. split; [split|].
  - intros r. rewrite Hh. intros H. by apply elem_of_nil in H.
  - intros id root. by rewrite Hg.
  - intros id root. by rewrite Hg.
Qed.


Lemma afterReset_more st :
  highlightedObjects (afterReset st) = highlightedObjects st
  /\ materialColor (afterReset st) = materialColor st.
Proof.
  unfold afterReset.
  set (st0 := clearError _).
  assert (H : highlightedObjects (removeGeneratedObject st0)
              = highlightedObjects st
              /\ materialColor (removeGeneratedObject st0)
                 = materialColor st).
  { unfold removeGeneratedObject. by destruct (generatedObject st0) as [[]|]. }
  exact H.
Qed.

Lemma afterReset_cleared st :
  currentSelectionDetails (afterReset st) = None
  /\ angleVisualizationGroup (afterReset st) = []
  /\ errorMessage (afterReset st) = None.
Proof.
  unfold afterReset.
  set (st0 := clearError _).
  assert (H : errorMessage (removeGeneratedObject st0) = None).
  { unfold removeGeneratedObject. by destruct (generatedObject st0) as [[]|]. }
  split; [done|]. split; [done|]. exact H.
Qed.

Lemma addToScene_more box g st :
  currentSelectionDetails (addToScene box g st) = currentSelectionDetails st
  /\ angleVisualizationGroup (addToScene box g st)
     = angleVisualizationGroup st
  /\ errorMessage (addToScene box g st) = errorMessage st.
Proof. done. Qed.

Lemma numbered_fresh st : numbered st -> freshHighlights st.
Proof.
  intros [N1 _] p Hin. apply N1 in Hin. simpl in Hin. lia.
Qed.








(** X17.  A successful generation: the built model, centred, becomes the
    active model under a new object number and is added to the scene;
    every one of its meshes shows the colour it was built with; no
    selection is current, the overlay is empty and no error is shown.
    The highlight records are not touched: records of meshes of the
    replaced model stay in the list until the next select operation or
    reset empties it. *)
Theorem generation_activates_built_model
    (ctx : option (string -> R)) (box : Object3D -> Box3) (st : State)
    (mode : Mode) (data : ModelData) (g : Object3D) :
  wellFormed st ->
  selectedImage st = true ->
  currentMode st = Some mode ->
  buildFor ctx box (Some mode) data = Ok g ->
  generatedObject (handleGenerateClick ctx box (Document data) st)
  = Some (nextObjectId st, recentre (getCenter (box g)) g)
  /\ nextObjectId (handleGenerateClick ctx box (Document data) st)
     = S (nextObjectId st)
  /\ nextObjectId st
     ∈ sceneModels (handleGenerateClick ctx box (Document data) st)
  /\ (forall id root, generatedObject st = Some (id, root) ->
        id ∉ sceneModels (handleGenerateClick ctx box (Document data) st))
  /\ (forall p c,
        builtColor (recentre (getCenter (box g)) g) p = Some c ->
        materialColor (handleGenerateClick ctx box (Document data) st)
          !! (nextObjectId st, p) = Some c)
  /\ highlightedObjects (handleGenerateClick ctx box (Document data) st)
     = highlightedObjects st
  /\ currentSelectionDetails (handleGenerateClick ctx box (Document data) st)
     = None
  /\ angleVisualizationGroup (handleGenerateClick ctx box (Document data) st)
     = []
  /\ errorMessage (handleGenerateClick ctx box (Document data) st) = None.
Proof.
  intros Hw Himg Hmode Hb.
  rewrite (handleGenerateClick_built _ _ _ _ _ _ Himg Hmode Hb
             (buildFor_valid _ _ _ _ _ Hb)).
  destruct (afterReset_fields st) as (Hnone & Hgone & Hm & _ & Hn & _).
  destruct (afterReset_more st) as (Hh & _).
  destruct (addToScene_fields box g (afterReset st))
    as (Hg' & Hs' & _ & _ & Hh' & Hn').
  assert (Hc : consistent (addToScene box g (afterReset st))
                 (nextObjectId (afterReset st))
                 (recentre (getCenter (box g)) g)).
  { apply (addToScene_consistent box g _ mode); [by rewrite Hm| |].
    - by apply (buildFor_shape ctx box mode data).
    - intros p Hin. rewrite Hh, Hn in Hin.
      apply (proj1 (proj1 Hw)) in Hin. simpl in Hin. lia. }
  rewrite Hn in Hc. rewrite Hg', Hs', Hh', Hn', Hn, Hh.
  split; [done|]. split; [done|].
  split; [apply elem_of_app; right; by left|]. split.
  { intros id root Hgen Hin. apply elem_of_app in Hin as [Hin|Hin].
    - by apply (Hgone id root Hgen).
    - apply list_elem_of_singleton in Hin as ->.
      pose proof (proj2 (proj1 Hw) _ _ Hgen). lia. }
  split.
  { intros p c Hbc. rewrite (coloured _ _ _ Hc p c Hbc).
    rewrite decide_False; [done|]. rewrite Hh', Hh. intros Hin.
    apply (proj1 (proj1 Hw)) in Hin. simpl in Hin. lia. }
  destruct (addToScene_more box g (afterReset st)) as (-> & -> & ->).
  destruct (afterReset_cleared st) as (-> & -> & ->). done.
Qed.

Lemma generation_activates_built_model_witness :
  exists g,
    buildFor sampleContext cornerBox (Some geometry) solidA = Ok g
    /\ wellFormed readyForGeometry
    /\ generatedObject
         (handleGenerateClick sampleContext cornerBox (Document solidA)
                              readyForGeometry)
       = Some (0%nat, recentre (getCenter (cornerBox g)) g).
Proof.
  destruct solidA_builds as (g & Hb & _). exists g.
  assert (Hw : wellFormed readyForGeometry)
    by (by apply wellFormed_no_model).
  split; [exact Hb|]. split; [exact Hw|].
  exact (proj1 (generation_activates_built_model sampleContext cornerBox
                  readyForGeometry geometry solidA g Hw eq_refl eq_refl Hb)).
Defined.

(** * Saved sessions and the question history *)

Lemma insertByTimestamp_perm s l : insertByTimestamp s l ≡ₚ s :: l.
Proof.
  induction l as [|s' l IH]; [done|]. simpl.
  destruct (_ <=? _)%Z; [done|]. rewrite IH. apply Permutation_swap.
Qed.

Lemma sortNewestFirst_perm l : sortNewestFirst l ≡ₚ l.
Proof.
  induction l as [|s l IH]; [done|]. simpl.
  rewrite insertByTimestamp_perm. by rewrite IH.
Qed.



Lemma findIndex_Some {A : Type} (test : A -> bool) (l : list A) i :
  findIndex test l = Some i ->
  exists x, l !! i = Some x /\ test x = true
            /\ forall j y, (j < i)%nat -> l !! j = Some y -> test y = false.
Proof.
  revert i. induction l as [|x l IH]; intros i; [done|]. simpl.
  destruct (test x) eqn:Hx.
  - intros [= <-]. exists x. split; [done|]. split; [done|]. lia.
  - destruct (findIndex test l) as [i'|]; [|done]. simpl. intros [= <-].
    destruct (IH i' eq_refl) as (y & Hy & Hty & Hbefore).
    exists y. split; [done|]. split; [done|].
    intros [|j] z Hj; simpl; [by intros [= <-]|].
    apply Hbefore. lia.
Qed.

Lemma findIndex_None {A : Type} (test : A -> bool) (l : list A) :
  findIndex test l = None <-> forall x, x ∈ l -> test x = false.
Proof.
  induction l as [|x l IH]; simpl.
  - split; [|done]. intros _ y Hy. by apply elem_of_nil in Hy.
  - destruct (test x) eqn:Hx.
    + split; [done|]. intros H. rewrite (H x) in Hx; [done|by left].
    + destruct (findIndex test l) as [i|] eqn:Hf; simpl.
      * split; [done|]. intros H.
        assert (Hc : Some i = None)
          by (apply IH; intros y Hy; apply H; by right).
        done.
      * split; [|done]. intros _ y Hy.
        apply elem_of_cons in Hy as [->|Hy]; [done|].
        by apply (proj1 IH).
Qed.

(** What [handleSaveSession] does, case by case. *)
Lemma handleSaveSession_cases now1 now2 w :
  (canSave w = false
   /\ Documents.handleSaveSession now1 now2 w
      = Documents.showNotification
          "Error: Cannot save session, model data is missing." w)
  \/ (exists current index fresh,
        canSave w = true
        /\ Documents.currentSessionId w = Some current /\ current <> 0%Z
        /\ findIndex (fun s => (StoredSession.id s =? current)%Z)
                     (Documents.getSavedSessions w) = Some index
        /\ sessionOfDocuments current now1 w = Some fresh
        /\ Documents.handleSaveSession now1 now2 w
           = Documents.mk (Documents.currentMode w)
               (Documents.selectedImage w) (Documents.generatedModelData w)
               (Documents.qaHistory w) (Documents.chat w)
               (Documents.currentSessionId w)
               (Some (sortNewestFirst
                        (<[index := fresh]> (Documents.getSavedSessions w))))
               (Some "Session updated successfully!"))
  \/ (exists fresh,
        canSave w = true
        /\ (Documents.truthyId (Documents.currentSessionId w) = false
            \/ forall s, s ∈ Documents.getSavedSessions w ->
                         Some (StoredSession.id s)
                         <> Documents.currentSessionId w)
        /\ sessionOfDocuments now2 now2 w = Some fresh
        /\ Documents.handleSaveSession now1 now2 w
           = Documents.mk (Documents.currentMode w)
               (Documents.selectedImage w) (Documents.generatedModelData w)
               (Documents.qaHistory w) (Documents.chat w) (Some now2)
               (Some (fresh :: Documents.getSavedSessions w))
               (Some "Session saved successfully!")).
Proof.
  unfold Documents.handleSaveSession, canSave, sessionOfDocuments.
  destruct (Documents.generatedModelData w) as [modelData|]; [|by left].
  destruct (Documents.selectedImage w) as [image|];
    [|left; by rewrite andb_false_r].
  destruct (Documents.currentMode w) as [mode|];
    [|left; by rewrite andb_false_r].
  cbn [Documents.truthyText]. destruct (truthy modelData); [|by left].
  cbn [negb andb]. right. cbv zeta.
  destruct (Documents.truthyId (Documents.currentSessionId w)) eqn:Hid.
  - destruct (Documents.currentSessionId w) as [current|] eqn:Hcur; [|done].
    simpl in Hid. apply negb_true_iff, Z.eqb_neq in Hid.
    cbn [default from_option Datatypes.id].
    destruct (findIndex _ _) as [index|] eqn:Hf.
    + left. exists current, index. eexists. repeat split; done.
    + right. eexists. split; [done|]. split; [|done]. right.
      intros s Hs [= Heq].
      pose proof (proj1 (findIndex_None _ _) Hf s Hs) as Hno.
      simpl in Hno. apply Z.eqb_neq in Hno. done.
  - right. eexists. split; [done|]. split; [by left|done].
Qed.


(** ** Saving, loading and asking, composed *)

Lemma canSave_fields w :
  canSave w = true ->
  exists modelData image mode,
    Documents.generatedModelData w = Some modelData
    /\ truthy modelData = true
    /\ Documents.selectedImage w = Some image
    /\ Documents.currentMode w = Some mode
    /\ forall id timestamp,
         sessionOfDocuments id timestamp w
         = Some (StoredSession.mk id timestamp modelData
                   (Documents.qaHistory w) mode (Image.data image)
                   (Image.mimeType image)).
Proof.
  unfold canSave, sessionOfDocuments, Documents.truthyText.
  destruct (Documents.generatedModelData w) as [modelData|]; [|done].
  destruct (Documents.selectedImage w) as [image|];
    [|by rewrite andb_false_r].
  destruct (Documents.currentMode w) as [mode|];
    [|by rewrite andb_false_r].
  destruct (truthy modelData) eqn:Ht; [|done]. intros _.
  by exists modelData, image, mode.
Qed.

(** X19.  What is saved can be loaded: after a save that has a document,
    an image and a mode, the stored list holds a session whose id is the
    current session id, and loading that session (its model building)
    from any state brings back the mode, the image, the document and the
    question history that were saved, makes its id the current one,
    creates the chat anew from the document and the history, and leaves
    the stored list alone; when its model does not build, loading leaves
    no mode, image, document, history, chat or current id. *)
Theorem saved_session_can_be_loaded
    (getChatPrompt : string -> string) (now1 now2 : Z) (w : Documents.t) :
  canSave w = true ->
  exists s modelData,
    s ∈ Documents.getSavedSessions (Documents.handleSaveSession now1 now2 w)
    /\ Documents.currentSessionId (Documents.handleSaveSession now1 now2 w)
       = Some (StoredSession.id s)
    /\ Documents.generatedModelData w = Some modelData
    /\ (forall w0,
          Documents.loadSessionState getChatPrompt true s w0
          = Documents.mk (Documents.currentMode w)
              (Documents.selectedImage w) (Documents.generatedModelData w)
              (Documents.qaHistory w)
              (Some (Documents.openingTurns getChatPrompt modelData
                     ++ Documents.replayedTurns (Documents.qaHistory w)))
              (Some (StoredSession.id s))
              (Documents.storage w0) (Documents.notification w0))
    /\ (forall w0,
          Documents.loadSessionState getChatPrompt false s w0
          = Documents.mk None None None [] None None
              (Documents.storage w0) (Documents.notification w0)).
Proof.
  intros Hyes.
  destruct (canSave_fields w Hyes)
    as (modelData & image & mode & Hmd & Ht & Himg & Hmode & Hsession).
  assert (Hload : forall id timestamp w0,
             Documents.loadSessionState getChatPrompt true
               (StoredSession.mk id timestamp modelData
                  (Documents.qaHistory w) mode (Image.data image)
                  (Image.mimeType image)) w0
             = Documents.mk (Documents.currentMode w)
                 (Documents.selectedImage w) (Documents.generatedModelData w)
                 (Documents.qaHistory w)
                 (Some (Documents.openingTurns getChatPrompt modelData
                        ++ Documents.replayedTurns (Documents.qaHistory w)))
                 (Some id) (Documents.storage w0) (Documents.notification w0)).
  { intros id timestamp w0. rewrite Hmd, Himg, Hmode. by destruct image. }
  destruct (handleSaveSession_cases now1 now2 w)
    as [[Hno _]
       |[(current & index & fresh & _ & Hcur & Hne & Hf & Hfresh & ->)
        |(fresh & _ & Hnew & Hfresh & ->)]]; [congruence| |].
  - rewrite Hsession in Hfresh. injection Hfresh as <-.
    eexists _, modelData. split; [|split; [|split; [|split]]].
    + unfold Documents.getSavedSessions. cbn [Documents.storage default
        from_option Datatypes.id].
      rewrite sortNewestFirst_perm.
      destruct (findIndex_Some _ _ _ Hf) as (s & Hs & _).
      eapply list_elem_of_lookup_2.
      apply list_lookup_insert_eq. by eapply lookup_lt_Some.
    + exact Hcur.
    + exact Hmd.
    + intros w0. apply Hload.
    + done.
  - rewrite Hsession in Hfresh. injection Hfresh as <-.
    eexists _, modelData. split; [|split; [|split; [|split]]].
    + unfold Documents.getSavedSessions. cbn [Documents.storage default
        from_option Datatypes.id]. by left.
    + done.
    + exact Hmd.
    + intros w0. apply Hload.
    + done.
Qed.

Lemma saved_session_can_be_loaded_witness :
  canSave sampleDocuments = true
  /\ Documents.storage (Documents.handleSaveSession 1000 1001 sampleDocuments)
     = Some [StoredSession.mk 1001 1001 "{}" [] chemistry "aGVsbG8="
                              "image/png"]
  /\ exists s modelData,
       s ∈ Documents.getSavedSessions
             (Documents.handleSaveSession 1000 1001 sampleDocuments)
       /\ Documents.currentSessionId
            (Documents.handleSaveSession 1000 1001 sampleDocuments)
          = Some (StoredSession.id s)
       /\ Documents.generatedModelData sampleDocuments = Some modelData.
Proof.
  split; [reflexivity|]. split; [reflexivity|].
  destruct (saved_session_can_be_loaded (fun text => text) 1000 1001
              sampleDocuments eq_refl) as (s & modelData & H1 & H2 & H3 & _).
  by exists s, modelData.
Defined.



Lemma ask_history formatResponseTextToHtml w asked :
  is_Some (Documents.chat w) ->
  Forall (fun a : Asked => truthy a.1.1 = true) asked ->
  Documents.qaHistory (foldl (ask formatResponseTextToHtml) w asked)
  = reverse (map (fun a : Asked =>
                    QAPair.mk a.1.1 a.1.2 (formatResponseTextToHtml a.1.2)
                              a.2) asked)
    ++ Documents.qaHistory w
  /\ Documents.chat (foldl (ask formatResponseTextToHtml) w asked)
     = Documents.chat w.
Proof.
  intros Hchat Hall. revert w Hchat.
  induction Hall as [|a asked Ha _ IH]; intros w Hchat; [done|].
  cbn [foldl map]. rewrite reverse_cons, <- app_assoc.
  assert (Hstep : ask formatResponseTextToHtml w a
                  = Documents.mk (Documents.currentMode w)
                      (Documents.selectedImage w)
                      (Documents.generatedModelData w)
                      (QAPair.mk a.1.1 a.1.2
                         (formatResponseTextToHtml a.1.2) a.2
                       :: Documents.qaHistory w)
                      (Documents.chat w) (Documents.currentSessionId w)
                      (Documents.storage w) (Documents.notification w)).
  { unfold ask, Documents.handleAskQuestion. rewrite Ha.
    by rewrite bool_decide_eq_true_2. }
  destruct (IH (ask formatResponseTextToHtml w a)) as [-> ->];
    [by rewrite Hstep|].
  by rewrite Hstep.
Qed.

(** X21.  Questions are recorded newest first and replayed oldest first:
    after a run of answered questions asked with a chat and an empty
    history, the history holds them in reverse order, and the turns with
    which a chat is re-created from that history, when a session holding
    it is loaded, are the two opening turns followed by every question
    and its answer in the order in which they were asked. *)
Theorem questions_are_replayed_in_the_order_asked
    (getChatPrompt formatResponseTextToHtml : string -> string)
    (w : Documents.t) (asked : list Asked) :
  is_Some (Documents.chat w) ->
  Documents.qaHistory w = [] ->
  Forall (fun a : Asked => truthy a.1.1 = true) asked ->
  map QAPair.question
      (Documents.qaHistory (foldl (ask formatResponseTextToHtml) w asked))
  = reverse (map (fun a : Asked => a.1.1) asked)
  /\ Documents.replayedTurns
       (Documents.qaHistory (foldl (ask formatResponseTextToHtml) w asked))
     = concat (map (fun a : Asked => [(user, a.1.1); (model, a.1.2)]) asked)
  /\ (forall session w0,
        StoredSession.qaHistory session
        = Documents.qaHistory (foldl (ask formatResponseTextToHtml) w asked)
        ->
        Documents.chat
          (Documents.loadSessionState getChatPrompt true session w0)
        = Some (Documents.openingTurns getChatPrompt
                  (StoredSession.modelData session)
                ++ concat (map (fun a : Asked =>
                                  [(user, a.1.1); (model, a.1.2)]) asked))).
Proof.
  intros Hchat Hempty Hall.
  destruct (ask_history formatResponseTextToHtml w asked Hchat Hall)
    as [Hh _].
  rewrite Hempty, app_nil_r in Hh.
  assert (Hreplay : Documents.replayedTurns
                      (Documents.qaHistory
                         (foldl (ask formatResponseTextToHtml) w asked))
                    = concat (map (fun a : Asked =>
                                     [(user, a.1.1); (model, a.1.2)]) asked)).
  { rewrite Hh. unfold Documents.replayedTurns. rewrite reverse_involutive.
    by rewrite map_map. }
  split; [|split].
  - rewrite Hh. change (map ?f ?l) with (f <$> l).
    rewrite fmap_reverse, <- list_fmap_compose. done.
  - exact Hreplay.
  - intros session w0 Heq. cbn [Documents.loadSessionState Documents.chat].
    by rewrite Heq, Hreplay.
Qed.

Lemma questions_are_replayed_in_the_order_asked_witness :
  Documents.replayedTurns
    (Documents.qaHistory
       (foldl (ask (fun text => text)) sampleDocuments
              [("first"%string, "one"%string, None);
               ("second"%string, "two"%string, None)]))
  = [(user, "first"%string); (model, "one"%string);
     (user, "second"%string); (model, "two"%string)].
Proof.
  assert (Hchat : is_Some (Documents.chat sampleDocuments)) by (by eexists).
  assert (Hall : Forall (fun a : Asked => truthy a.1.1 = true)
                   [("first"%string, "one"%string, None);
                    ("second"%string, "two"%string, None)])
    by (repeat constructor).
  exact (proj1 (proj2 (questions_are_replayed_in_the_order_asked
                         (fun text => text) (fun text => text)
                         sampleDocuments _ Hchat eq_refl Hall))).
Defined.

(** X22.  A question of the history restores the selection it was
    answered under.  Once an answer has arrived while a selection was
    current, a click on that question (now the first of the history)
    makes that selection current again and highlights exactly what it
    resolves to in the active model, and the older questions, each moved
    down by one, behave as before.  A question whose answer failed, or
    that was answered with nothing selected, does nothing when
    clicked. *)
Theorem question_click_restores_selection
    (ctx : option (string -> R)) (formatResponseTextToHtml : string -> string)
    (question answerText : string) (sel : SelectionData)
    (w : Documents.t) (st : State) (id : nat) (root : Object3D) :
  truthy question = true ->
  is_Some (Documents.chat w) ->
  consistent st id root ->
  currentSelectionDetails
    (questionClicked ctx 0
       (Documents.handleAskQuestion formatResponseTextToHtml question
          (Some answerText) (Some sel) w) st)
  = Some sel
  /\ (highlightedObjects
        (questionClicked ctx 0
           (Documents.handleAskQuestion formatResponseTextToHtml question
              (Some answerText) (Some sel) w) st)).*1
     = map (pair id) (resolved (currentMode st) root (Restore sel))
  /\ (forall i reply selection,
        questionClicked ctx (S i)
          (Documents.handleAskQuestion formatResponseTextToHtml question
             reply selection w) st
        = questionClicked ctx i w st)
  /\ questionClicked ctx 0
       (Documents.handleAskQuestion formatResponseTextToHtml question
          None (Some sel) w) st
     = st
  /\ questionClicked ctx 0
       (Documents.handleAskQuestion formatResponseTextToHtml question
          (Some answerText) None w) st
     = st.
Proof.
  intros Hq Hchat Hc.
  assert (Hstep : forall reply selection,
             Documents.qaHistory
               (Documents.handleAskQuestion formatResponseTextToHtml question
                  reply selection w)
             = match reply with
               | Some text =>
                   QAPair.mk question text (formatResponseTextToHtml text)
                             selection
               | None =>
                   QAPair.mk question
                     "Sorry, I was unable to answer that question."
                     "Sorry, I was unable to answer that question." None
               end :: Documents.qaHistory w).
  { intros reply selection. unfold Documents.handleAskQuestion.
    rewrite Hq, bool_decide_eq_true_2 by done. done. }
  unfold questionClicked. rewrite !Hstep. cbn [lookup list_lookup].
  cbn [QAPair.selectionContext].
  destruct (reHighlightSelection_selection ctx sel st id root
              (active _ _ _ Hc)) as (H1 & _).
  destruct (restore_consistent ctx sel st id root Hc) as (_ & _ & H2 & _).
  split; [exact H1|]. split; [exact H2|]. split; [|done].
  intros i reply selection. by rewrite Hstep.
Qed.

Lemma question_click_restores_selection_witness :
  exists g,
    buildFor sampleContext cornerBox (Some geometry) nineAndOne = Ok g
    /\ currentSelectionDetails
         (questionClicked sampleContext 0
            (Documents.handleAskQuestion (fun text => text) "why?"
               (Some "because")
               (Some (geometry_face 1
                        (OfFace {| surfaceArea := "6";
                                   perimeter := "12" |})))
               sampleDocuments)
            (loadSessionState sampleContext cornerBox
               (sessionOf geometry nineAndOne) initialState))
       = Some (geometry_face 1
                 (OfFace {| surfaceArea := "6"; perimeter := "12" |})).
Proof.
  destruct nineAndOne_builds as (g & Hb & _). exists g. unfold sessionOf.
  destruct (loadSessionState_consistent sampleContext cornerBox geometry
              nineAndOne g initialState Hb) as [Hc _].
  assert (Hchat : is_Some (Documents.chat sampleDocuments)) by (by eexists).
  split; [exact Hb|].
  exact (proj1 (question_click_restores_selection sampleContext
                  (fun text => text) "why?" "because" _ sampleDocuments
                  _ _ _ eq_refl Hchat Hc)).
Defined.

(** ** Framing the camera *)









Lemma stretched_by_zero (c d : Vector3.t) :
  Vector3.add c (Vector3.multiplyScalar d 0) = c.
Proof.
  destruct c as [a b e], d as [a' b' e'].
  unfold Vector3.add, Vector3.multiplyScalar. simpl. apply vec3_eq; ring.
Qed.







(** ** A stored session that does not build *)

Lemma resetApp_cleared st :
  currentMode (resetApp st) = None
  /\ selectedImage (resetApp st) = false
  /\ currentSelectionDetails (resetApp st) = None
  /\ generatedObject (resetApp st) = None
  /\ highlightedObjects (resetApp st) = []
  /\ angleVisualizationGroup (resetApp st) = []
  /\ errorMessage (resetApp st) = None.
Proof.
  split; [|split; [|split; [|split; [apply generatedObject_resetApp|]]]].
  4: split; [apply highlightedObjects_resetApp|split; [done|]].
  all: unfold resetApp; set (st0 := clearError _).
  - change (currentMode (removeGeneratedObject st0) = None).
    unfold removeGeneratedObject. by destruct (generatedObject st0) as [[]|].
  - change (selectedImage (removeGeneratedObject st0) = false).
    unfold removeGeneratedObject. by destruct (generatedObject st0) as [[]|].
  - change (currentSelectionDetails (removeGeneratedObject st0) = None).
    unfold removeGeneratedObject. by destruct (generatedObject st0) as [[]|].
  - change (errorMessage (removeGeneratedObject st0) = None).
    unfold removeGeneratedObject. by destruct (generatedObject st0) as [[]|].
Qed.

Lemma loadSessionState_failed ctx box session st :
  (session_modelData session = None
   \/ exists data e,
        session_modelData session = Some data
        /\ buildFor ctx box (Some (session_mode session)) data = Throw e) ->
  exists st', loadSessionState ctx box session st = resetApp st'.
Proof.
  unfold loadSessionState. intros [->|(data & e & -> & ->)]; by eexists.
Qed.

(** X24.  A stored session that cannot be rebuilt is dropped without a
    word.  When its document does not parse or its model does not build,
    loading it ends in the state of a reset: no mode, no image, no model,
    no selection, nothing highlighted, and no error message either, the
    message set for the failure being cleared by the reset that follows
    it.  The same failure during a generation leaves its message on
    display. *)
Theorem failed_load_shows_no_error
    (ctx : option (string -> R)) (box : Object3D -> Box3)
    (session : Session) (st : State) :
  (session_modelData session = None
   \/ exists data e,
        session_modelData session = Some data
        /\ buildFor ctx box (Some (session_mode session)) data = Throw e) ->
  errorMessage (loadSessionState ctx box session st) = None
  /\ currentMode (loadSessionState ctx box session st) = None
  /\ selectedImage (loadSessionState ctx box session st) = false
  /\ generatedObject (loadSessionState ctx box session st) = None
  /\ currentSelectionDetails (loadSessionState ctx box session st) = None
  /\ highlightedObjects (loadSessionState ctx box session st) = []
  /\ (forall data e st0,
        selectedImage st0 = true ->
        currentMode st0 = Some (session_mode session) ->
        buildFor ctx box (Some (session_mode session)) data = Throw e ->
        errorMessage (handleGenerateClick ctx box (Document data) st0)
        = Some (message e)).
Proof.
  intros Hfail.
  destruct (loadSessionState_failed ctx box session st Hfail) as [st' ->].
  destruct (resetApp_cleared st') as (H1 & H2 & H3 & H4 & H5 & _ & H7).
  repeat (split; [assumption|]).
  intros data e st0 Himg Hmode Hb.
  unfold handleGenerateClick. rewrite Himg, Hmode.
  rewrite bool_decide_eq_true_2 by done. cbn [negb orb].
  fold (afterReset st0).
  destruct (afterReset_fields st0) as (_ & _ & -> & _).
  rewrite Hmode, Hb. done.
Qed.

Lemma failed_load_shows_no_error_witness :
  errorMessage
    (loadSessionState sampleContext cornerBox
       {| session_mode := geometry; session_modelData := None |}
       initialState)
  = None.
Proof.
  exact (proj1 (failed_load_shows_no_error sampleContext cornerBox
                  {| session_mode := geometry; session_modelData := None |}
                  initialState (or_introl eq_refl))).
Defined.

(** ** The tables of superscripts and subscripts *)

Lemma find_withoutCapitals (table : list (N * N)) (u : N) :
  isCapital u = false ->
  List.find (fun row => (row.1 =? u)%N) (withoutCapitals table)
  = List.find (fun row => (row.1 =? u)%N) table.
Proof.
  intros Hu. induction table as [|row table IH]; [done|].
  unfold withoutCapitals in *. cbn [List.filter List.find].
  destruct (isCapital row.1) eqn:Hrow; cbn [negb].
  - destruct (N.eqb_spec row.1 u) as [Heq|_]; [congruence|exact IH].
  - cbn [List.find]. by rewrite IH.
Qed.

Lemma lookupKey_withoutCapitals (table : list (N * N)) (key : list N) :
  (forall u, key = [u] -> isCapital u = false) ->
  lookupKey (withoutCapitals table) key = lookupKey table key.
Proof.
  intros Hkey. destruct key as [|u [|]]; [done| |done].
  unfold lookupKey. by rewrite find_withoutCapitals by by apply Hkey.
Qed.

Lemma lookupKey_value (table : list (N * N)) (key : list N) (v : N) :
  lookupKey table key = Some v -> v ∈ table.*2.
Proof.
  destruct key as [|u [|]]; [done| |done]. unfold lookupKey.
  destruct (List.find _ table) as [row|] eqn:Hf; [|done].
  intros [= <-]. apply find_some in Hf as [Hin _].
  apply list_elem_of_fmap. exists row. split; [done|].
  by apply list_elem_of_In.
Qed.

(** X25.  The rows of capital letters are never read.  [toSuper] looks a
    character up under its lower-cased form, which is never a capital
    letter, so it gives the results it would give with the rows of the
    capital letters taken out of the table: every unit of its result is a
    unit of its input or the value of a row of a digit, a small letter or a
    sign, and a capital letter comes out as the superscript of its small
    letter or unchanged, never as the small capital its own row holds. *)
Theorem capital_rows_are_never_read
    (toLowerCase : N -> list N) (chars : list N) :
  (forall c u, toLowerCase c = [u] -> isCapital u = false) ->
  toSuper toLowerCase chars
  = map (fun c => default c (lookupKey (withoutCapitals superscripts)
                                        (toLowerCase c))) chars
  /\ (forall v, v ∈ toSuper toLowerCase chars ->
                v ∈ chars \/ v ∈ (withoutCapitals superscripts).*2)
  /\ (forall v, v ∈ toSub toLowerCase chars ->
                v ∈ chars \/ v ∈ subscripts.*2).
Proof.
  intros Hlower.
  assert (Heq : forall c,
             lookupKey superscripts (toLowerCase c)
             = lookupKey (withoutCapitals superscripts) (toLowerCase c)).
  { intros c. symmetry. apply lookupKey_withoutCapitals.
    intros u. apply Hlower. }
  split; [|split].
  - unfold toSuper. apply map_ext. intros c. by rewrite Heq.
  - intros v Hv. unfold toSuper in Hv. apply list_elem_of_In in Hv.
    apply in_map_iff in Hv as (c & <- & Hc). rewrite Heq.
    destruct (lookupKey _ (toLowerCase c)) as [w|] eqn:Hl.
    + right. by eapply lookupKey_value.
    + left. by apply list_elem_of_In.
  - intros v Hv. unfold toSub in Hv. apply list_elem_of_In in Hv.
    apply in_map_iff in Hv as (c & <- & Hc).
    destruct (lookupKey _ (toLowerCase c)) as [w|] eqn:Hl.
    + right. by eapply lookupKey_value.
    + left. by apply list_elem_of_In.
Qed.

Lemma asciiToLowerCase_small (c u : N) :
  asciiToLowerCase c = [u] -> isCapital u = false.
Proof.
  unfold asciiToLowerCase. destruct (isCapital c) eqn:Hc; intros [= <-].
  - unfold isCapital in *. apply andb_true_iff in Hc as [H1 H2].
    apply N.leb_le in H1, H2. apply andb_false_iff. right.
    apply N.leb_gt. lia.
  - exact Hc.
Qed.

Lemma capital_rows_are_never_read_witness :
  toSuper asciiToLowerCase [65; 81; 50]%N = [7491; 81; 178]%N
  /\ toSuper asciiToLowerCase [65; 81; 50]%N
     = map (fun c => default c (lookupKey (withoutCapitals superscripts)
                                           (asciiToLowerCase c)))
           [65; 81; 50]%N.
Proof.
  split; [reflexivity|].
  exact (proj1 (capital_rows_are_never_read asciiToLowerCase [65; 81; 50]%N
                  asciiToLowerCase_small)).
Defined.
